(** * Dashboard backend: authentication middleware, data routes, user routes

    A shallow embedding of the Express/Mongoose backend:

    - [middleware/auth.js]: [authenticateToken], [requireAdmin],
      [requireOwnership], [optionalAuth];
    - the data router ([POST /api/data], [GET /api/data],
      [GET/PUT/DELETE /api/data/:id], [GET /api/data/stats/summary]);
    - the user router ([GET/PUT /api/user/profile], [GET /api/user/stats],
      [DELETE /api/user/account], [GET /api/user/search]);
    - [models/Data.js]: the [Data] schema with its validators, hook,
      statics and methods.

    JavaScript values are a small inductive type, exceptions are values with
    a [name], and every handler is a computation in a state-and-exception
    monad over the two document collections.  One handler runs from start to
    end on the store (requests are not interleaved in this model). *)

From stdpp Require Import gmap strings list fin_maps.
From stdpp Require sorting.
From Stdlib Require Import Ascii String QArith.

Set Warnings "-register-all".

#[local] Open Scope string_scope.
#[local] Open Scope Z_scope.

(** ** JavaScript values

    Request bodies, token payloads and route parameters are untyped in the
    source; the handlers test them with [typeof], [=== undefined] and
    truthiness.  A number of a body is the rational that the double
    denotes; the routes compare such numbers and store them, and do no
    arithmetic on them. *)

Inductive jsval : Type :=
| JUndefined
| JNull
| JBool (b : bool)
| JNum (q : Q)
| JStr (s : string)
| JArr (l : list jsval)
| JObj (kv : list (string * jsval)).

(** [!v] is [negb (truthy v)]. *)
Definition truthy (v : jsval) : bool :=
  match v with
  | JUndefined | JNull => false
  | JBool b => b
  | JNum q => negb (Qnum q =? 0)
  | JStr s => negb (String.eqb s "")
  | JArr _ | JObj _ => true
  end.

Definition is_undefined (v : jsval) : bool :=
  match v with JUndefined => true | _ => false end.

Definition nullish (v : jsval) : bool :=
  match v with JUndefined | JNull => true | _ => false end.

(** [typeof v !== 'number' || v < 0] reads the number out of the value. *)
Definition as_number (v : jsval) : option Q :=
  match v with JNum q => Some q | _ => None end.

Definition num_negative (q : Q) : bool := Qnum q <? 0.

(** Property read on a parsed object (its keys are distinct). *)
Fixpoint assoc (k : string) (kv : list (string * jsval)) : jsval :=
  match kv with
  | [] => JUndefined
  | (k', v) :: rest => if String.eqb k k' then v else assoc k rest
  end.

(** [v.k] for a non-nullish [v]; none of the keys read by the handlers is
    an own property of an array, a string, a number or a boolean. *)
Definition field (v : jsval) (k : string) : jsval :=
  match v with
  | JObj kv => assoc k kv
  | _ => JUndefined
  end.

(** ** Strings

    A string is a sequence of UTF-16 code units, as in the source; the
    characters of the model are the code units below 256, so that a
    character is one code unit and [String.length] is [s.length].  Strings
    with a code unit from 256 on are not in the model. *)

(** The white space and line terminators of [String.prototype.trim] and of
    [parseInt] among these code units: tab, line feed, vertical tab, form
    feed, carriage return, space and the no-break space U+00A0. *)
Definition is_space (c : Ascii.ascii) : bool :=
  let n := nat_of_ascii c in
  (Nat.eqb n 32 || (Nat.leb 9 n && Nat.leb n 13) || Nat.eqb n 160)%bool.

Fixpoint trim_start (s : string) : string :=
  match s with
  | String c s' => if is_space c then trim_start s' else s
  | EmptyString => EmptyString
  end.

(** Drops trailing white space: a space is kept only when something
    follows it. *)
Fixpoint trim_end (s : string) : string :=
  match s with
  | String c s' =>
      match trim_end s' with
      | EmptyString => if is_space c then EmptyString else String c EmptyString
      | t => String c t
      end
  | EmptyString => EmptyString
  end.

(** [String.prototype.trim] *)
Definition trim (s : string) : string := trim_end (trim_start s).

(** [s.split(sep)] for a one-character separator. *)
Fixpoint split (sep : Ascii.ascii) (s : string) : list string :=
  match s with
  | EmptyString => [EmptyString]
  | String c s' =>
      if Ascii.eqb c sep then EmptyString :: split sep s'
      else match split sep s' with
           | seg :: rest => String c seg :: rest
           | [] => [String c EmptyString]
           end
  end.

(** ** Exceptions and the handler monad

    [error.name] selects the branch of every [catch] block;
    [exn_errors] are the messages of [Object.values(error.errors)] of a
    Mongoose [ValidationError]. *)

Record exn : Type := Exn { exn_name : string; exn_errors : list string }.

Definition TypeError : exn := Exn "TypeError" [].
Definition CastError : exn := Exn "CastError" [].
Definition ValidationError (msgs : list string) : exn := Exn "ValidationError" msgs.
Definition MongoServerError : exn := Exn "MongoServerError" [].

Inductive result (A : Type) : Type :=
| Val (a : A)
| Throw (e : exn).
Arguments Val {A} a.
Arguments Throw {A} e.

(** ** Documents

    An [ObjectId] is represented by the 24-digit hexadecimal text that
    [toString()] returns, so that comparing two [toString()] results is
    comparing the identifiers. *)

Abbreviation ObjectId := string (only parsing).

Definition toString (o : ObjectId) : string := o.

(** Modelled from the spec: the [User] schema ([models/User.js] is not among
    the sources).  Email, optional password hash, display name, first and
    last name, role ([user] or [admin]), active flag, last login and the
    theme preference; [avatar] and [createdAt] are the further paths that
    the search route selects. *)
Record User : Type := mkUser {
  user_id : ObjectId;
  user_email : string;
  user_password : option string;
  user_name : string;
  user_firstName : option string;
  user_lastName : option string;
  user_avatar : option string;
  user_role : string;
  user_isActive : bool;
  user_lastLogin : option Z;
  user_theme : option string;
  user_createdAt : Z
}.

(** [models/Data.js]: [metadata] sub-document. *)
Record Metadata : Type := mkMetadata {
  meta_source : option string;
  meta_lastUpdated : option Z;
  meta_version : string
}.

(** [models/Data.js]: a stored [Data] document; [{timestamps: true}] adds
    [createdAt] and [updatedAt].  [isPublic] can hold [null]. *)
Record Data : Type := mkData {
  data_id : ObjectId;
  data_title : string;
  data_description : string;
  data_category : string;
  data_value : Q;
  data_unit : string;
  data_status : string;
  data_tags : list string;
  data_metadata : Metadata;
  data_user : ObjectId;
  data_isPublic : option bool;
  data_createdAt : Z;
  data_updatedAt : Z
}.

(** ** The store and the monad

    [faults] schedules the failures of the round trips to the database: each
    round trip takes the head of the list, and [Some e] makes it throw [e]
    (a lost connection, a server error).  An empty schedule is a healthy
    database. *)
Record World : Type := mkWorld {
  users : gmap string User;
  datas : gmap string Data;
  faults : list (option exn)
}.

Definition set_users (f : gmap string User → gmap string User) (w : World) : World :=
  mkWorld (f (users w)) (datas w) (faults w).

Definition set_datas (f : gmap string Data → gmap string Data) (w : World) : World :=
  mkWorld (users w) (f (datas w)) (faults w).

Definition set_faults (fs : list (option exn)) (w : World) : World :=
  mkWorld (users w) (datas w) fs.

(** A mutation made before an exception is thrown stays made: the world is
    threaded through both outcomes. *)
Definition M (A : Type) : Type := World → result A * World.

Definition ret {A} (a : A) : M A := fun w => (Val a, w).

Definition throw {A} (e : exn) : M A := fun w => (Throw e, w).

Definition bind {A B} (c : M A) (k : A → M B) : M B :=
  fun w => match c w with
           | (Val a, w') => k a w'
           | (Throw e, w') => (Throw e, w')
           end.

(** [try { c } catch (error) { h error }] *)
Definition try_catch {A} (c : M A) (h : exn → M A) : M A :=
  fun w => match c w with
           | (Val a, w') => (Val a, w')
           | (Throw e, w') => h e w'
           end.

Definition lift {A} (r : result A) : M A := fun w => (r, w).

Definition get_world : M World := fun w => (Val w, w).

Definition modify (f : World → World) : M unit := fun w => (Val tt, f w).

Declare Scope js_scope.
Delimit Scope js_scope with js.
Notation "'let*' x := c 'in' k" := (bind c (fun x => k))
  (at level 10, x name, c at level 100, k at level 200) : js_scope.
#[local] Open Scope js_scope.

(** One round trip to the database. *)
Definition roundtrip : M unit :=
  fun w => match faults w with
           | Some e :: fs => (Throw e, set_faults fs w)
           | None :: fs => (Val tt, set_faults fs w)
           | [] => (Val tt, w)
           end.

(** ** Collaborators

    The token codec, the identifier and schema casts of the object mapper,
    the regular-expression engine, the sort and the accumulators of the
    query engine and the clock are used through these interfaces; every
    theorem holds for all of them.
    [jwt_verify token] is [jwt.verify(token, process.env.JWT_SECRET)].
    [clock_after now] is what [new Date()] gives when the clock is read
    again after it has given [now].  [engine_sum] and [engine_avg] are
    [$sum] and [$avg] on the values of the documents of a group, in the
    arithmetic of the engine. *)
Class Runtime : Type := {
  jwt_verify : string → result jsval;
  castObjectId : jsval → option string;
  castBoolean : jsval → option (option bool);
  castString : jsval → option string;
  castErrorMessage : string → jsval → string → string;
  newRegExp : string → result (string → bool);
  sortData : string → bool → list Data → list Data;
  sortUsers : list User → list User;
  clock_after : Z → Z;
  engine_sum : list Q → Q;
  engine_avg : list Q → Q
}.

(** ** Requests and responses *)

Record Request : Type := mkRequest {
  req_authorization : option string;   (* req.headers['authorization'] *)
  req_params_id : string;              (* req.params.id *)
  req_query : gmap string string;      (* req.query *)
  req_body : jsval;                    (* req.body *)
  req_user : option User               (* req.user *)
}.

Definition set_user (u : User) (req : Request) : Request :=
  mkRequest (req_authorization req) (req_params_id req) (req_query req)
            (req_body req) (Some u).

(** [populate('user', 'name email')]: the owner reference replaced by the
    owner's [_id], [name] and [email], or by [null] when no such user
    exists. *)
Record UserRef : Type := mkUserRef {
  ref_id : ObjectId;
  ref_name : string;
  ref_email : string
}.

Record Populated : Type := mkPopulated {
  pop_data : Data;
  pop_user : option UserRef
}.

(** [select('name email firstName lastName avatar role isActive createdAt')] *)
Record UserSummary : Type := mkUserSummary {
  sum_id : ObjectId;
  sum_name : string;
  sum_email : string;
  sum_firstName : option string;
  sum_lastName : option string;
  sum_avatar : option string;
  sum_role : string;
  sum_isActive : bool;
  sum_createdAt : Z
}.

(** The pagination envelope as serialised: [NaN] and the infinities are
    written as [null] by [JSON.stringify], here [None]. *)
Record Pagination : Type := mkPagination {
  pg_page : option Z;
  pg_limit : option Z;
  pg_total : nat;
  pg_pages : option Z
}.

Inductive Payload : Type :=
| Error (error : string)
| ErrorDetails (error : string) (details : list string)
| Success (message : string)
| SuccessData (message : option string) (data : option Populated)
| SuccessList (data : list Populated) (pagination : Pagination)
| SuccessUsers (found : list UserSummary) (pagination : Pagination).

(** [res.status(n).json(p)]; [res.json(p)] has status 200. *)
Record Response : Type := mkResponse {
  status : nat;
  payload : Payload
}.

(** A middleware either answers or calls [next()] with the request, on
    which it may have set [req.user]. *)
Inductive Outcome : Type :=
| Responded (r : Response)
| Next (req : Request).

(** ** Store operations *)

(** [v.k]: reading a property of [undefined] or [null] throws. *)
Definition prop (v : jsval) (k : string) : M jsval :=
  if nullish v then throw TypeError else ret (field v k).

(** [v.trim()]: only strings have the method. *)
Definition js_trim (v : jsval) : M string :=
  match v with
  | JStr s => ret (trim s)
  | _ => throw TypeError
  end.

Section WithRuntime.
Context `{RT : Runtime}.

(** The [_id] of [findById(id)]: [undefined] and [null] find nothing, any
    other value is cast and a failed cast throws [CastError]. *)
Definition castId (id : jsval) : M (option string) :=
  if nullish id then ret None
  else match castObjectId id with
       | Some o => ret (Some o)
       | None => throw CastError
       end.

Definition User_findById (id : jsval) : M (option User) :=
  let* oid := castId id in
  let* _ := roundtrip in
  let* w := get_world in
  ret (match oid with Some o => users w !! o | None => None end).

Definition Data_findById (id : jsval) : M (option Data) :=
  let* oid := castId id in
  let* _ := roundtrip in
  let* w := get_world in
  ret (match oid with Some o => datas w !! o | None => None end).

(** ** [middleware/auth.js] *)

(** [authHeader && authHeader.split(' ')[1]]; [None] is [undefined]. *)
Definition header_token (req : Request) : option string :=
  match req_authorization req with
  | None => None
  | Some authHeader =>
      if String.eqb authHeader "" then Some ""
      else split " " authHeader !! 1%nat
  end.

(** [!token] is [negb (token_given token)]. *)
Definition token_given (token : option string) : bool :=
  match token with
  | Some t => negb (String.eqb t "")
  | None => false
  end.

Definition authenticateToken (req : Request) : M Outcome :=
  try_catch
    (let token := header_token req in
     if negb (token_given token) then
       ret (Responded (mkResponse 401 (Error "Access denied. No token provided.")))
     else
       let* decoded := lift (jwt_verify (default "" token)) in
       let* id := prop decoded "id" in
       let* user := User_findById id in
       match user with
       | None =>
           ret (Responded (mkResponse 401 (Error "Invalid token. User not found.")))
       | Some u =>
           if negb (user_isActive u) then
             ret (Responded (mkResponse 401 (Error "Account is deactivated.")))
           else ret (Next (set_user u req))
       end)
    (fun error =>
       if String.eqb (exn_name error) "JsonWebTokenError" then
         ret (Responded (mkResponse 401 (Error "Invalid token.")))
       else if String.eqb (exn_name error) "TokenExpiredError" then
         ret (Responded (mkResponse 401 (Error "Token expired.")))
       else
         ret (Responded (mkResponse 500
                (Error "Internal server error during authentication.")))).

Definition requireAdmin (req : Request) : Outcome :=
  match req_user req with
  | None => Responded (mkResponse 401 (Error "Authentication required."))
  | Some u =>
      if negb (String.eqb (user_role u) "admin") then
        Responded (mkResponse 403 (Error "Admin access required."))
      else Next req
  end.

(** [resourceUserId] is [None] when the factory was given [undefined] or
    [null]: [resourceUserId.toString()] then throws, and the middleware has
    no [try]. *)
Definition requireOwnership (resourceUserId : option string) (req : Request)
  : result Outcome :=
  match req_user req with
  | None => Val (Responded (mkResponse 401 (Error "Authentication required.")))
  | Some u =>
      match resourceUserId with
      | None => Throw TypeError
      | Some rid =>
          if (String.eqb (toString (user_id u)) (toString rid)
              || String.eqb (user_role u) "admin")%bool
          then Val (Next req)
          else Val (Responded (mkResponse 403
                 (Error "Access denied. You can only modify your own resources.")))
      end
  end.

Definition optionalAuth (req : Request) : M Outcome :=
  try_catch
    (let token := header_token req in
     if token_given token then
       let* decoded := lift (jwt_verify (default "" token)) in
       let* id := prop decoded "id" in
       let* user := User_findById id in
       match user with
       | Some u => if user_isActive u then ret (Next (set_user u req))
                   else ret (Next req)
       | None => ret (Next req)
       end
     else ret (Next req))
    (fun _ => ret (Next req)).

End WithRuntime.

(** ** [models/Data.js]: validators and hooks *)

Definition validCategories : list string :=
  ["analytics"; "reports"; "insights"; "metrics"; "other"].

Definition validStatuses : list string := ["active"; "inactive"; "pending"].

(** [l.includes(v)], giving the string when it holds. *)
Definition included (l : list string) (v : jsval) : option string :=
  match v with
  | JStr s => if existsb (String.eqb s) l then Some s else None
  | _ => None
  end.

(** [required] and [maxlength: 100] of [title] (the value is trimmed by the
    schema before); [maxlength] counts code units. *)
Definition validate_title (s : string) : list string :=
  if String.eqb s "" then ["Title is required"]
  else if (100 <? String.length s)%nat then ["Title cannot exceed 100 characters"]
  else [].

(** [maxlength: 500] of [description]. *)
Definition validate_description (s : string) : list string :=
  if (500 <? String.length s)%nat then ["Description cannot exceed 500 characters"]
  else [].

(** [enum] of [category] and of [status], [min: 0] of [value]. *)
Definition validate_category (s : string) : list string :=
  if existsb (String.eqb s) validCategories then []
  else ["`" ++ s ++ "` is not a valid enum value for path `category`."].

Definition validate_status (s : string) : list string :=
  if existsb (String.eqb s) validStatuses then []
  else ["`" ++ s ++ "` is not a valid enum value for path `status`."].

Definition validate_value (q : Q) : list string :=
  if num_negative q then ["Value cannot be negative"] else [].

(** [dataSchema.pre('save')]: [this.metadata.lastUpdated = new Date()]. *)
Definition pre_save (now : Z) (d : Data) : Data :=
  mkData (data_id d) (data_title d) (data_description d) (data_category d)
         (data_value d) (data_unit d) (data_status d) (data_tags d)
         (mkMetadata (meta_source (data_metadata d)) (Some now)
                     (meta_version (data_metadata d)))
         (data_user d) (data_isPublic d) (data_createdAt d) (data_updatedAt d).

Definition user_ref (u : User) : UserRef :=
  mkUserRef (user_id u) (user_name u) (user_email u).

(** [doc.populate('user', 'name email')]: one round trip. *)
Definition populate (d : Data) : M Populated :=
  let* _ := roundtrip in
  let* w := get_world in
  ret (mkPopulated d (user_ref <$> users w !! data_user d)).

(** [populate] on a query result: no query is sent for an empty result. *)
Definition populate_all (ds : list Data) : M (list Populated) :=
  match ds with
  | [] => ret []
  | _ =>
      let* _ := roundtrip in
      let* w := get_world in
      ret (map (fun d => mkPopulated d (user_ref <$> users w !! data_user d)) ds)
  end.

(** [req.user._id]: throws when no identity is attached. *)
Definition current_user (req : Request) : M User :=
  match req_user req with
  | Some u => ret u
  | None => throw TypeError
  end.

(** [const { ... } = req.body] *)
Definition destructure (body : jsval) : M unit :=
  if nullish body then throw TypeError else ret tt.

(** [tags.filter(tag => tag.trim())]: keeps the tags that are not blank;
    an element without [trim] throws. *)
Fixpoint filter_tags (tags : list jsval) : M (list string) :=
  match tags with
  | [] => ret []
  | JStr s :: rest =>
      let* kept := filter_tags rest in
      ret (if String.eqb (trim s) "" then kept else s :: kept)
  | _ :: _ => throw TypeError
  end.

Section DataRoutes.
Context `{RT : Runtime}.

(** [new Data({...})] followed by [save()]: the casts of [metadata.source]
    and of [isPublic], made in the order of the schema, and the validators
    of the schema report together as one [ValidationError]; then the time
    stamps, read from the clock at [now], and the [pre('save')] hook, which
    reads the clock again; then the insertion, which fails on a duplicate
    [_id]. *)
Definition Data_save (newId : string) (now : Z)
    (title description category : string) (value : Q) (unit_ : string)
    (tags : list string) (isPublic source : jsval) (owner : string) : M Data :=
  let cast_errors :=
    (match castString source with
     | None => [castErrorMessage "string" source "metadata.source"]
     | Some _ => []
     end ++
     match castBoolean isPublic with
     | None => [castErrorMessage "Boolean" isPublic "isPublic"]
     | Some _ => []
     end)%list in
  let errors :=
    (cast_errors ++ validate_title (trim title)
       ++ validate_description (trim description)
       ++ validate_category category ++ validate_value value)%list in
  match errors with
  | _ :: _ => throw (ValidationError errors)
  | [] =>
      let d :=
        pre_save (clock_after now)
          (mkData newId (trim title) (trim description) category value
             (trim unit_) "active" (map trim tags)
             (mkMetadata (castString source) None "1.0.0")
             owner (default None (castBoolean isPublic)) now now) in
      let* _ := roundtrip in
      let* w := get_world in
      match datas w !! newId with
      | Some _ => throw MongoServerError
      | None =>
          let* _ := modify (set_datas (insert newId d)) in
          ret d
      end
  end.

(** [POST /api/data] ([newId] is the [_id] that [new Data] generates, [now]
    the clock). *)
Definition post_data (newId : string) (now : Z) (req : Request) : M Response :=
  try_catch
    (let body := req_body req in
     let* _ := destructure body in
     let title := field body "title" in
     let description := field body "description" in
     let category := field body "category" in
     let value := field body "value" in
     let unit_ := field body "unit" in
     let tags := field body "tags" in
     let isPublic := field body "isPublic" in
     if (negb (truthy title) || negb (truthy category) || is_undefined value)%bool
     then ret (mkResponse 400 (Error "Title, category, and value are required"))
     else
       match included validCategories category with
       | None => ret (mkResponse 400 (Error "Invalid category"))
       | Some cat =>
           match as_number value with
           | None => ret (mkResponse 400 (Error "Value must be a positive number"))
           | Some v =>
               if num_negative v
               then ret (mkResponse 400 (Error "Value must be a positive number"))
               else
                 let* title' := js_trim title in
                 let* description' :=
                   (if truthy description then js_trim description else ret "") in
                 let* unit' := (if truthy unit_ then js_trim unit_ else ret "") in
                 let* tags' :=
                   match tags with
                   | JArr l => filter_tags l
                   | _ => ret []
                   end in
                 let isPublic' := if truthy isPublic then isPublic else JBool false in
                 let* u := current_user req in
                 let source := field (field body "metadata") "source" in
                 let source' := if truthy source then source else JStr "manual" in
                 let* newData :=
                   Data_save newId now title' description' cat v unit' tags'
                             isPublic' source' (user_id u) in
                 let* populated := populate newData in
                 ret (mkResponse 201
                        (SuccessData (Some "Data record created successfully")
                                     (Some populated)))
           end
       end)
    (fun error =>
       if String.eqb (exn_name error) "ValidationError" then
         ret (mkResponse 400 (ErrorDetails "Validation error" (exn_errors error)))
       else ret (mkResponse 500 (Error "Internal server error"))).

(** The number that an integer becomes as a double: the integer itself up
    to 53 bits, beyond that the nearest multiple of the power of two that
    leaves 53 bits, a tie going to the even one; [None], not a finite
    number, from [2^1024] on. *)
Definition to_double (n : Z) : option Z :=
  let a := Z.abs n in
  let e := Z.log2 a - 52 in
  if e <=? 0 then Some n
  else
    let q := Z.shiftr a e in
    let r := Z.land a (Z.ones e) in
    let half := Z.shiftl 1 (e - 1) in
    let q' := if ((half <? r) || ((r =? half) && Z.odd q))%bool then q + 1 else q in
    let m := Z.shiftl q' e in
    if 2 ^ 1024 <=? m then None else Some (Z.sgn n * m).

(** [parseInt]: leading white space, a sign, [0x] for radix 16, then the
    longest run of digits, as a double; [None] is a number that is not
    finite, [NaN] or an infinity, which is serialised as [null]. *)
Definition digit_of (radix : Z) (c : Ascii.ascii) : option Z :=
  let n := Z.of_nat (nat_of_ascii c) in
  let d := if ((48 <=? n) && (n <=? 57))%bool then Some (n - 48)
           else if ((97 <=? n) && (n <=? 122))%bool then Some (n - 87)
           else if ((65 <=? n) && (n <=? 90))%bool then Some (n - 55)
           else None in
  match d with
  | Some d => if d <? radix then Some d else None
  | None => None
  end.

Fixpoint digits (radix : Z) (s : string) (acc : option Z) : option Z :=
  match s with
  | String c s' =>
      match digit_of radix c with
      | Some d => digits radix s' (Some (default 0 acc * radix + d))
      | None => acc
      end
  | EmptyString => acc
  end.

Definition parseInt (s : string) : option Z :=
  let s1 := trim_start s in
  let '(neg, s2) :=
    match s1 with
    | String "-" r => (true, r)
    | String "+" r => (false, r)
    | _ => (false, s1)
    end in
  let '(radix, s3) :=
    match s2 with
    | String "0" (String "x" r) => (16, r)
    | String "0" (String "X" r) => (16, r)
    | _ => (10, s2)
    end in
  match digits radix s3 None with
  | Some n => to_double (if neg then - n else n)
  | None => None
  end.

(** [const { p = dflt } = req.query; parseInt(p)] *)
Definition int_param (q : gmap string string) (k : string) (dflt : Z) : option Z :=
  match q !! k with
  | Some s => parseInt s
  | None => Some dflt
  end.

(** [(parseInt(page) - 1) * parseInt(limit)], each operation rounding to a
    double. *)
Definition skip_of (page limit : option Z) : option Z :=
  match page, limit with
  | Some p, Some l =>
      match to_double (p - 1) with
      | Some p1 => to_double (p1 * l)
      | None => None
      end
  | _, _ => None
  end.

(** [Math.ceil(total / parseInt(limit))] as serialised: a division by zero
    or by [NaN] is not a finite number.  For a count below [2^53] the
    rounded quotient has the ceiling of the exact one: the two integers
    around the quotient are doubles, and the quotient is further from the
    lower one than half the distance between neighbouring doubles. *)
Definition pages_of (total : nat) (limit : option Z) : option Z :=
  match limit with
  | Some l => if l =? 0 then None else Some (- ((- Z.of_nat total) / l))
  | None => None
  end.

(** [.limit(l).skip(k)] of the query engine: a limit of [0] is no limit, a
    negative limit is its absolute value, a negative skip and a number that
    is not finite are refused. *)
Definition cursor {A} (limit skip : option Z) (docs : list A) : M (list A) :=
  match limit, skip with
  | Some l, Some k =>
      if k <? 0 then throw MongoServerError
      else
        let rest := drop (Z.to_nat k) docs in
        ret (if l =? 0 then rest else take (Z.to_nat (Z.abs l)) rest)
  | _, _ => throw MongoServerError
  end.

(** The filter of [GET /api/data]: [{user, category?, status?, $or?}]. *)
Definition data_matches (uid : string) (category status : option string)
    (search : option (string → bool)) (d : Data) : bool :=
  (String.eqb (data_user d) uid
   && match category with
      | Some c => String.eqb (data_category d) c
      | None => true
      end
   && match status with
      | Some s => String.eqb (data_status d) s
      | None => true
      end
   && match search with
      | Some re => re (data_title d) || re (data_description d)
                   || existsb re (data_tags d)
      | None => true
      end)%bool.

(** [if (p) ...] on a query parameter: absent and empty are falsy. *)
Definition given (p : option string) : option string :=
  match p with
  | Some s => if String.eqb s "" then None else Some s
  | None => None
  end.

(** [GET /api/data] *)
Definition get_data (req : Request) : M Response :=
  try_catch
    (let q := req_query req in
     let page := int_param q "page" 1 in
     let limit := int_param q "limit" 10 in
     let sortBy := default "createdAt" (q !! "sortBy") in
     let sortOrder := default "desc" (q !! "sortOrder") in
     let* u := current_user req in
     let* search :=
       match given (q !! "search") with
       | Some s => let* re := lift (newRegExp (trim s)) in ret (Some re)
       | None => ret None
       end in
     let filter := data_matches (user_id u) (given (q !! "category"))
                                (given (q !! "status")) search in
     let* _ := roundtrip in
     let* w := get_world in
     let sorted :=
       sortData sortBy (String.eqb sortOrder "desc")
                (List.filter filter (map snd (map_to_list (datas w)))) in
     let* found := cursor limit (skip_of page limit) sorted in
     let* data := populate_all found in
     let* _ := roundtrip in
     let* w' := get_world in
     let total := List.length (List.filter filter (map snd (map_to_list (datas w')))) in
     ret (mkResponse 200
            (SuccessList data (mkPagination page limit total (pages_of total limit)))))
    (fun _ => ret (mkResponse 500 (Error "Internal server error"))).

(** [GET /api/data/:id] *)
Definition get_data_by_id (req : Request) : M Response :=
  try_catch
    (let* found := Data_findById (JStr (req_params_id req)) in
     match found with
     | None => ret (mkResponse 404 (Error "Data record not found"))
     | Some d =>
         let* data := populate d in
         match pop_user data with
         | None => throw TypeError
         | Some owner =>
             let* u := current_user req in
             if negb (String.eqb (toString (ref_id owner)) (toString (user_id u)))
             then ret (mkResponse 403 (Error "Access denied"))
             else ret (mkResponse 200 (SuccessData None (Some data)))
         end
     end)
    (fun error =>
       if String.eqb (exn_name error) "CastError" then
         ret (mkResponse 400 (Error "Invalid data ID"))
       else ret (mkResponse 500 (Error "Internal server error"))).

(** The [updateFields] object of [PUT /api/data/:id]: a key is present
    exactly when the body defines it. *)
Record UpdateFields : Type := mkUpdateFields {
  upd_title : option string;
  upd_description : option string;
  upd_category : option string;
  upd_value : option Q;
  upd_unit : option string;
  upd_tags : option (list string);
  upd_status : option string;
  upd_isPublic : option jsval
}.

(** [{ $set: updateFields }] on a stored document; the schema trims the
    strings, and [{timestamps: true}] refreshes [updatedAt]. *)
Definition apply_set (upd : UpdateFields) (isPublic : option (option bool))
    (now : Z) (d : Data) : Data :=
  mkData (data_id d)
         (default (data_title d) (trim <$> upd_title upd))
         (default (data_description d) (trim <$> upd_description upd))
         (default (data_category d) (upd_category upd))
         (default (data_value d) (upd_value upd))
         (default (data_unit d) (trim <$> upd_unit upd))
         (default (data_status d) (upd_status upd))
         (default (data_tags d) (map trim <$> upd_tags upd))
         (data_metadata d)
         (data_user d)
         (default (data_isPublic d) isPublic)
         (data_createdAt d)
         now.

(** The validators that [runValidators: true] runs on the paths of [$set]. *)
Definition update_errors (upd : UpdateFields) : list string :=
  (from_option (fun s => validate_title (trim s)) [] (upd_title upd)
   ++ from_option (fun s => validate_description (trim s)) [] (upd_description upd)
   ++ from_option validate_category [] (upd_category upd)
   ++ from_option validate_value [] (upd_value upd)
   ++ from_option validate_status [] (upd_status upd))%list.

(** [Data.findByIdAndUpdate(id, { $set: upd }, { new: true, runValidators:
    true })]: a failed cast of the update throws [CastError], a failed
    validator [ValidationError]; the updated document is returned. *)
Definition Data_findByIdAndUpdate (id : jsval) (upd : UpdateFields) (now : Z)
  : M (option Data) :=
  let* oid := castId id in
  let* isPublic :=
    match upd_isPublic upd with
    | None => ret None
    | Some v =>
        match castBoolean v with
        | Some b => ret (Some b)
        | None => throw CastError
        end
    end in
  match update_errors upd with
  | _ :: _ => throw (ValidationError (update_errors upd))
  | [] =>
      let* _ := roundtrip in
      let* w := get_world in
      match oid with
      | None => ret None
      | Some o =>
          match datas w !! o with
          | None => ret None
          | Some d =>
              let d' := apply_set upd isPublic now d in
              let* _ := modify (set_datas (insert o d')) in
              ret (Some d')
          end
      end
  end.

Definition Data_findByIdAndDelete (id : jsval) : M unit :=
  let* oid := castId id in
  let* _ := roundtrip in
  match oid with
  | None => ret tt
  | Some o => modify (set_datas (delete o))
  end.

(** [if (x !== undefined) updateFields.x = x.trim()] *)
Definition trimmed_if_defined (v : jsval) : M (option string) :=
  if is_undefined v then ret None
  else let* s := js_trim v in ret (Some s).

(** [if (x !== undefined) { if (!valid.includes(x)) return 400; ... }]:
    the outer [None] is the early return. *)
Definition enum_if_defined (valid : list string) (v : jsval)
  : option (option string) :=
  if is_undefined v then Some None
  else match included valid v with
       | Some s => Some (Some s)
       | None => None
       end.

(** The same for [value]: [typeof value !== 'number' || value < 0]. *)
Definition value_if_defined (v : jsval) : option (option Q) :=
  if is_undefined v then Some None
  else match as_number v with
       | Some q => if num_negative q then None else Some (Some q)
       | None => None
       end.

(** [if (tags !== undefined) updateFields.tags =
       Array.isArray(tags) ? tags.filter(tag => tag.trim()) : []] *)
Definition tags_if_defined (v : jsval) : M (option (list string)) :=
  match v with
  | JUndefined => ret None
  | JArr l => let* kept := filter_tags l in ret (Some kept)
  | _ => ret (Some [])
  end.

(** [// Build update object] of [PUT /api/data/:id]: the fields are taken in
    the order of the source; [inl] is an early [return res.status(400)]. *)
Definition build_updateFields (body : jsval) : M (Response + UpdateFields) :=
  let* title := trimmed_if_defined (field body "title") in
  let* description := trimmed_if_defined (field body "description") in
  match enum_if_defined validCategories (field body "category") with
  | None => ret (inl (mkResponse 400 (Error "Invalid category")))
  | Some category =>
      match value_if_defined (field body "value") with
      | None => ret (inl (mkResponse 400 (Error "Value must be a positive number")))
      | Some value =>
          let* unit_ := trimmed_if_defined (field body "unit") in
          let* tags := tags_if_defined (field body "tags") in
          match enum_if_defined validStatuses (field body "status") with
          | None => ret (inl (mkResponse 400 (Error "Invalid status")))
          | Some status =>
              let isPublic :=
                if is_undefined (field body "isPublic") then None
                else Some (field body "isPublic") in
              ret (inr (mkUpdateFields title description category value unit_
                                       tags status isPublic))
          end
      end
  end.

(** [PUT /api/data/:id] *)
Definition put_data_by_id (now : Z) (req : Request) : M Response :=
  try_catch
    (let body := req_body req in
     let* _ := destructure body in
     let* found := Data_findById (JStr (req_params_id req)) in
     match found with
     | None => ret (mkResponse 404 (Error "Data record not found"))
     | Some data =>
         let* u := current_user req in
         if negb (String.eqb (toString (data_user data)) (toString (user_id u)))
         then ret (mkResponse 403 (Error "Access denied"))
         else
           let* built := build_updateFields body in
           match built with
           | inl early => ret early
           | inr updateFields =>
               let* updated :=
                 Data_findByIdAndUpdate (JStr (req_params_id req))
                                        updateFields now in
               let* updatedData :=
                 match updated with
                 | Some d => let* p := populate d in ret (Some p)
                 | None => ret None
                 end in
               ret (mkResponse 200
                      (SuccessData (Some "Data record updated successfully")
                                   updatedData))
           end
     end)
    (fun error =>
       if String.eqb (exn_name error) "ValidationError" then
         ret (mkResponse 400 (ErrorDetails "Validation error" (exn_errors error)))
       else if String.eqb (exn_name error) "CastError" then
         ret (mkResponse 400 (Error "Invalid data ID"))
       else ret (mkResponse 500 (Error "Internal server error"))).

(** [DELETE /api/data/:id] *)
Definition delete_data_by_id (req : Request) : M Response :=
  try_catch
    (let* found := Data_findById (JStr (req_params_id req)) in
     match found with
     | None => ret (mkResponse 404 (Error "Data record not found"))
     | Some data =>
         let* u := current_user req in
         if negb (String.eqb (toString (data_user data)) (toString (user_id u)))
         then ret (mkResponse 403 (Error "Access denied"))
         else
           let* _ := Data_findByIdAndDelete (JStr (req_params_id req)) in
           ret (mkResponse 200 (Success "Data record deleted successfully"))
     end)
    (fun error =>
       if String.eqb (exn_name error) "CastError" then
         ret (mkResponse 400 (Error "Invalid data ID"))
       else ret (mkResponse 500 (Error "Internal server error"))).

End DataRoutes.

(** ** The user router *)

Section UserRoutes.
Context `{RT : Runtime}.

(** [Data.deleteMany({ user: uid })] *)
Definition Data_deleteMany (uid : string) : M unit :=
  let* _ := roundtrip in
  modify (set_datas (filter (fun kv => data_user kv.2 ≠ uid))).

(** [User.findByIdAndDelete(uid)] *)
Definition User_findByIdAndDelete (uid : string) : M unit :=
  let* _ := roundtrip in
  modify (set_users (delete uid)).

(** [DELETE /api/user/account]: [password] is read from the body and not
    used. *)
Definition delete_user_account (req : Request) : M Response :=
  try_catch
    (let body := req_body req in
     let* _ := destructure body in
     let password := field body "password" in
     let* u := current_user req in
     let* _ := Data_deleteMany (user_id u) in
     let* _ := User_findByIdAndDelete (user_id u) in
     ret (mkResponse 200 (Success "Account deleted successfully")))
    (fun _ => ret (mkResponse 500 (Error "Internal server error"))).

(** The [$or] of [GET /api/user/search] over [name], [email], [firstName]
    and [lastName]. *)
Definition user_matches (re : string → bool) (u : User) : bool :=
  (re (user_name u) || re (user_email u)
   || from_option re false (user_firstName u)
   || from_option re false (user_lastName u))%bool.

Definition summary (u : User) : UserSummary :=
  mkUserSummary (user_id u) (user_name u) (user_email u) (user_firstName u)
                (user_lastName u) (user_avatar u) (user_role u)
                (user_isActive u) (user_createdAt u).

(** [GET /api/user/search] *)
Definition get_user_search (req : Request) : M Response :=
  try_catch
    (let q := req_query req in
     let limit := int_param q "limit" 10 in
     let page := int_param q "page" 1 in
     match given (q !! "query") with
     | None =>
         ret (mkResponse 400
                (Error "Search query must be at least 2 characters long"))
     | Some query =>
         if (String.length (trim query) <? 2)%nat then
           ret (mkResponse 400
                  (Error "Search query must be at least 2 characters long"))
         else
           let* searchRegex := lift (newRegExp (trim query)) in
           let* _ := roundtrip in
           let* w := get_world in
           let sorted :=
             sortUsers (List.filter (user_matches searchRegex)
                                    (map snd (map_to_list (users w)))) in
           let* found := cursor limit (skip_of page limit) sorted in
           let* _ := roundtrip in
           let* w' := get_world in
           let total :=
             List.length (List.filter (user_matches searchRegex)
                                      (map snd (map_to_list (users w')))) in
           ret (mkResponse 200
                  (SuccessUsers (map summary found)
                     (mkPagination page limit total (pages_of total limit))))
     end)
    (fun _ => ret (mkResponse 500 (Error "Internal server error"))).

(** The [updateFields] object of [PUT /api/user/profile]. *)
Definition profile_updateFields (body : jsval) : list (string * jsval) :=
  ((if is_undefined (field body "firstName") then []
    else [("firstName", field body "firstName")])
   ++ (if is_undefined (field body "lastName") then []
       else [("lastName", field body "lastName")])
   ++ (if is_undefined (field body "preferences") then []
       else [("preferences", field body "preferences")]))%list.

(** ** Routes: [authenticateToken] in front of every handler *)

Inductive ApiCall : Type :=
| PostData (newId : string)
| GetData
| GetDataById
| PutDataById
| DeleteDataById
| DeleteUserAccount
| GetUserSearch.

Definition handler (now : Z) (c : ApiCall) (req : Request) : M Response :=
  match c with
  | PostData newId => post_data newId now req
  | GetData => get_data req
  | GetDataById => get_data_by_id req
  | PutDataById => put_data_by_id now req
  | DeleteDataById => delete_data_by_id req
  | DeleteUserAccount => delete_user_account req
  | GetUserSearch => get_user_search req
  end.

(** [router.verb(path, authenticateToken, handler)] *)
Definition route (now : Z) (c : ApiCall) (req : Request) : M Response :=
  let* o := authenticateToken req in
  match o with
  | Responded r => ret r
  | Next req' => handler now c req'
  end.

End UserRoutes.

(** ** Vocabulary of the statements *)

Definition lower (c : Ascii.ascii) : Ascii.ascii :=
  let n := nat_of_ascii c in
  if (Nat.leb 65 n && Nat.leb n 90)%bool then ascii_of_nat (n + 32) else c.

Fixpoint lowercase (s : string) : string :=
  match s with
  | String c s' => String (lower c) (lowercase s')
  | EmptyString => EmptyString
  end.

Fixpoint occurs (p s : string) : bool :=
  (String.prefix p s
   || match s with
      | String _ s' => occurs p s'
      | EmptyString => false
      end)%bool.

(** The message carries the phrase, letter case apart. *)
Definition mentions (phrase msg : string) : bool :=
  occurs (lowercase phrase) (lowercase msg).

Section Vocabulary.
Context `{RT : Runtime}.

(** [User.findById(decoded.id)], the load of the referenced user that both
    authentication middlewares perform on a verified token. *)
Definition decoded_user (decoded : jsval) : M (option User) :=
  let* id := prop decoded "id" in
  User_findById id.

End Vocabulary.

(** The error answer of a given status and message. *)
Definition rejected (code : nat) (msg : string) : Response :=
  mkResponse code (Error msg).

(** Every document is stored under its own [_id]. *)
Definition keyed (w : World) : Prop :=
  (∀ k u, users w !! k = Some u → user_id u = k)
  ∧ (∀ k d, datas w !! k = Some d → data_id d = k).

(** Two requests that are the same but for the [password] of their parsed
    bodies (present with any value, or absent). *)
Definition differ_only_in_password (r1 r2 : Request) : Prop :=
  req_authorization r1 = req_authorization r2
  ∧ req_params_id r1 = req_params_id r2
  ∧ req_query r1 = req_query r2
  ∧ req_user r1 = req_user r2
  ∧ ∃ kv1 kv2, req_body r1 = JObj kv1 ∧ req_body r2 = JObj kv2
               ∧ ∀ k, k ≠ "password" → assoc k kv1 = assoc k kv2.

(** A computation keeps a relation between the world before and after,
    whatever it returns or throws. *)
Definition preserves (P : World → World → Prop) {A} (c : M A) : Prop :=
  ∀ w r w', c w = (r, w') → P w w'.

(** Both collections are as before (only the fault schedule may have been
    consumed). *)
Definition same_stores (w w' : World) : Prop :=
  users w' = users w ∧ datas w' = datas w.

(** No record has appeared and no record has changed owner. *)
Definition owners_kept (w w' : World) : Prop :=
  ∀ k d', datas w' !! k = Some d' →
          ∃ d, datas w !! k = Some d ∧ data_user d' = data_user d.

(** The collection has grown by at most one record, stored under [newId]
    and owned by [uid]; every other record is as before. *)
Definition grows (newId uid : string) (w w' : World) : Prop :=
  users w' = users w
  ∧ (∀ k d, datas w !! k = Some d → datas w' !! k = Some d)
  ∧ (∀ k d', datas w' !! k = Some d' →
             datas w !! k = Some d' ∨ (k = newId ∧ data_user d' = uid)).

(** A relation that the plumbing of the monad keeps: reflexive, transitive
    and blind to the fault schedule. *)
Definition frame (P : World → World → Prop) : Prop :=
  (∀ w, P w w)
  ∧ (∀ a b c, P a b → P b c → P a c)
  ∧ (∀ w fs, P w (set_faults fs w)).

(** The records of the collection that [uid] owns. *)
Definition owned_by (uid : string) (w : World) : gmap string Data :=
  filter (fun kv => data_user kv.2 = uid) (datas w).

(** ** A runtime for the examples

    A toy token codec ([id:<hex>] verifies to the payload [{id: <hex>}],
    [expired] is an expired token, anything else has a bad signature),
    24-digit hexadecimal identifiers, the boolean cast of the object mapper,
    literal patterns matched as substrings without case, a query engine
    that leaves the order alone and adds up in exact arithmetic, and a clock
    that has moved on by one when it is read again. *)
Module Demo.

Definition is_hex (c : Ascii.ascii) : bool :=
  match digit_of 16 c with Some _ => true | None => false end.

Definition verify (token : string) : result jsval :=
  if String.prefix "id:" token then
    Val (JObj [("id", JStr (String.substring 3 (String.length token - 3) token))])
  else if String.eqb token "expired" then Throw (Exn "TokenExpiredError" [])
  else Throw (Exn "JsonWebTokenError" []).

Definition objectId (v : jsval) : option string :=
  match v with
  | JStr s =>
      if (Nat.eqb (String.length s) 24
          && forallb is_hex (list_ascii_of_string s))%bool
      then Some (lowercase s) else None
  | _ => None
  end.

Definition boolean (v : jsval) : option (option bool) :=
  match v with
  | JUndefined | JNull => Some None
  | JBool b => Some (Some b)
  | JNum q => if Qeq_bool q 1 then Some (Some true)
              else if Qeq_bool q 0 then Some (Some false) else None
  | JStr s =>
      if existsb (String.eqb s) ["true"; "1"; "yes"] then Some (Some true)
      else if existsb (String.eqb s) ["false"; "0"; "no"] then Some (Some false)
      else None
  | _ => None
  end.

Definition text (v : jsval) : option string :=
  match v with
  | JStr s => Some s
  | JBool true => Some "true"
  | JBool false => Some "false"
  | _ => None
  end.

Definition runtime : Runtime := {|
  jwt_verify := verify;
  castObjectId := objectId;
  castBoolean := boolean;
  castString := text;
  castErrorMessage := fun kind _ path =>
    "Cast to " ++ kind ++ " failed at path " ++ path;
  newRegExp := fun pattern => Val (mentions pattern);
  sortData := fun _ _ l => l;
  sortUsers := fun l => l;
  clock_after := fun now => now + 1;
  engine_sum := fun l => foldr Qplus 0%Q l;
  engine_avg := fun l => (foldr Qplus 0%Q l / inject_Z (Z.of_nat (List.length l)))%Q
|}.

Definition alice_id : string := "64b7f0a1c2d3e4f5a6b7c8d9".
Definition bob_id : string := "64b7f0a1c2d3e4f5a6b7c8da".
Definition root_id : string := "64b7f0a1c2d3e4f5a6b7c8db".
Definition rec1_id : string := "74b7f0a1c2d3e4f5a6b7c801".
Definition rec2_id : string := "74b7f0a1c2d3e4f5a6b7c802".

Definition account (id email name role : string) (active : bool) : User :=
  mkUser id email None name None None None role active None None 0.

Definition alice : User := account alice_id "alice@example.org" "Alice" "user" true.
Definition bob : User := account bob_id "bob@example.org" "Bob" "user" true.
Definition root : User := account root_id "root@example.org" "Root" "admin" true.
Definition carol_off : User :=
  account "64b7f0a1c2d3e4f5a6b7c8dc" "carol@example.org" "Carol" "user" false.

Definition record (id owner title : string) : Data :=
  mkData id title "" "metrics" (42 # 1) "%" "active" ["cpu"]
         (mkMetadata (Some "manual") (Some 5) "1.0.0") owner (Some false) 5 5.

Definition world : World :=
  mkWorld (<[alice_id := alice]> (<[bob_id := bob]> (<[root_id := root]>
             (<["64b7f0a1c2d3e4f5a6b7c8dc" := carol_off]> ∅))))
          (<[rec1_id := record rec1_id alice_id "CPU"]>
             (<[rec2_id := record rec2_id bob_id "Disk"]> ∅))
          [].

Definition request (auth : option string) (id : string)
    (q : list (string * string)) (body : jsval) (u : option User) : Request :=
  mkRequest auth id (list_to_map q) body u.

Definition rec3_id : string := "74b7f0a1c2d3e4f5a6b7c803".

(** [root], an administrator, on the record of [bob]: with the identity
    already attached, and with the token as it arrives. *)
Definition root_on_bob : Request :=
  request None rec2_id [] (JObj [("status", JStr "inactive")]) (Some root).

Definition root_on_bob_token : Request :=
  request (Some "Bearer id:64b7f0a1c2d3e4f5a6b7c8db") rec2_id []
          (JObj [("status", JStr "inactive")]) None.

(** [alice] on her own record, setting only [status]. *)
Definition alice_sets_status : Request :=
  request None rec1_id [] (JObj [("status", JStr "inactive")]) (Some alice).

Definition alice_creates : Request :=
  request None "" []
          (JObj [("title", JStr "CPU"); ("category", JStr "metrics");
                 ("value", JNum (42 # 1)); ("unit", JStr "%")])
          (Some alice).

Definition alice_creates_bogus : Request :=
  request None "" []
          (JObj [("title", JStr "CPU"); ("category", JStr "bogus");
                 ("value", JNum (- 1 # 1))])
          (Some alice).

Definition alice_lists (limit : string) : Request :=
  request None "" [("limit", limit)] JUndefined (Some alice).

Definition alice_lists_token (limit : string) : Request :=
  request (Some "Bearer id:64b7f0a1c2d3e4f5a6b7c8d9") "" [("limit", limit)]
          JUndefined None.

Definition alice_sends (body : jsval) : Request :=
  request (Some "Bearer id:64b7f0a1c2d3e4f5a6b7c8d9") "" [] body (Some alice).

Definition carol_token : Request :=
  request (Some "Bearer id:64b7f0a1c2d3e4f5a6b7c8dc") "" [] JUndefined None.

Definition anonymous : Request := request None "" [] JUndefined None.

End Demo.

(** ** Vocabulary of the further properties *)

(** The string holds a space: then [split(' ')] cuts it. *)
Fixpoint has_space (s : string) : bool :=
  match s with
  | String c s' => (Ascii.eqb c " " || has_space s')%bool
  | EmptyString => false
  end.

(** The validators of [models/Data.js] accept the stored document. *)
Definition valid_data (d : Data) : Prop :=
  validate_title (data_title d) = []
  ∧ validate_description (data_description d) = []
  ∧ validate_category (data_category d) = []
  ∧ validate_value (data_value d) = []
  ∧ validate_status (data_status d) = [].

Definition all_valid (w : World) : Prop :=
  ∀ k d, datas w !! k = Some d → valid_data d.

(** Validity of the collection is not lost. *)
Definition validity_kept (w w' : World) : Prop := all_valid w → all_valid w'.

(** The same request on another [:id]. *)
Definition with_params_id (id : string) (req : Request) : Request :=
  mkRequest (req_authorization req) id (req_query req) (req_body req)
            (req_user req).

(** The request as it arrives with this [Authorization] header. *)
Definition with_authorization (h : string) (req : Request) : Request :=
  mkRequest (Some h) (req_params_id req) (req_query req) (req_body req)
            (req_user req).

(** A field of the body that is given and is not one of the strings of
    the list; a [value] that is given and is not a number, or is a negative
    one. *)
Definition bad_enum (valid : list string) (v : jsval) : Prop :=
  v ≠ JUndefined ∧ ∀ s, v = JStr s → s ∉ valid.

Definition bad_value (v : jsval) : Prop :=
  v ≠ JUndefined ∧ ∀ q, v = JNum q → (q < 0)%Q.

(** A field of the body that is absent or a string. *)
Definition absent_or_string (v : jsval) : Prop :=
  v = JUndefined ∨ ∃ s, v = JStr s.




(** The world once a round trip has gone through. *)
Definition after_roundtrip (w : World) : World :=
  match faults w with
  | [] => w
  | _ :: fs => set_faults fs w
  end.


(** ** Aggregations and further queries *)

(** A group of
    [{ $group: { _id: '$category', count: { $sum: 1 }, totalValue: { $sum: '$value' } } }]
    as it is answered. *)
Record CategoryStat : Type := mkCategoryStat {
  cs_id : string;
  cs_count : nat;
  cs_totalValue : Q
}.

(** The group of [{ $group: { _id: null, ... } }]; the default that the
    route puts in its place has no [_id]. *)
Record Summary : Type := mkSummary {
  sm_id_null : bool;
  sm_totalRecords : nat;
  sm_totalValue : Q;
  sm_avgValue : Q;
  sm_categories : list string;
  sm_statuses : list string
}.

(** A group while the documents go through: its key, the count of
    [{ $sum: 1 }] and the values that [{ $sum: '$value' }] is given, in the
    order of their arrival. *)
Record Group : Type := mkGroup {
  g_id : string;
  g_count : nat;
  g_values : list Q
}.

(** A document joins the group of its category, or opens it. *)
Fixpoint group_add (d : Data) (gs : list Group) : list Group :=
  match gs with
  | [] => [mkGroup (data_category d) 1 [data_value d]]
  | g :: gs' =>
      if String.eqb (g_id g) (data_category d)
      then mkGroup (g_id g) (S (g_count g)) (g_values g ++ [data_value d])%list :: gs'
      else g :: group_add d gs'
  end.

Definition groups_of (ds : list Data) : list Group :=
  foldl (fun gs d => group_add d gs) [] ds.

(** [{ $sort: { count: -1 } }]; the order among equal counts is the
    engine's. *)
Definition count_desc (a b : CategoryStat) : Prop := (cs_count b ≤ cs_count a)%nat.

#[global] Instance count_desc_dec (a b : CategoryStat) : Decision (count_desc a b).
Proof. unfold count_desc. apply _. Defined.

Definition sort_by_count (gs : list CategoryStat) : list CategoryStat :=
  sorting.merge_sort count_desc gs.

(** [$addToSet] *)
Definition addToSet (l : list string) (x : string) : list string :=
  if existsb (String.eqb x) l then l else (l ++ [x])%list.

(** The documents that [{ user: uid }] selects. *)
Definition records_of (uid : string) (w : World) : list Data :=
  List.filter (fun d => String.eqb (data_user d) uid)
              (map snd (map_to_list (datas w))).

(** [Data.aggregate([{ $match: { user: uid } }, ...])]: the documents that
    reach the later stages. *)
Definition Data_match_user (uid : string) : M (list Data) :=
  let* _ := roundtrip in
  let* w := get_world in
  ret (records_of uid w).

(** [Data.countDocuments(filter)] *)
Definition Data_countDocuments (filter : Data → bool) : M nat :=
  let* _ := roundtrip in
  let* w := get_world in
  ret (List.length (List.filter filter (map snd (map_to_list (datas w))))).

Inductive StatsPayload : Type :=
| StatsError (error : string)
| SummaryOk (summary : Summary) (categoryBreakdown : list CategoryStat)
| UserStatsOk (totalData activeData : nat) (byCategory : list CategoryStat)
              (lastLogin : option Z).

Record StatsResponse : Type := mkStatsResponse {
  stats_status : nat;
  stats_payload : StatsPayload
}.

Section Statistics.
Context `{RT : Runtime}.

(** The group as answered: its sum is the engine's. *)
Definition group_stat (g : Group) : CategoryStat :=
  mkCategoryStat (g_id g) (g_count g) (engine_sum (g_values g)).

Definition group_by_category (ds : list Data) : list CategoryStat :=
  map group_stat (groups_of ds).

(** [{ $group: { _id: null, ... } }]: no document, no group. *)
Definition group_all (ds : list Data) : list Summary :=
  match ds with
  | [] => []
  | _ :: _ =>
      [mkSummary true (List.length ds)
                 (engine_sum (map data_value ds))
                 (engine_avg (map data_value ds))
                 (foldl addToSet [] (map data_category ds))
                 (foldl addToSet [] (map data_status ds))]
  end.

(** [GET /api/data/stats/summary] *)
Definition get_stats_summary (req : Request) : M StatsResponse :=
  try_catch
    (let* u := current_user req in
     let* matched := Data_match_user (user_id u) in
     let stats := group_all matched in
     let* matched' := Data_match_user (user_id u) in
     let categoryStats := sort_by_count (group_by_category matched') in
     let summary := default (mkSummary false 0 0 0 [] []) (head stats) in
     ret (mkStatsResponse 200 (SummaryOk summary categoryStats)))
    (fun _ => ret (mkStatsResponse 500 (StatsError "Internal server error"))).

(** [GET /api/user/stats]: [lastLogin] is the one of [req.user]. *)
Definition get_user_stats (req : Request) : M StatsResponse :=
  try_catch
    (let* u := current_user req in
     let* matched := Data_match_user (user_id u) in
     let stats := sort_by_count (group_by_category matched) in
     let* totalData :=
       Data_countDocuments (fun d => String.eqb (data_user d) (user_id u)) in
     let* activeData :=
       Data_countDocuments
         (fun d => (String.eqb (data_user d) (user_id u)
                    && String.eqb (data_status d) "active")%bool) in
     ret (mkStatsResponse 200
            (UserStatsOk totalData activeData stats (user_lastLogin u))))
    (fun _ => ret (mkStatsResponse 500 (StatsError "Internal server error"))).

End Statistics.

(** [models/Data.js], [statics.findByCategory]:
    [this.find({ category, status: 'active' })]. *)
Definition findByCategory (category : string) : M (list Data) :=
  let* _ := roundtrip in
  let* w := get_world in
  ret (List.filter
         (fun d => (String.eqb (data_category d) category
                    && String.eqb (data_status d) "active")%bool)
         (map snd (map_to_list (datas w)))).

(** [statics.findByUser]:
    [this.find({ user: userId }).populate('user', 'name email')]. *)
Definition findByUser (userId : string) : M (list Populated) :=
  let* _ := roundtrip in
  let* w := get_world in
  populate_all (List.filter (fun d => String.eqb (data_user d) userId)
                            (map snd (map_to_list (datas w)))).

(** The documents of a list that are in a category. *)
Definition in_category (c : string) (ds : list Data) : list Data :=
  List.filter (fun d => String.eqb (data_category d) c) ds.

(** A collection for the statistics: three records of [Demo.alice] in two
    categories, one of them inactive, and a record of [Demo.bob]. *)
Definition stats_record (id owner category : string) (value : Q)
    (status : string) : Data :=
  mkData id "Load" "" category value "" status []
         (mkMetadata (Some "manual") (Some 5) "1.0.0") owner (Some false) 5 5.

Definition stats_world : World :=
  mkWorld (users Demo.world)
          (<["74b7f0a1c2d3e4f5a6b7c811"
               := stats_record "74b7f0a1c2d3e4f5a6b7c811" Demo.alice_id "metrics"
                               (10 # 1) "active"]>
             (<["74b7f0a1c2d3e4f5a6b7c812"
                  := stats_record "74b7f0a1c2d3e4f5a6b7c812" Demo.alice_id "reports"
                                  (5 # 2) "active"]>
                (<["74b7f0a1c2d3e4f5a6b7c813"
                     := stats_record "74b7f0a1c2d3e4f5a6b7c813" Demo.alice_id
                                     "metrics" (7 # 1) "inactive"]>
                   (<["74b7f0a1c2d3e4f5a6b7c814"
                        := stats_record "74b7f0a1c2d3e4f5a6b7c814" Demo.bob_id
                                        "metrics" (100 # 1) "active"]> ∅))))
          [].

(** ** The methods of [models/Data.js] *)

Definition with_status (s : string) (d : Data) : Data :=
  mkData (data_id d) (data_title d) (data_description d) (data_category d)
         (data_value d) (data_unit d) s (data_tags d) (data_metadata d)
         (data_user d) (data_isPublic d) (data_createdAt d) (data_updatedAt d).

Definition with_tags (tags : list string) (d : Data) : Data :=
  mkData (data_id d) (data_title d) (data_description d) (data_category d)
         (data_value d) (data_unit d) (data_status d) tags (data_metadata d)
         (data_user d) (data_isPublic d) (data_createdAt d) (data_updatedAt d).

Section Methods.

(** [this.save()] of the object mapper. *)
Variable save : Data → M Data.

(** [methods.toggleStatus] *)
Definition toggleStatus (d : Data) : M Data :=
  save (with_status
          (if String.eqb (data_status d) "active" then "inactive" else "active") d).

(** [methods.addTag]: the pushed element goes through the [trim] of the
    schema. *)
Definition addTag (tag : string) (d : Data) : M Data :=
  save (if negb (existsb (String.eqb tag) (data_tags d))
        then with_tags (data_tags d ++ [trim tag]) d
        else d).

(** [methods.removeTag] *)
Definition removeTag (tag : string) (d : Data) : M Data :=
  save (with_tags
          (List.filter (fun t => negb (String.eqb t tag)) (data_tags d)) d).

End Methods.

(** What the methods rely on: the document that [save] gives back has the
    status and the tags of the one it was given. *)
Definition save_keeps (save : Data → M Data) : Prop :=
  ∀ d w d' w', save d w = (Val d', w') →
    data_status d' = data_status d ∧ data_tags d' = data_tags d.

Definition with_updatedAt (now : Z) (d : Data) : Data :=
  mkData (data_id d) (data_title d) (data_description d) (data_category d)
         (data_value d) (data_unit d) (data_status d) (data_tags d)
         (data_metadata d) (data_user d) (data_isPublic d) (data_createdAt d) now.

(** A [save] that writes the document as a whole, with the time stamp
    [updatedAt] refreshed and after the [pre('save')] hook. *)
Definition save_whole (now : Z) (d : Data) : M Data :=
  let d' := pre_save now (with_updatedAt now d) in
  let* _ := roundtrip in
  let* _ := modify (set_datas (insert (data_id d) d')) in
  ret d'.

(** ** [PUT /api/user/profile] *)

(** [models/User.js] as the route uses it:
    [User.findByIdAndUpdate(id, { $set: fields }, { new: true, runValidators: true }).select('-__v')]
    and [user.getPublicProfile()]. *)
Class UserModel : Type := {
  User_findByIdAndUpdate : ObjectId → list (string * jsval) → M (option User);
  getPublicProfile : User → jsval
}.

Inductive ProfilePayload : Type :=
| ProfileError (error : string)
| ProfileErrorDetails (error : string) (details : list string)
| ProfileOk (message : string) (user : jsval)
| ProfileUser (user : jsval).

Record ProfileResponse : Type := mkProfileResponse {
  profile_status : nat;
  profile_payload : ProfilePayload
}.

(** [preferences && preferences.theme && !['light', 'dark'].includes(preferences.theme)] *)
Definition theme_refused (preferences : jsval) : bool :=
  (truthy preferences && truthy (field preferences "theme")
   && match included ["light"; "dark"] (field preferences "theme") with
      | Some _ => false
      | None => true
      end)%bool.

Section Profile.
Context `{UM : UserModel}.

Definition put_user_profile (req : Request) : M ProfileResponse :=
  try_catch
    (let body := req_body req in
     let* _ := destructure body in
     let updateFields := profile_updateFields body in
     if theme_refused (field body "preferences")
     then ret (mkProfileResponse 400 (ProfileError "Invalid theme preference"))
     else
       let* u := current_user req in
       let* updatedUser := User_findByIdAndUpdate (user_id u) updateFields in
       match updatedUser with
       | None => ret (mkProfileResponse 404 (ProfileError "User not found"))
       | Some u' =>
           ret (mkProfileResponse 200
                  (ProfileOk "Profile updated successfully" (getPublicProfile u')))
       end)
    (fun error =>
       if String.eqb (exn_name error) "ValidationError" then
         ret (mkProfileResponse 400
                (ProfileErrorDetails "Validation error" (exn_errors error)))
       else ret (mkProfileResponse 500 (ProfileError "Internal server error"))).

(** [GET /api/user/profile]: [User.findById(req.user._id).select('-__v')];
    the [_id] of a loaded user needs no cast. *)
Definition get_user_profile (req : Request) : M ProfileResponse :=
  try_catch
    (let* u := current_user req in
     let* _ := roundtrip in
     let* w := get_world in
     match users w !! user_id u with
     | None => ret (mkProfileResponse 404 (ProfileError "User not found"))
     | Some user =>
         ret (mkProfileResponse 200 (ProfileUser (getPublicProfile user)))
     end)
    (fun _ => ret (mkProfileResponse 500 (ProfileError "Internal server error"))).

End Profile.

Section BehindAuthentication.
Context `{RT : Runtime}.

(** [router.verb(path, authenticateToken, handler)] for a handler with a
    response of its own shape: the answer of [authenticateToken], or what
    the handler does with the request that it lets through. *)
Definition behind_authenticateToken {A} (h : Request → M A) (req : Request)
  : M (Response + A) :=
  let* o := authenticateToken req in
  match o with
  | Responded r => ret (inl r)
  | Next req' => let* a := h req' in ret (inr a)
  end.

End BehindAuthentication.

(** A user model for the examples: the update sets [firstName] and
    [lastName] when they are strings and the theme when it is one, and
    the public profile is the name and the role. *)
Definition demo_update (id : ObjectId) (fields : list (string * jsval))
    : M (option User) :=
  let* _ := roundtrip in
  let* w := get_world in
  match users w !! id with
  | None => ret None
  | Some u =>
      let str (v : jsval) (old : option string) :=
        match v with JStr s => Some s | _ => old end in
      let u' :=
        mkUser (user_id u) (user_email u) (user_password u) (user_name u)
               (str (assoc "firstName" fields) (user_firstName u))
               (str (assoc "lastName" fields) (user_lastName u))
               (user_avatar u) (user_role u) (user_isActive u) (user_lastLogin u)
               (str (field (assoc "preferences" fields) "theme") (user_theme u))
               (user_createdAt u) in
      let* _ := modify (set_users (insert id u')) in
      ret (Some u')
  end.

Definition demo_user_model : UserModel := {|
  User_findByIdAndUpdate := demo_update;
  getPublicProfile := fun u => JObj [("name", JStr (user_name u));
                                     ("role", JStr (user_role u))]
|}.

(* ================================================================== *)
(** * Theorems *)

(** ** The monad *)

Ltac run := unfold try_catch, bind, ret, throw, lift, get_world, modify in *.

Lemma token_given_Some (token : option string) :
  token_given token = true ↔ ∃ t, token = Some t ∧ t ≠ "".
Proof.
  destruct token as [t|]; simpl.
  - rewrite negb_true_iff, String.eqb_neq. split.
    + intros Hne. exists t. done.
    + intros (t' & [= <-] & Hne). done.
  - split; [done | intros (t & Ht & _); done].
Qed.

Lemma token_given_default (token : option string) (t : string) :
  token = Some t → t ≠ "" → token_given token = true ∧ default "" token = t.
Proof.
  intros -> Hne. split; [|done].
  apply token_given_Some. by exists t.
Qed.

(** The token is the second word of the header, whatever the first. *)
Example header_token_words :
  header_token (mkRequest (Some "Bearer abc.def.ghi") "" ∅ JUndefined None)
  = Some "abc.def.ghi"
  ∧ header_token (mkRequest (Some "Token abc.def.ghi") "" ∅ JUndefined None)
    = Some "abc.def.ghi"
  ∧ header_token (mkRequest (Some "Bearer") "" ∅ JUndefined None) = None
  ∧ header_token (mkRequest (Some "Bearer  abc") "" ∅ JUndefined None) = Some ""
  ∧ header_token (mkRequest None "" ∅ JUndefined None) = None.
Proof. repeat split. Qed.

(** ** The [Authorization] header *)

Lemma split_spaceless (s : string) : has_space s = false → split " " s = [s].
Proof.
  induction s as [|c s IH]; simpl; [done|].
  intros H. apply orb_false_iff in H as [Hc Hs].
  rewrite Hc, (IH Hs). done.
Qed.

Lemma split_word (word rest : string) :
  has_space word = false →
  split " " (word ++ " " ++ rest) = word :: split " " rest.
Proof.
  induction word as [|c word IH]; simpl; [done|].
  intros H. apply orb_false_iff in H as [Hc Hs].
  rewrite Hc, (IH Hs). done.
Qed.




Lemma roundtrip_Val (w w' : World) :
  roundtrip w = (Val tt, w') → w' = after_roundtrip w.
Proof.
  unfold roundtrip, after_roundtrip.
  destruct (faults w) as [|[e|] fs]; by intros [= <-].
Qed.

Section AuthenticationTheorems.
Context `{RT : Runtime}.

(** What [authenticateToken] answers on a token that verifies, in terms of
    the load of the referenced user. *)
Lemma authenticateToken_verified (req : Request) (w : World) (t : string)
    (decoded : jsval) :
  header_token req = Some t → t ≠ "" → jwt_verify t = Val decoded →
  authenticateToken req w =
    match decoded_user decoded w with
    | (Val None, w') =>
        (Val (Responded (rejected 401 "Invalid token. User not found.")), w')
    | (Val (Some u), w') =>
        if user_isActive u then (Val (Next (set_user u req)), w')
        else (Val (Responded (rejected 401 "Account is deactivated.")), w')
    | (Throw e, w') =>
        if String.eqb (exn_name e) "JsonWebTokenError" then
          (Val (Responded (rejected 401 "Invalid token.")), w')
        else if String.eqb (exn_name e) "TokenExpiredError" then
          (Val (Responded (rejected 401 "Token expired.")), w')
        else
          (Val (Responded (rejected 500
                  "Internal server error during authentication.")), w')
    end.
Proof.
  intros Ht Hne Hv.
  destruct (token_given_default _ _ Ht Hne) as [Hg Hd].
  unfold authenticateToken, decoded_user. rewrite Hg, Hd. simpl. run.
  rewrite Hv.
  destruct (prop decoded "id" w) as [[id|e] w1]; [|by repeat case_match].
  destruct (User_findById id w1) as [[[u|]|e] w2]; by repeat case_match.
Qed.

(** On a token whose verification throws, the [catch] block answers. *)
Lemma authenticateToken_unverified (req : Request) (w : World) (t : string)
    (e : exn) :
  header_token req = Some t → t ≠ "" → jwt_verify t = Throw e →
  authenticateToken req w =
    if String.eqb (exn_name e) "JsonWebTokenError" then
      (Val (Responded (rejected 401 "Invalid token.")), w)
    else if String.eqb (exn_name e) "TokenExpiredError" then
      (Val (Responded (rejected 401 "Token expired.")), w)
    else
      (Val (Responded (rejected 500
              "Internal server error during authentication.")), w).
Proof.
  intros Ht Hne Hv.
  destruct (token_given_default _ _ Ht Hne) as [Hg Hd].
  unfold authenticateToken. rewrite Hg, Hd. simpl. run.
  rewrite Hv. by repeat case_match.
Qed.

Lemma authenticateToken_no_token (req : Request) (w : World) :
  token_given (header_token req) = false →
  authenticateToken req w =
    (Val (Responded (rejected 401 "Access denied. No token provided.")), w).
Proof. intros Hg. unfold authenticateToken. rewrite Hg. done. Qed.




End AuthenticationTheorems.




Section OptionalAuthTheorems.
Context `{RT : Runtime}.

Lemma optionalAuth_verified (req : Request) (w : World) (t : string)
    (decoded : jsval) :
  header_token req = Some t → t ≠ "" → jwt_verify t = Val decoded →
  optionalAuth req w =
    match decoded_user decoded w with
    | (Val (Some u), w') =>
        if user_isActive u then (Val (Next (set_user u req)), w')
        else (Val (Next req), w')
    | (_, w') => (Val (Next req), w')
    end.
Proof.
  intros Ht Hne Hv.
  destruct (token_given_default _ _ Ht Hne) as [Hg Hd].
  unfold optionalAuth, decoded_user. rewrite Hg, Hd. simpl. run.
  rewrite Hv.
  destruct (prop decoded "id" w) as [[id|e] w1]; [|done].
  destruct (User_findById id w1) as [[[u|]|e] w2]; by repeat case_match.
Qed.

Lemma optionalAuth_unverified (req : Request) (w : World) (t : string)
    (e : exn) :
  header_token req = Some t → t ≠ "" → jwt_verify t = Throw e →
  optionalAuth req w = (Val (Next req), w).
Proof.
  intros Ht Hne Hv.
  destruct (token_given_default _ _ Ht Hne) as [Hg Hd].
  unfold optionalAuth. rewrite Hg, Hd. simpl. run. by rewrite Hv.
Qed.

Lemma optionalAuth_no_token (req : Request) (w : World) :
  token_given (header_token req) = false →
  optionalAuth req w = (Val (Next req), w).
Proof. intros Hg. unfold optionalAuth. by rewrite Hg. Qed.


End OptionalAuthTheorems.


(** C10: without an identity on the request, the role check and the
    ownership check answer 401 "Authentication required."; an answer of
    403 from either of them implies that an identity is attached, and with
    one the 403 answers are those of a user who is not an administrator
    (and, for the ownership check, not the owner). *)
Theorem authorization_requires_identity (req : Request)
    (resourceUserId : option string) :
  (req_user req = None →
   requireAdmin req = Responded (rejected 401 "Authentication required.")
   ∧ requireOwnership resourceUserId req
     = Val (Responded (rejected 401 "Authentication required.")))
  ∧ (∀ r, requireAdmin req = Responded r → status r = 403%nat →
          is_Some (req_user req))
  ∧ (∀ r, requireOwnership resourceUserId req = Val (Responded r) →
          status r = 403%nat → is_Some (req_user req))
  ∧ (∀ u, req_user req = Some u → user_role u ≠ "admin" →
          requireAdmin req = Responded (rejected 403 "Admin access required."))
  ∧ (∀ u rid, req_user req = Some u → resourceUserId = Some rid →
              user_role u ≠ "admin" → user_id u ≠ rid →
              requireOwnership resourceUserId req
              = Val (Responded (rejected 403
                       "Access denied. You can only modify your own resources."))).
Proof.
  unfold requireAdmin, requireOwnership.
  destruct (req_user req) as [u|].
  - split; [done|]. split; [eauto|]. split; [eauto|]. split.
    + intros u' [= <-] Hrole. apply String.eqb_neq in Hrole. by rewrite Hrole.
    + intros u' rid [= <-] -> Hrole Hid.
      apply String.eqb_neq in Hrole, Hid. unfold toString.
      by rewrite Hrole, Hid.
  - split; [done|]. split; [by intros r [= <-]|]. split; [by intros r [= <-]|].
    split; intros; discriminate.
Qed.

Lemma authorization_requires_identity_witness :
  requireAdmin Demo.anonymous
  = Responded (rejected 401 "Authentication required.")
  ∧ requireOwnership (Some Demo.alice_id) Demo.anonymous
    = Val (Responded (rejected 401 "Authentication required.")).
Proof.
  apply (proj1 (authorization_requires_identity Demo.anonymous
                  (Some Demo.alice_id))).
  reflexivity.
Defined.

(** ** Frames: what the plumbing keeps *)

Lemma frame_same_stores : frame same_stores.
Proof.
  unfold frame, same_stores. split; [done|]. split; [|done].
  intros a b c [? ?] [? ?]. split; congruence.
Qed.

Lemma frame_owners_kept : frame owners_kept.
Proof.
  unfold frame, owners_kept. split; [eauto|]. split; [|eauto].
  intros a b c Hab Hbc k d' H.
  destruct (Hbc _ _ H) as (d1 & H1 & E1).
  destruct (Hab _ _ H1) as (d0 & H0 & E0).
  exists d0. split; [done|congruence].
Qed.

Lemma frame_grows (newId uid : string) : frame (grows newId uid).
Proof.
  unfold frame, grows. split; [eauto|]. split; [|eauto].
  intros a b c (Hu1 & Hi1 & Hn1) (Hu2 & Hi2 & Hn2).
  split; [congruence|]. split; [eauto|].
  intros k d' H. destruct (Hn2 _ _ H) as [H1|H1]; eauto.
Qed.

Lemma same_stores_owners_kept (w w' : World) : same_stores w w' → owners_kept w w'.
Proof. intros [_ Hd] k d' H. rewrite Hd in H. eauto. Qed.

Lemma same_stores_grows (newId uid : string) (w w' : World) :
  same_stores w w' → grows newId uid w w'.
Proof.
  intros [Hu Hd]. unfold grows. rewrite Hu, Hd. eauto.
Qed.

Section Frames.
Context (P : World → World → Prop) (HP : frame P).

Lemma keeps_ret {A} (a : A) : preserves P (ret a).
Proof. intros w r w' [= <- <-]. apply HP. Qed.

Lemma keeps_throw {A} (e : exn) : preserves P (@throw A e).
Proof. intros w r w' [= <- <-]. apply HP. Qed.

Lemma keeps_lift {A} (x : result A) : preserves P (lift x).
Proof. intros w r w' [= <- <-]. apply HP. Qed.

Lemma keeps_get_world : preserves P get_world.
Proof. intros w r w' [= <- <-]. apply HP. Qed.

Lemma keeps_roundtrip : preserves P roundtrip.
Proof.
  intros w r w'. unfold roundtrip.
  destruct (faults w) as [|[e|] fs]; intros [= <- <-]; apply HP.
Qed.

Lemma keeps_bind {A B} (c : M A) (k : A → M B) :
  preserves P c → (∀ a, preserves P (k a)) → preserves P (bind c k).
Proof.
  intros Hc Hk w r w'. unfold bind.
  destruct (c w) as [[a|e] w1] eqn:E.
  - intros H. destruct HP as (_ & Ht & _).
    exact (Ht _ _ _ (Hc _ _ _ E) (Hk _ _ _ _ H)).
  - intros [= <- <-]. exact (Hc _ _ _ E).
Qed.

Lemma keeps_try_catch {A} (c : M A) (h : exn → M A) :
  preserves P c → (∀ e, preserves P (h e)) → preserves P (try_catch c h).
Proof.
  intros Hc Hh w r w'. unfold try_catch.
  destruct (c w) as [[a|e] w1] eqn:E.
  - intros [= <- <-]. exact (Hc _ _ _ E).
  - intros H. destruct HP as (_ & Ht & _).
    exact (Ht _ _ _ (Hc _ _ _ E) (Hh _ _ _ _ H)).
Qed.

End Frames.

Lemma keeps_bind_ret (P : World → World → Prop) {A B} (a : A) (k : A → M B) :
  preserves P (k a) → preserves P (bind (ret a) k).
Proof. intros Hk w r w' H. exact (Hk _ _ _ H). Qed.

(** Splits a computation along its binds, handlers and branches down to
    the store operations, which [tac] settles. *)
Ltac keeps_with HP tac :=
  cbv zeta;
  repeat first
    [ tac
    | apply (keeps_ret _ HP)
    | apply (keeps_throw _ HP)
    | apply (keeps_lift _ HP)
    | apply (keeps_get_world _ HP)
    | apply (keeps_roundtrip _ HP)
    | lazymatch goal with
      | |- preserves _ (bind (ret _) _) => apply keeps_bind_ret
      end
    | apply (keeps_bind _ HP); [|intros ?]
    | apply (keeps_try_catch _ HP); [|intros ?]
    | progress case_match ].

Section ReadOnly.
Context `{RT : Runtime} (P : World → World → Prop) (HP : frame P).

Lemma keeps_prop v k : preserves P (prop v k).
Proof. unfold prop. keeps_with HP fail. Qed.

Lemma keeps_js_trim v : preserves P (js_trim v).
Proof. unfold js_trim. keeps_with HP fail. Qed.

Lemma keeps_destructure v : preserves P (destructure v).
Proof. unfold destructure. keeps_with HP fail. Qed.

Lemma keeps_current_user req : preserves P (current_user req).
Proof. unfold current_user. keeps_with HP fail. Qed.

Lemma keeps_filter_tags tags : preserves P (filter_tags tags).
Proof.
  induction tags as [|tag rest IH]; simpl.
  - keeps_with HP fail.
  - destruct tag; keeps_with HP ltac:(exact IH).
Qed.

Lemma keeps_castId id : preserves P (castId id).
Proof. unfold castId. keeps_with HP fail. Qed.

Lemma keeps_User_findById id : preserves P (User_findById id).
Proof. unfold User_findById. keeps_with HP ltac:(apply keeps_castId). Qed.

Lemma keeps_Data_findById id : preserves P (Data_findById id).
Proof. unfold Data_findById. keeps_with HP ltac:(apply keeps_castId). Qed.

Lemma keeps_populate d : preserves P (populate d).
Proof. unfold populate. keeps_with HP fail. Qed.

Lemma keeps_populate_all ds : preserves P (populate_all ds).
Proof. unfold populate_all. keeps_with HP fail. Qed.

Lemma keeps_cursor {A} limit skip (docs : list A) : preserves P (cursor limit skip docs).
Proof. unfold cursor. keeps_with HP fail. Qed.

End ReadOnly.


(** The operations that only read. *)
Ltac reads HP :=
  first [ apply keeps_prop | apply keeps_js_trim | apply keeps_destructure
        | apply keeps_current_user | apply keeps_filter_tags | apply keeps_castId
        | apply keeps_User_findById | apply keeps_Data_findById
        | apply keeps_populate | apply keeps_populate_all | apply keeps_cursor ];
  exact HP.

Section Handlers.
Context `{RT : Runtime}.

Lemma keeps_authenticateToken P (HP : frame P) req :
  preserves P (authenticateToken req).
Proof. unfold authenticateToken. keeps_with HP ltac:(reads HP). Qed.

Lemma keeps_optionalAuth P (HP : frame P) req : preserves P (optionalAuth req).
Proof. unfold optionalAuth. keeps_with HP ltac:(reads HP). Qed.

Lemma keeps_get_data P (HP : frame P) req : preserves P (get_data req).
Proof. unfold get_data. keeps_with HP ltac:(reads HP). Qed.

Lemma keeps_get_data_by_id P (HP : frame P) req : preserves P (get_data_by_id req).
Proof. unfold get_data_by_id. keeps_with HP ltac:(reads HP). Qed.

Lemma keeps_get_user_search P (HP : frame P) req :
  preserves P (get_user_search req).
Proof. unfold get_user_search. keeps_with HP ltac:(reads HP). Qed.

Lemma keeps_build_updateFields P (HP : frame P) body :
  preserves P (build_updateFields body).
Proof.
  unfold build_updateFields, trimmed_if_defined, tags_if_defined.
  keeps_with HP ltac:(reads HP).
Qed.

(** The writes. *)
Lemma grows_Data_save newId now title description category value unit_ tags
    isPublic source owner :
  preserves (grows newId owner)
    (Data_save newId now title description category value unit_ tags isPublic
               source owner).
Proof.
  pose proof (frame_grows newId owner) as HP.
  intros w r w'. unfold Data_save.
  case_match; [|intros [= <- <-]; apply HP].
  run. unfold roundtrip.
  destruct (faults w) as [|[e|] fs]; simpl;
    try (intros [= <- <-]; apply HP);
    (destruct (datas w !! newId) eqn:Hnew; intros [= <- <-]; [apply HP|]);
    (unfold grows; simpl; split; [done|]; split;
     [ intros k d Hk; destruct (decide (newId = k)) as [<-|Hne];
       [congruence | by rewrite lookup_insert_ne]
     | intros k d'; destruct (decide (newId = k)) as [<-|Hne];
       [ rewrite lookup_insert_eq; intros [= <-]; by right
       | rewrite lookup_insert_ne by done; by left ] ]).
Qed.

Lemma owners_kept_findByIdAndUpdate id upd now :
  preserves owners_kept (Data_findByIdAndUpdate id upd now).
Proof.
  pose proof frame_owners_kept as HP.
  intros w r w'. unfold Data_findByIdAndUpdate, castId. run. unfold roundtrip.
  repeat (case_match; simplify_eq; simpl in *; try (intros [= <- <-]; apply HP));
    intros [= <- <-]; intros k d'; simpl;
    (destruct (decide (s = k)) as [<-|Hne];
     [ rewrite lookup_insert_eq; intros [= <-]; eauto
     | rewrite lookup_insert_ne by done; eauto ]).
Qed.

Lemma owners_kept_findByIdAndDelete id :
  preserves owners_kept (Data_findByIdAndDelete id).
Proof.
  pose proof frame_owners_kept as HP.
  unfold Data_findByIdAndDelete. keeps_with HP ltac:(reads HP).
  intros w r w' [= <- <-] k d'. simpl.
  intros Hk. apply lookup_delete_Some in Hk as [_ Hk]. eauto.
Qed.

Lemma owners_kept_deleteMany uid : preserves owners_kept (Data_deleteMany uid).
Proof.
  pose proof frame_owners_kept as HP.
  unfold Data_deleteMany. keeps_with HP ltac:(reads HP).
  intros w r w' [= <- <-] k d'. simpl.
  intros Hk. apply map_lookup_filter_Some in Hk as [Hk _]. eauto.
Qed.

Lemma owners_kept_User_findByIdAndDelete uid :
  preserves owners_kept (User_findByIdAndDelete uid).
Proof.
  pose proof frame_owners_kept as HP.
  unfold User_findByIdAndDelete. keeps_with HP ltac:(reads HP).
  intros w r w' [= <- <-] k d'. simpl. eauto.
Qed.

Lemma owners_kept_put_data_by_id now req :
  preserves owners_kept (put_data_by_id now req).
Proof.
  pose proof frame_owners_kept as HP.
  unfold put_data_by_id.
  keeps_with HP ltac:(first [ reads HP | by apply keeps_build_updateFields
                            | apply owners_kept_findByIdAndUpdate ]).
Qed.

Lemma owners_kept_delete_data_by_id req :
  preserves owners_kept (delete_data_by_id req).
Proof.
  pose proof frame_owners_kept as HP.
  unfold delete_data_by_id.
  keeps_with HP ltac:(first [ reads HP | apply owners_kept_findByIdAndDelete ]).
Qed.

Lemma owners_kept_delete_user_account req :
  preserves owners_kept (delete_user_account req).
Proof.
  pose proof frame_owners_kept as HP.
  unfold delete_user_account.
  keeps_with HP ltac:(first [ reads HP | apply owners_kept_deleteMany
                            | apply owners_kept_User_findByIdAndDelete ]).
Qed.

Lemma grows_post_data newId now req u :
  req_user req = Some u →
  preserves (grows newId (user_id u)) (post_data newId now req).
Proof.
  intros Hu. pose proof (frame_grows newId (user_id u)) as HP.
  unfold post_data, current_user. rewrite Hu.
  keeps_with HP ltac:(first [ reads HP | apply grows_Data_save ]).
Qed.

End Handlers.

Section OwnerTheorems.
Context `{RT : Runtime}.

(** C9: the owner of a record.  Whatever an authenticated call does, a
    record found in the collection afterwards either was there before with
    the same owner, whatever the body of the request held, or is the one
    record that [POST /api/data] has just created, and then its owner is
    the caller's [_id]. *)
Theorem owner_set_at_creation_then_fixed (now : Z) (c : ApiCall) (req : Request)
    (u : User) (w : World) (r : result Response) (w' : World) :
  req_user req = Some u →
  handler now c req w = (r, w') →
  ∀ k d', datas w' !! k = Some d' →
    (∃ d, datas w !! k = Some d ∧ data_user d' = data_user d)
    ∨ (datas w !! k = None ∧ c = PostData k ∧ data_user d' = user_id u).
Proof.
  intros Hu Hrun k d' Hk.
  pose proof frame_owners_kept as HP.
  destruct c; simpl in Hrun;
    try (left; revert k d' Hk; fold (owners_kept w w'); revert Hrun;
         first [ by apply keeps_get_data | by apply keeps_get_data_by_id
               | by apply keeps_get_user_search
               | apply owners_kept_put_data_by_id
               | apply owners_kept_delete_data_by_id
               | apply owners_kept_delete_user_account ]).
  destruct (grows_post_data newId now req u Hu _ _ _ Hrun) as (_ & Hinc & Hnew).
  destruct (Hnew _ _ Hk) as [Hold|[-> Hown]]; [left; eauto|].
  destruct (datas w !! newId) as [d|] eqn:Hbefore; [|by right].
  left. exists d. split; [done|].
  apply Hinc in Hbefore. congruence.
Qed.

End OwnerTheorems.

(** ** Runs on a healthy database *)

Lemma roundtrip_healthy (w : World) : faults w = [] → roundtrip w = (Val tt, w).
Proof. intros H. unfold roundtrip. by rewrite H. Qed.

Section Healthy.
Context `{RT : Runtime}.

Lemma Data_findById_healthy (id : string) (o : string) (w : World) :
  faults w = [] → castObjectId (JStr id) = Some o →
  Data_findById (JStr id) w = (Val (datas w !! o), w).
Proof.
  intros Hf Hc. unfold Data_findById, castId. simpl. rewrite Hc. run.
  by rewrite (roundtrip_healthy _ Hf).
Qed.

Lemma populate_healthy (d : Data) (w : World) :
  faults w = [] →
  populate d w = (Val (mkPopulated d (user_ref <$> users w !! data_user d)), w).
Proof.
  intros Hf. unfold populate. run. by rewrite (roundtrip_healthy _ Hf).
Qed.

(** A request on a record of somebody else changes neither collection,
    with or without faults of the database. *)
Lemma foreign_untouched (now : Z) (req : Request) (w : World)
    (u : User) (o : string) (d : Data) :
  req_user req = Some u →
  castObjectId (JStr (req_params_id req)) = Some o →
  datas w !! o = Some d →
  data_user d ≠ user_id u →
  ∀ r w',
    (get_data_by_id req w = (r, w') ∨ put_data_by_id now req w = (r, w')
     ∨ delete_data_by_id req w = (r, w')) →
    same_stores w w'.
Proof.
  intros Hu Hc Hd Hne r w' [Hrun|[Hrun|Hrun]].
  - exact (keeps_get_data_by_id _ frame_same_stores _ _ _ _ Hrun).
  - assert (String.eqb (data_user d) (user_id u) = false) as Hcmp
      by (by apply String.eqb_neq).
    revert Hrun.
    unfold put_data_by_id, destructure, Data_findById, castId, current_user,
      toString.
    simpl. rewrite Hc, Hu. run. unfold roundtrip.
    destruct (nullish (req_body req)); [by repeat case_match; intros [= <- <-]|].
    destruct (faults w) as [|[e|] fs]; simpl; rewrite ?Hd, ?Hcmp; simpl;
      repeat case_match; by intros [= <- <-].
  - assert (String.eqb (data_user d) (user_id u) = false) as Hcmp
      by (by apply String.eqb_neq).
    revert Hrun.
    unfold delete_data_by_id, Data_findById, castId, current_user, toString.
    simpl. rewrite Hc, Hu. run. unfold roundtrip.
    destruct (faults w) as [|[e|] fs]; simpl; rewrite ?Hd, ?Hcmp; simpl;
      repeat case_match; by intros [= <- <-].
Qed.

(** C1, as amended: a request by an identity that is not the owner of the
    record that [:id] resolves to is answered 403 "Access denied" by [GET],
    [PUT] and [DELETE /api/data/:id] on a healthy database, whatever the
    role of the identity, [admin] included ([GET] compares with the
    populated owner, whose document has to exist; [PUT] reads the body
    first, which has to be there).  In any run, faults included, such a
    request changes neither collection. *)
Theorem foreign_record_is_forbidden (now : Z) (req : Request) (w : World)
    (u : User) (o : string) (d : Data) :
  req_user req = Some u →
  castObjectId (JStr (req_params_id req)) = Some o →
  datas w !! o = Some d →
  data_user d ≠ user_id u →
  (faults w = [] →
   (keyed w → is_Some (users w !! data_user d) →
    get_data_by_id req w = (Val (rejected 403 "Access denied"), w))
   ∧ (nullish (req_body req) = false →
      put_data_by_id now req w = (Val (rejected 403 "Access denied"), w))
   ∧ delete_data_by_id req w = (Val (rejected 403 "Access denied"), w))
  ∧ (∀ r w',
       (get_data_by_id req w = (r, w') ∨ put_data_by_id now req w = (r, w')
        ∨ delete_data_by_id req w = (r, w')) →
       same_stores w w').
Proof.
  intros Hu Hc Hd Hne.
  split; [|by apply (foreign_untouched now req w u o d)].
  intros Hf.
  assert (String.eqb (data_user d) (user_id u) = false) as Hcmp
    by (by apply String.eqb_neq).
  split; [|split].
  - intros [Hku _] [owner Ho].
    unfold get_data_by_id. run.
    rewrite (Data_findById_healthy _ _ _ Hf Hc), Hd.
    rewrite (populate_healthy _ _ Hf), Ho. simpl.
    unfold current_user. rewrite Hu. simpl.
    rewrite (Hku _ _ Ho). unfold toString. by rewrite Hcmp.
  - intros Hb.
    unfold put_data_by_id, destructure. rewrite Hb. run.
    rewrite (Data_findById_healthy _ _ _ Hf Hc), Hd.
    unfold current_user. rewrite Hu. simpl. unfold toString. by rewrite Hcmp.
  - unfold delete_data_by_id. run.
    rewrite (Data_findById_healthy _ _ _ Hf Hc), Hd.
    unfold current_user. rewrite Hu. simpl. unfold toString. by rewrite Hcmp.
Qed.

End Healthy.

Lemma demo_world_keyed : keyed Demo.world.
Proof.
  split; intros k x Hk; unfold Demo.world in Hk; simpl in Hk.
  - repeat (apply lookup_insert_Some in Hk as [[<- <-]|[_ Hk]]; [reflexivity|]).
    by rewrite lookup_empty in Hk.
  - repeat (apply lookup_insert_Some in Hk as [[<- <-]|[_ Hk]]; [reflexivity|]).
    by rewrite lookup_empty in Hk.
Qed.

Lemma foreign_record_is_forbidden_witness :
  @get_data_by_id Demo.runtime Demo.root_on_bob Demo.world
    = (Val (rejected 403 "Access denied"), Demo.world)
  ∧ @put_data_by_id Demo.runtime 9 Demo.root_on_bob Demo.world
    = (Val (rejected 403 "Access denied"), Demo.world)
  ∧ @delete_data_by_id Demo.runtime Demo.root_on_bob Demo.world
    = (Val (rejected 403 "Access denied"), Demo.world).
Proof.
  destruct (@foreign_record_is_forbidden Demo.runtime 9 Demo.root_on_bob
              Demo.world Demo.root
              Demo.rec2_id (Demo.record Demo.rec2_id Demo.bob_id "Disk"))
    as [Hrun _].
  - reflexivity.
  - reflexivity.
  - reflexivity.
  - discriminate.
  - destruct (Hrun eq_refl) as (Hget & Hput & Hdel).
    split; [|split]; [apply Hget | apply Hput | apply Hdel].
    + exact demo_world_keyed.
    + exists Demo.bob. reflexivity.
    + reflexivity.
Defined.

(** C1 as stated fails: the administrator [root] asks for the record of
    [bob] through the routes, token and all, and is answered 403 by each
    of the three. *)
Lemma admin_is_refused_foreign_record :
  user_role Demo.root = "admin"
  ∧ @authenticateToken Demo.runtime Demo.root_on_bob_token Demo.world
    = (Val (Next (set_user Demo.root Demo.root_on_bob_token)), Demo.world)
  ∧ @route Demo.runtime 9 GetDataById Demo.root_on_bob_token Demo.world
    = (Val (rejected 403 "Access denied"), Demo.world)
  ∧ @route Demo.runtime 9 PutDataById Demo.root_on_bob_token Demo.world
    = (Val (rejected 403 "Access denied"), Demo.world)
  ∧ @route Demo.runtime 9 DeleteDataById Demo.root_on_bob_token Demo.world
    = (Val (rejected 403 "Access denied"), Demo.world).
Proof. vm_compute. repeat split. Qed.

Section AccountTheorems.
Context `{RT : Runtime}.

Lemma owned_by_after_deleteMany (uid : string) (w : World) :
  owned_by uid (set_datas (filter (fun kv => data_user kv.2 ≠ uid)) w) = ∅.
Proof.
  unfold owned_by. simpl. apply map_empty. intros k.
  apply map_lookup_filter_None. right. intros d Hk.
  apply map_lookup_filter_Some in Hk as [_ Hk]. simpl in *. done.
Qed.

(** C5: [DELETE /api/user/account].  With a parsed body and a healthy
    database the answer is 200, every record owned by the caller is gone,
    the records of the others are as before and the user document is
    deleted.  The user document is only ever deleted after the records: in
    any run, faults included, if the user collection has changed then no
    record owned by the caller is left.  Afterwards [GET /api/data/:id]
    answers 404 for such a record to whoever asks. *)
Theorem account_deletion_cascades (req : Request) (w : World) (u : User) :
  req_user req = Some u →
  (nullish (req_body req) = false → faults w = [] →
   ∃ w', delete_user_account req w
         = (Val (mkResponse 200 (Success "Account deleted successfully")), w')
         ∧ faults w' = []
         ∧ users w' = delete (user_id u) (users w)
         ∧ owned_by (user_id u) w' = ∅
         ∧ (∀ k d, datas w' !! k = Some d ↔
                   datas w !! k = Some d ∧ data_user d ≠ user_id u)
         ∧ (∀ req2 k d, castObjectId (JStr (req_params_id req2)) = Some k →
                        datas w !! k = Some d → data_user d = user_id u →
                        get_data_by_id req2 w'
                        = (Val (rejected 404 "Data record not found"), w')))
  ∧ (∀ r w', delete_user_account req w = (r, w') →
             users w' ≠ users w → owned_by (user_id u) w' = ∅).
Proof.
  intros Hu. split.
  - intros Hb Hf.
    unfold delete_user_account, destructure, current_user, Data_deleteMany,
      User_findByIdAndDelete.
    rewrite Hb, Hu. run. rewrite (roundtrip_healthy _ Hf). simpl.
    rewrite roundtrip_healthy by done. simpl.
    eexists. split; [reflexivity|]. simpl.
    split; [done|]. split; [done|].
    split; [apply (owned_by_after_deleteMany (user_id u) w)|].
    split.
    + intros k d. by rewrite map_lookup_filter_Some.
    + intros req2 k d Hc Hk Hown.
      unfold get_data_by_id. run.
      rewrite (Data_findById_healthy (req_params_id req2) k) by done. simpl.
      replace (filter (λ kv, data_user kv.2 ≠ user_id u) (datas w) !! k)
        with (@None Data); [done|].
      symmetry. apply map_lookup_filter_None. right. intros d' Hk'.
      simpl. rewrite Hk in Hk'. injection Hk' as <-. tauto.
  - intros r w'.
    unfold delete_user_account, destructure, current_user, Data_deleteMany,
      User_findByIdAndDelete.
    rewrite Hu. run. unfold roundtrip.
    destruct (nullish (req_body req)); [by intros [= <- <-]|].
    simpl.
    destruct (faults w) as [|[e|] [|[e'|] fs]] eqn:Hf; simpl; rewrite ?Hf;
      intros [= <- <-]; try done; intros _;
      apply (owned_by_after_deleteMany (user_id u) w).
Qed.

(** What [authenticateToken] does depends on the request through the
    [Authorization] header alone. *)
Lemma authenticateToken_header_only (r1 r2 : Request) (w : World) :
  req_authorization r1 = req_authorization r2 →
  (∃ x w', authenticateToken r1 w = (Val (Responded x), w')
           ∧ authenticateToken r2 w = (Val (Responded x), w'))
  ∨ (∃ u w', authenticateToken r1 w = (Val (Next (set_user u r1)), w')
             ∧ authenticateToken r2 w = (Val (Next (set_user u r2)), w')).
Proof.
  intros Hh.
  assert (header_token r1 = header_token r2) as Ht
    by (unfold header_token; by rewrite Hh).
  destruct (token_given (header_token r1)) eqn:Hg.
  - apply token_given_Some in Hg as (t & Ht1 & Hne).
    assert (header_token r2 = Some t) as Ht2 by congruence.
    destruct (jwt_verify t) as [decoded|e] eqn:Hv.
    + rewrite (authenticateToken_verified _ _ _ _ Ht1 Hne Hv),
        (authenticateToken_verified _ _ _ _ Ht2 Hne Hv).
      destruct (decoded_user decoded w) as [[[u|]|e] w1];
        repeat case_match; eauto.
    + rewrite (authenticateToken_unverified _ _ _ _ Ht1 Hne Hv),
        (authenticateToken_unverified _ _ _ _ Ht2 Hne Hv).
      repeat case_match; eauto.
  - rewrite (authenticateToken_no_token r1) by done.
    rewrite (authenticateToken_no_token r2) by congruence. eauto.
Qed.

(** C2: [DELETE /api/user/account] does not look at the password.  Two
    requests that differ only in the [password] of the body, whatever it
    is and given or not, get the same answer and leave the same world. *)
Theorem account_deletion_ignores_password (now : Z) (r1 r2 : Request) (w : World) :
  differ_only_in_password r1 r2 →
  route now DeleteUserAccount r1 w = route now DeleteUserAccount r2 w
  ∧ delete_user_account r1 w = delete_user_account r2 w.
Proof.
  intros (Hh & _ & _ & Hu & kv1 & kv2 & Hb1 & Hb2 & _).
  assert (∀ u, delete_user_account (set_user u r1) = delete_user_account (set_user u r2))
    as Hsame by (intros u; unfold delete_user_account; simpl; by rewrite Hb1, Hb2).
  split.
  - unfold route. run.
    destruct (authenticateToken_header_only r1 r2 w Hh)
      as [(x & w' & -> & ->)|(u & w' & -> & ->)]; [done|].
    simpl. by rewrite Hsame.
  - unfold delete_user_account, current_user. by rewrite Hb1, Hb2, Hu.
Qed.

End AccountTheorems.

(** ** Validation and pagination *)

Lemma included_None (l : list string) (v : jsval) :
  included l v = None ↔ ∀ s, v = JStr s → s ∉ l.
Proof.
  unfold included. destruct v; try (split; [intros _ s' [=]|done]).
  destruct (existsb (String.eqb s) l) eqn:E.
  - split; [done|]. intros H. exfalso. apply (H s eq_refl).
    apply existsb_exists in E as (x & Hin & Heq).
    apply String.eqb_eq in Heq as ->. by apply list_elem_of_In.
  - split; [|done]. intros _ s' [= <-] Hin.
    apply list_elem_of_In in Hin.
    assert (existsb (String.eqb s) l = true); [|congruence].
    apply existsb_exists. exists s. split; [done|apply String.eqb_refl].
Qed.

Lemma num_negative_lt (q : Q) : num_negative q = true ↔ (q < 0)%Q.
Proof.
  unfold num_negative, Qlt. simpl. rewrite Z.ltb_lt. lia.
Qed.

(** The schema of [models/Data.js] holds the same two rules: [enum] on
    [category] and [min: 0] on [value]. *)
Lemma schema_category_enum (s : string) :
  validate_category s = [] ↔ s ∈ validCategories.
Proof.
  unfold validate_category.
  destruct (existsb (String.eqb s) validCategories) eqn:E.
  - split; [intros _|done].
    apply existsb_exists in E as (x & Hin & Heq).
    apply String.eqb_eq in Heq as ->. by apply list_elem_of_In.
  - split; [done|]. intros Hin. apply list_elem_of_In in Hin.
    assert (existsb (String.eqb s) validCategories = true); [|congruence].
    apply existsb_exists. exists s. split; [done|apply String.eqb_refl].
Qed.

Lemma schema_value_min (q : Q) : validate_value q = [] ↔ ¬ (q < 0)%Q.
Proof.
  unfold validate_value. rewrite <- num_negative_lt.
  destruct (num_negative q); split; done.
Qed.

Section ValidationTheorems.
Context `{RT : Runtime}.

(** C7: [POST /api/data] on a parsed body.  A category that is not one of
    the five strings, and in the same way a value that is not a number or
    is a negative number, is answered 400 before anything is stored: the
    world is as it was. *)
Theorem post_data_refuses_bad_category_and_value (newId : string) (now : Z)
    (req : Request) (w : World) :
  nullish (req_body req) = false →
  ((∀ s, field (req_body req) "category" = JStr s → s ∉ validCategories) →
   ∃ msg, post_data newId now req w = (Val (rejected 400 msg), w))
  ∧ ((∀ q, field (req_body req) "value" = JNum q → (q < 0)%Q) →
     ∃ msg, post_data newId now req w = (Val (rejected 400 msg), w)).
Proof.
  intros Hb. unfold post_data, destructure. rewrite Hb. run. simpl.
  split.
  - intros Hcat. apply included_None in Hcat. rewrite Hcat.
    match goal with |- context [if ?c then _ else _] => destruct c end; eauto.
  - intros Hval.
    match goal with |- context [if ?c then _ else _] => destruct c end;
      [eauto|].
    destruct (included validCategories _); [|eauto].
    destruct (field (req_body req) "value") eqn:Hv; simpl; eauto.
    specialize (Hval q eq_refl). apply num_negative_lt in Hval as ->. eauto.
Qed.

End ValidationTheorems.

Lemma bind_Val_inv {A B} (c : M A) (k : A → M B) (w : World) (b : B) (w' : World) :
  bind c k w = (Val b, w') → ∃ a w1, c w = (Val a, w1) ∧ k a w1 = (Val b, w').
Proof.
  unfold bind. destruct (c w) as [[a|e] w1]; [eauto|done].
Qed.

Lemma ret_Val_inv {A} (a b : A) (w w' : World) :
  ret a w = (Val b, w') → b = a ∧ w' = w.
Proof. by intros [= <- <-]. Qed.

(** A handler whose [catch] block answers with an error status has
    completed its [try] block when the answer is 200 or 201. *)
Lemma try_catch_success (c : M Response) (h : exn → M Response) (w : World)
    (r : Response) (w' : World) (code : nat) :
  (∀ e w1 r1 w2, h e w1 = (Val r1, w2) → status r1 ≠ code) →
  try_catch c h w = (Val r, w') → status r = code → c w = (Val r, w').
Proof.
  intros Hh. unfold try_catch. destruct (c w) as [[a|e] w1]; [done|].
  intros H Hs. by destruct (Hh _ _ _ _ H).
Qed.

Lemma cursor_length {A} (L : Z) (skip : option Z) (docs found : list A)
    (w w' : World) :
  1 ≤ L → cursor (Some L) skip docs w = (Val found, w') →
  Z.of_nat (List.length found) ≤ L.
Proof.
  intros HL. unfold cursor. destruct skip as [k|]; [|done].
  destruct (k <? 0); [done|].
  destruct (Z.eqb_spec L 0); [lia|].
  intros [= <- <-]. rewrite length_take. lia.
Qed.

Lemma populate_all_length `{RT : Runtime} (ds : list Data) (ps : list Populated)
    (w w' : World) :
  populate_all ds w = (Val ps, w') → List.length ps = List.length ds.
Proof.
  unfold populate_all. destruct ds as [|d ds]; [by intros [= <- <-]|].
  run. destruct (roundtrip w) as [[[]|e] w1]; [|done].
  intros [= <- <-]. simpl. by rewrite List.length_map.
Qed.

(** [pages_of] is the ceiling of the quotient. *)
Lemma pages_of_ceiling (total : nat) (L : Z) :
  1 ≤ L →
  ∃ n, pages_of total (Some L) = Some n
       ∧ (n - 1) * L < Z.of_nat total ≤ n * L.
Proof.
  intros HL. unfold pages_of. destruct (Z.eqb_spec L 0); [lia|].
  eexists. split; [reflexivity|].
  pose proof (Z.div_mod (- Z.of_nat total) L ltac:(lia)).
  pose proof (Z.mod_pos_bound (- Z.of_nat total) L ltac:(lia)).
  nia.
Qed.

Section PaginationTheorems.
Context `{RT : Runtime}.

(** C8, as amended: a list request whose [limit] parses to a number
    [L >= 1], the double that [parseInt] gives, and that is answered 200
    carries at most [L] items, and its envelope has the parsed [page], [L],
    the total, and for [pages] the ceiling of [total / L]: the least [n]
    with [total <= n * L]. *)
Theorem page_within_limit (req : Request) (u : User) (L : Z) (w : World)
    (r : Response) (w' : World) :
  req_user req = Some u →
  int_param (req_query req) "limit" 10 = Some L →
  1 ≤ L →
  status r = 200%nat →
  (get_data req w = (Val r, w') →
   ∃ data pg n,
     payload r = SuccessList data pg
     ∧ Z.of_nat (List.length data) ≤ L
     ∧ pg_page pg = int_param (req_query req) "page" 1
     ∧ pg_limit pg = Some L
     ∧ pg_pages pg = Some n
     ∧ (n - 1) * L < Z.of_nat (pg_total pg) ≤ n * L)
  ∧ (get_user_search req w = (Val r, w') →
     ∃ found pg n,
       payload r = SuccessUsers found pg
       ∧ Z.of_nat (List.length found) ≤ L
       ∧ pg_page pg = int_param (req_query req) "page" 1
       ∧ pg_limit pg = Some L
       ∧ pg_pages pg = Some n
       ∧ (n - 1) * L < Z.of_nat (pg_total pg) ≤ n * L).
Proof.
  intros Hu HL H1 Hs. split.
  - intros Hrun. unfold get_data in Hrun.
    apply try_catch_success with (code := 200%nat) in Hrun; [|by intros ???? [= <- _]|done].
    cbv zeta in Hrun. rewrite HL in Hrun.
    apply bind_Val_inv in Hrun as (u' & w1 & _ & Hrun).
    apply bind_Val_inv in Hrun as (search & w2 & _ & Hrun).
    apply bind_Val_inv in Hrun as ([] & w3 & _ & Hrun).
    apply bind_Val_inv in Hrun as (w4 & w5 & _ & Hrun).
    apply bind_Val_inv in Hrun as (found & w6 & Hcur & Hrun).
    apply bind_Val_inv in Hrun as (data & w7 & Hpop & Hrun).
    apply bind_Val_inv in Hrun as ([] & w8 & _ & Hrun).
    apply bind_Val_inv in Hrun as (w9 & w10 & _ & Hrun).
    apply ret_Val_inv in Hrun as [-> ->].
    match goal with |- context [pages_of ?t _] =>
      destruct (pages_of_ceiling t L H1) as (n & Hn & Hceil) end.
    eexists _, _, n. split; [reflexivity|]. cbn [pg_page pg_limit pg_pages pg_total].
    rewrite (populate_all_length _ _ _ _ Hpop).
    split; [exact (cursor_length _ _ _ _ _ _ H1 Hcur)|]. done.
  - intros Hrun. unfold get_user_search in Hrun.
    apply try_catch_success with (code := 200%nat) in Hrun; [|by intros ???? [= <- _]|done].
    cbv zeta in Hrun. rewrite HL in Hrun.
    destruct (given (req_query req !! "query")) as [query|]; [|by injection Hrun as <- <-].
    destruct (String.length (trim query) <? 2)%nat; [by injection Hrun as <- <-|].
    apply bind_Val_inv in Hrun as (re & w1 & _ & Hrun).
    apply bind_Val_inv in Hrun as ([] & w3 & _ & Hrun).
    apply bind_Val_inv in Hrun as (w4 & w5 & _ & Hrun).
    apply bind_Val_inv in Hrun as (found & w6 & Hcur & Hrun).
    apply bind_Val_inv in Hrun as ([] & w8 & _ & Hrun).
    apply bind_Val_inv in Hrun as (w9 & w10 & _ & Hrun).
    apply ret_Val_inv in Hrun as [-> ->].
    match goal with |- context [pages_of ?t _] =>
      destruct (pages_of_ceiling t L H1) as (n & Hn & Hceil) end.
    eexists _, _, n. split; [reflexivity|]. cbn [pg_page pg_limit pg_pages pg_total].
    rewrite List.length_map.
    split; [exact (cursor_length _ _ _ _ _ _ H1 Hcur)|]. done.
Qed.

End PaginationTheorems.

(** C8 as stated fails at [limit=0]: the only record of [alice] comes back,
    one item for a limit of zero, and [pages] is not a number. *)
Lemma limit_zero_is_no_limit :
  ∃ item pg,
    @route Demo.runtime 9 GetData (Demo.alice_lists_token "0") Demo.world
    = (Val (mkResponse 200 (SuccessList [item] pg)), Demo.world)
    ∧ pg_limit pg = Some 0 ∧ pg_total pg = 1%nat ∧ pg_pages pg = None
    ∧ ¬ (Z.of_nat (List.length [item]) ≤ 0).
Proof.
  eexists _, _. split; [vm_compute; reflexivity|]. simpl. repeat split. lia.
Qed.

(** [PUT /api/user/profile] builds its update object in the same way: a
    key is there only when the body defines it, with the value of the
    body. *)
Lemma profile_updateFields_defined (body : jsval) (k : string) (v : jsval) :
  (k, v) ∈ profile_updateFields body →
  k ∈ ["firstName"; "lastName"; "preferences"]
  ∧ v = field body k ∧ v ≠ JUndefined.
Proof.
  unfold profile_updateFields. rewrite !elem_of_app.
  intros [H|[H|H]];
    match type of H with
    | _ ∈ (if is_undefined ?x then _ else _) => destruct x eqn:E; simpl in H
    end;
    try (by apply elem_of_nil in H);
    apply list_elem_of_singleton in H; injection H as -> ->;
    (split; [set_solver|]); rewrite E; done.
Qed.

Section UpdateTheorems.
Context `{RT : Runtime}.

Lemma trimmed_if_defined_inv (v : jsval) (w : World) (o : option string)
    (w' : World) :
  trimmed_if_defined v w = (Val o, w') →
  w' = w ∧ (v = JUndefined → o = None).
Proof.
  unfold trimmed_if_defined. destruct v; simpl; run; simpl;
    try done; intros [= <- <-]; by split.
Qed.

Lemma filter_tags_world (tags : list jsval) (w : World) (r : result (list string))
    (w' : World) :
  filter_tags tags w = (r, w') → w' = w.
Proof.
  revert r w'. induction tags as [|tag rest IH]; intros r w'; simpl.
  - by intros [= <- <-].
  - destruct tag; try (by intros [= <- <-]).
    run. destruct (filter_tags rest w) as [[kept|e] w1] eqn:E;
      intros [= <- <-]; by apply (IH _ _ eq_refl).
Qed.

Lemma tags_if_defined_inv (v : jsval) (w : World) (o : option (list string))
    (w' : World) :
  tags_if_defined v w = (Val o, w') →
  w' = w ∧ (v = JUndefined → o = None).
Proof.
  unfold tags_if_defined. destruct v; try (intros [= <- <-]; by split).
  run. destruct (filter_tags l w) as [[kept|e] w1] eqn:E; [|done].
  intros [= <- <-]. split; [|done]. by apply filter_tags_world in E.
Qed.

(** The update object has no key that the body does not define, and an
    early return is a 400. *)
Lemma build_updateFields_inv (body : jsval) (w : World)
    (built : Response + UpdateFields) (w' : World) :
  build_updateFields body w = (Val built, w') →
  w' = w
  ∧ match built with
    | inl early => status early = 400%nat
    | inr upd =>
        (field body "title" = JUndefined → upd_title upd = None)
        ∧ (field body "description" = JUndefined → upd_description upd = None)
        ∧ (field body "category" = JUndefined → upd_category upd = None)
        ∧ (field body "value" = JUndefined → upd_value upd = None)
        ∧ (field body "unit" = JUndefined → upd_unit upd = None)
        ∧ (field body "tags" = JUndefined → upd_tags upd = None)
        ∧ (field body "status" = JUndefined → upd_status upd = None)
        ∧ (field body "isPublic" = JUndefined → upd_isPublic upd = None)
        ∧ (∀ s, field body "status" = JStr s → upd_status upd = Some s)
    end.
Proof.
  unfold build_updateFields. intros H.
  apply bind_Val_inv in H as (title & w1 & Ht & H).
  apply trimmed_if_defined_inv in Ht as [-> Ht].
  apply bind_Val_inv in H as (description & w2 & Hd & H).
  apply trimmed_if_defined_inv in Hd as [-> Hd].
  destruct (enum_if_defined validCategories (field body "category"))
    as [category|] eqn:Hc; [|by apply ret_Val_inv in H as [-> ->]].
  destruct (value_if_defined (field body "value")) as [value|] eqn:Hv;
    [|by apply ret_Val_inv in H as [-> ->]].
  apply bind_Val_inv in H as (unit_ & w3 & Hun & H).
  apply trimmed_if_defined_inv in Hun as [-> Hun].
  apply bind_Val_inv in H as (tags & w4 & Htg & H).
  apply tags_if_defined_inv in Htg as [-> Htg].
  destruct (enum_if_defined validStatuses (field body "status"))
    as [status_|] eqn:Hst; [|by apply ret_Val_inv in H as [-> ->]].
  apply ret_Val_inv in H as [-> ->]. split; [done|]. simpl.
  repeat split; try done.
  - intros E. rewrite E in Hc. by injection Hc as <-.
  - intros E. rewrite E in Hv. by injection Hv as <-.
  - intros E. rewrite E in Hst. by injection Hst as <-.
  - intros E. by rewrite E.
  - intros s E. rewrite E in Hst. unfold enum_if_defined, included in Hst.
    simpl in Hst. repeat case_match; by simplify_eq.
Qed.

Lemma Data_findById_inv (id : string) (w : World) (d : Data) (w' : World) :
  Data_findById (JStr id) w = (Val (Some d), w') →
  ∃ o, castObjectId (JStr id) = Some o ∧ datas w !! o = Some d
       ∧ same_stores w w'.
Proof.
  intros H.
  pose proof (keeps_Data_findById _ frame_same_stores _ _ _ _ H) as Hsame.
  unfold Data_findById, castId in H. simpl in H.
  destruct (castObjectId (JStr id)) as [o|]; [|done].
  exists o. split; [done|]. split; [|done].
  run. destruct (roundtrip w) as [[[]|e] w1] eqn:E; [|done].
  injection H as H <-. destruct Hsame as [_ Hd]. by rewrite <- Hd.
Qed.

Lemma Data_findByIdAndUpdate_inv (id : string) (o : string) (upd : UpdateFields)
    (now : Z) (w : World) (updated : option Data) (w' : World) :
  castObjectId (JStr id) = Some o →
  Data_findByIdAndUpdate (JStr id) upd now w = (Val updated, w') →
  users w' = users w
  ∧ match datas w !! o with
    | Some d => ∃ isPublic,
        (upd_isPublic upd = None → isPublic = None)
        ∧ updated = Some (apply_set upd isPublic now d)
        ∧ datas w' = <[o := apply_set upd isPublic now d]> (datas w)
    | None => updated = None ∧ datas w' = datas w
    end.
Proof.
  intros Hc. unfold Data_findByIdAndUpdate, castId. simpl. rewrite Hc. run.
  set (cast := match upd_isPublic upd with
               | Some v => match castBoolean v with
                           | Some b => _
                           | None => _
                           end
               | None => _
               end).
  assert (∀ w0, (∃ isPublic, cast w0 = (Val isPublic, w0)
                      ∧ (upd_isPublic upd = None → isPublic = None))
                ∨ ∃ e, cast w0 = (Throw e, w0)) as Hcast.
  { intros w0. subst cast. destruct (upd_isPublic upd) as [v|].
    - destruct (castBoolean v); [left|right]; eauto. eexists. by split.
    - left. eexists. by split. }
  destruct (Hcast w) as [(isPublic & -> & HisP)|[e ->]]; [|done].
  destruct (update_errors upd); [|done].
  unfold roundtrip.
  destruct (faults w) as [|[e|] fs]; simpl; try done;
    (destruct (datas w !! o) as [d|] eqn:Hd; intros [= <- <-]; simpl;
     (split; [done|]); eauto).
Qed.

(** C6: a successful [PUT /api/data/:id] rewrites the one record that
    [:id] names, and in it only fields that the body defines: each of
    [title], [description], [category], [value], [unit], [tags], [status]
    and [isPublic] that the body omits keeps its value, and so do [_id],
    the owner, [metadata] and [createdAt], which no body can name.  In
    particular a body holding only [status] leaves [title], [value] and
    [tags] as they were, and sets [status] to what it gives.  (The store
    refreshes its own [updatedAt] time stamp on every update.) *)
Theorem partial_update_keeps_omitted_fields (now : Z) (req : Request) (w : World)
    (r : Response) (w' : World) :
  put_data_by_id now req w = (Val r, w') →
  status r = 200%nat →
  ∃ o d d',
    castObjectId (JStr (req_params_id req)) = Some o
    ∧ datas w !! o = Some d
    ∧ datas w' = <[o := d']> (datas w)
    ∧ users w' = users w
    ∧ (field (req_body req) "title" = JUndefined → data_title d' = data_title d)
    ∧ (field (req_body req) "description" = JUndefined →
       data_description d' = data_description d)
    ∧ (field (req_body req) "category" = JUndefined →
       data_category d' = data_category d)
    ∧ (field (req_body req) "value" = JUndefined → data_value d' = data_value d)
    ∧ (field (req_body req) "unit" = JUndefined → data_unit d' = data_unit d)
    ∧ (field (req_body req) "tags" = JUndefined → data_tags d' = data_tags d)
    ∧ (field (req_body req) "status" = JUndefined →
       data_status d' = data_status d)
    ∧ (field (req_body req) "isPublic" = JUndefined →
       data_isPublic d' = data_isPublic d)
    ∧ data_id d' = data_id d
    ∧ data_user d' = data_user d
    ∧ data_metadata d' = data_metadata d
    ∧ data_createdAt d' = data_createdAt d
    ∧ (∀ s, req_body req = JObj [("status", JStr s)] →
            data_title d' = data_title d ∧ data_value d' = data_value d
            ∧ data_tags d' = data_tags d ∧ data_status d' = s).
Proof.
  intros Hrun Hs. unfold put_data_by_id in Hrun.
  apply try_catch_success with (code := 200%nat) in Hrun; [| |done].
  2:{ intros e w1 r1 w2. repeat case_match; by intros [= <- _]. }
  cbv zeta in Hrun.
  apply bind_Val_inv in Hrun as ([] & w1 & Hdes & Hrun).
  pose proof (keeps_destructure _ frame_same_stores _ _ _ _ Hdes) as S1.
  apply bind_Val_inv in Hrun as (found & w2 & Hfind & Hrun).
  destruct found as [d|]; [|apply ret_Val_inv in Hrun as [-> _]; done].
  apply Data_findById_inv in Hfind as (o & Hcast & Hd & S2).
  apply bind_Val_inv in Hrun as (u & w3 & Hcur & Hrun).
  pose proof (keeps_current_user _ frame_same_stores _ _ _ _ Hcur) as S3.
  destruct (negb _); [apply ret_Val_inv in Hrun as [-> _]; done|].
  apply bind_Val_inv in Hrun as (built & w4 & Hbuilt & Hrun).
  apply build_updateFields_inv in Hbuilt as [-> Hbuilt].
  destruct built as [early|upd]; [apply ret_Val_inv in Hrun as [-> _]; congruence|].
  apply bind_Val_inv in Hrun as (updated & w5 & Hupd & Hrun).
  apply (Data_findByIdAndUpdate_inv _ _ _ _ _ _ _ Hcast) in Hupd as [Hu5 Hupd].
  assert (users w3 = users w ∧ datas w3 = datas w ∧ datas w1 = datas w)
    as (Hu3 & Hd3 & Hd1).
  { destruct S1 as [? ?], S2 as [? ?], S3 as [? ?]. repeat split; congruence. }
  rewrite Hd1 in Hd. rewrite Hd3, Hd in Hupd.
  destruct Hupd as (isPublic & HisP & -> & Hd5).
  apply bind_Val_inv in Hrun as (updatedData & w6 & Hpop & Hrun).
  apply bind_Val_inv in Hpop as (p & w7 & Hpop & Hret).
  apply ret_Val_inv in Hret as [-> ->].
  pose proof (keeps_populate _ frame_same_stores _ _ _ _ Hpop) as [Hu7 Hd7].
  apply ret_Val_inv in Hrun as [-> ->].
  destruct Hbuilt as (Ht & Hde & Hc & Hv & Hun & Htg & Hst & Hip & Hst').
  exists o, d, (apply_set upd isPublic now d).
  split; [done|]. split; [done|].
  split; [congruence|]. split; [congruence|].
  simpl.
  do 8 (split;
        [ intros E;
          first [ rewrite (Ht E) | rewrite (Hde E) | rewrite (Hc E)
                | rewrite (Hv E) | rewrite (Hun E) | rewrite (Htg E)
                | rewrite (Hst E) | rewrite (HisP (Hip E)) ];
          reflexivity |]).
  do 4 (split; [reflexivity|]).
  intros s Hbody. rewrite Hbody in *. simpl in *.
  rewrite Ht, Hv, Htg, (Hst' s) by done. done.
Qed.

End UpdateTheorems.

(** ** Runs that go through *)

Section Totality.
Context `{RT : Runtime}.

(** On a healthy database the owner's update of [status] alone goes
    through: the record is rewritten with the new status and a fresh
    [updatedAt], and nothing else. *)
Lemma status_only_update_succeeds (now : Z) (req : Request) (w : World)
    (u : User) (o : string) (d : Data) (s : string) :
  req_user req = Some u →
  faults w = [] →
  castObjectId (JStr (req_params_id req)) = Some o →
  datas w !! o = Some d →
  data_user d = user_id u →
  req_body req = JObj [("status", JStr s)] →
  s ∈ validStatuses →
  ∃ r w',
    put_data_by_id now req w = (Val r, w')
    ∧ status r = 200%nat
    ∧ datas w' =
        <[o := mkData (data_id d) (data_title d) (data_description d)
                  (data_category d) (data_value d) (data_unit d) s (data_tags d)
                  (data_metadata d) (data_user d) (data_isPublic d)
                  (data_createdAt d) now]> (datas w).
Proof.
  intros Hu Hf Hc Hd Hown Hbody Hs.
  assert (existsb (String.eqb s) validStatuses = true) as Hex.
  { apply existsb_exists. exists s. split; [by apply list_elem_of_In|].
    apply String.eqb_refl. }
  simpl in Hex.
  unfold put_data_by_id. rewrite Hbody. unfold destructure. simpl. run.
  rewrite (Data_findById_healthy _ _ _ Hf Hc), Hd.
  unfold current_user. rewrite Hu. simpl.
  assert (String.eqb (data_user d) (user_id u) = true) as Hcmp
    by (by apply String.eqb_eq).
  unfold toString. rewrite Hcmp. simpl.
  unfold build_updateFields, trimmed_if_defined, tags_if_defined,
    enum_if_defined, value_if_defined, included. simpl.
  rewrite Hex. simpl.
  unfold Data_findByIdAndUpdate, castId, update_errors, validate_status.
  simpl. rewrite Hc, Hex. simpl. run.
  rewrite (roundtrip_healthy _ Hf), Hd. simpl.
  unfold populate, roundtrip. run. simpl. rewrite Hf. simpl.
  eexists _, _. split; [reflexivity|]. split; [reflexivity|]. reflexivity.
Qed.

(** Integers of at most 53 bits are doubles. *)
Lemma to_double_exact (n : Z) : Z.abs n < 2 ^ 53 → to_double n = Some n.
Proof.
  intros Hn. unfold to_double.
  destruct (Z.leb_spec (Z.log2 (Z.abs n) - 52) 0) as [|Hgt]; [done|].
  exfalso. destruct (Z.eq_dec (Z.abs n) 0) as [E|E].
  - rewrite E in Hgt. simpl in Hgt. lia.
  - assert (Z.log2 (Z.abs n) < 53); [|lia].
    apply Z.log2_lt_pow2; lia.
Qed.

(** Beyond 53 bits [parseInt] rounds as the doubles do. *)
Example parseInt_rounds :
  parseInt "9007199254740993" = Some 9007199254740992
  ∧ parseInt "9007199254740995" = Some 9007199254740996
  ∧ parseInt " -0x1F rest" = Some (-31)
  ∧ parseInt "" = None.
Proof. repeat split. Qed.

(** On a healthy database a list request with [page >= 1], [limit >= 1],
    a skip of at most 53 bits and no [search] is answered 200. *)
Lemma get_data_answers (req : Request) (w : World) (u : User) (P L : Z) :
  req_user req = Some u →
  faults w = [] →
  int_param (req_query req) "page" 1 = Some P → 1 ≤ P →
  int_param (req_query req) "limit" 10 = Some L → 1 ≤ L →
  (P - 1) * L < 2 ^ 53 →
  req_query req !! "search" = None →
  ∃ r, get_data req w = (Val r, w) ∧ status r = 200%nat.
Proof.
  intros Hu Hf HP H1P HL H1L Hskip Hsearch.
  unfold get_data, current_user. cbv zeta.
  rewrite Hu, HP, HL, Hsearch. simpl. run.
  unfold populate_all, roundtrip. rewrite Hf.
  unfold skip_of.
  rewrite (to_double_exact (P - 1)) by (rewrite Z.abs_eq by lia; nia).
  rewrite (to_double_exact ((P - 1) * L)) by (rewrite Z.abs_eq by nia; lia).
  destruct (Z.ltb_spec ((P - 1) * L) 0); [nia|].
  destruct (Z.eqb_spec L 0); [lia|].
  match goal with |- context [take ?n ?l] => destruct (take n l) end;
    run; rewrite ?Hf; eauto.
Qed.

End Totality.

(** ** The theorems at work on the example world *)

(** An expired token: refused by the required middleware, let through
    without identity by the optional one. *)
Example expired_token_required_and_optional :
  @authenticateToken Demo.runtime
     (Demo.request (Some "Bearer expired") "" [] JUndefined None) Demo.world
  = (Val (Responded (rejected 401 "Token expired.")), Demo.world)
  ∧ @optionalAuth Demo.runtime
       (Demo.request (Some "Bearer expired") "" [] JUndefined None) Demo.world
    = (Val (Next (Demo.request (Some "Bearer expired") "" [] JUndefined None)),
       Demo.world).
Proof. split; reflexivity. Qed.


Lemma owner_set_at_creation_then_fixed_witness :
  ∃ d',
    datas (@handler Demo.runtime 9 (PostData Demo.rec3_id) Demo.alice_creates
             Demo.world).2 !! Demo.rec3_id = Some d'
    ∧ ((∃ d, datas Demo.world !! Demo.rec3_id = Some d
             ∧ data_user d' = data_user d)
       ∨ (datas Demo.world !! Demo.rec3_id = None
          ∧ PostData Demo.rec3_id = PostData Demo.rec3_id
          ∧ data_user d' = user_id Demo.alice)).
Proof.
  eexists. split; [vm_compute; reflexivity|].
  apply (@owner_set_at_creation_then_fixed Demo.runtime 9 (PostData Demo.rec3_id)
           Demo.alice_creates Demo.alice Demo.world
           (@handler Demo.runtime 9 (PostData Demo.rec3_id) Demo.alice_creates
              Demo.world).1
           (@handler Demo.runtime 9 (PostData Demo.rec3_id) Demo.alice_creates
              Demo.world).2).
  - reflexivity.
  - apply surjective_pairing.
  - vm_compute. reflexivity.
Defined.

(** The record that [alice] creates is stored under the new [_id] with her
    as owner, active and without tags. *)
Example alice_creates_her_record :
  ∃ r w' d,
    @route Demo.runtime 9 (PostData Demo.rec3_id)
       (Demo.alice_sends (req_body Demo.alice_creates)) Demo.world
    = (Val r, w')
    ∧ status r = 201%nat
    ∧ datas w' !! Demo.rec3_id = Some d
    ∧ data_user d = Demo.alice_id
    ∧ data_status d = "active" ∧ data_tags d = []
    ∧ Qeq (data_value d) (42 # 1).
Proof.
  eexists _, _, _. split; [vm_compute; reflexivity|].
  split; [reflexivity|]. split; [vm_compute; reflexivity|]. by repeat split.
Qed.

Lemma account_deletion_cascades_witness :
  ∃ w', delete_user_account (Demo.alice_sends (JObj [])) Demo.world
        = (Val (mkResponse 200 (Success "Account deleted successfully")), w')
        ∧ faults w' = []
        ∧ users w' = delete (user_id Demo.alice) (users Demo.world)
        ∧ owned_by (user_id Demo.alice) w' = ∅
        ∧ (∀ k d, datas w' !! k = Some d ↔
                  datas Demo.world !! k = Some d ∧ data_user d ≠ user_id Demo.alice)
        ∧ (∀ req2 k d,
             @castObjectId Demo.runtime (JStr (req_params_id req2)) = Some k →
             datas Demo.world !! k = Some d → data_user d = user_id Demo.alice →
             @get_data_by_id Demo.runtime req2 w'
             = (Val (rejected 404 "Data record not found"), w')).
Proof.
  apply (proj1 (@account_deletion_cascades Demo.runtime
                  (Demo.alice_sends (JObj [])) Demo.world Demo.alice eq_refl));
    reflexivity.
Defined.

Lemma account_deletion_ignores_password_witness :
  @route Demo.runtime 9 DeleteUserAccount
     (Demo.alice_sends (JObj [("password", JStr "hunter2")])) Demo.world
  = @route Demo.runtime 9 DeleteUserAccount (Demo.alice_sends (JObj [])) Demo.world
  ∧ delete_user_account
      (Demo.alice_sends (JObj [("password", JStr "hunter2")])) Demo.world
    = delete_user_account (Demo.alice_sends (JObj [])) Demo.world.
Proof.
  apply (@account_deletion_ignores_password Demo.runtime 9).
  repeat split; try reflexivity.
  exists [("password", JStr "hunter2")], []. repeat split; try reflexivity.
  intros k Hk. simpl. destruct (String.eqb_spec k "password"); done.
Defined.

Lemma post_data_refuses_bad_category_and_value_witness :
  (∃ msg, @post_data Demo.runtime Demo.rec3_id 9 Demo.alice_creates_bogus Demo.world
          = (Val (rejected 400 msg), Demo.world))
  ∧ (∃ msg, @post_data Demo.runtime Demo.rec3_id 9 Demo.alice_creates_bogus Demo.world
            = (Val (rejected 400 msg), Demo.world)).
Proof.
  destruct (@post_data_refuses_bad_category_and_value Demo.runtime Demo.rec3_id 9
              Demo.alice_creates_bogus Demo.world eq_refl) as [Hcat Hval].
  split.
  - apply Hcat. intros s [= <-] Hin.
    repeat (apply elem_of_cons in Hin as [Hin|Hin]; [discriminate|]).
    by apply elem_of_nil in Hin.
  - apply Hval. intros q [= <-]. reflexivity.
Defined.

Lemma page_within_limit_witness :
  ∃ r w',
    @get_data Demo.runtime (Demo.alice_lists "1") Demo.world = (Val r, w')
    ∧ ∃ data pg n,
        payload r = SuccessList data pg
        ∧ Z.of_nat (List.length data) ≤ 1
        ∧ pg_page pg = int_param (req_query (Demo.alice_lists "1")) "page" 1
        ∧ pg_limit pg = Some 1
        ∧ pg_pages pg = Some n
        ∧ (n - 1) * 1 < Z.of_nat (pg_total pg) ≤ n * 1.
Proof.
  eexists _, _. split; [vm_compute; reflexivity|].
  eapply (proj1 (@page_within_limit Demo.runtime (Demo.alice_lists "1") Demo.alice
                   1 Demo.world _ _ eq_refl _ _ _)).
  vm_compute. reflexivity.
  Unshelve.
  - vm_compute. reflexivity.
  - lia.
  - reflexivity.
Defined.

Lemma partial_update_keeps_omitted_fields_witness :
  ∃ r w',
    @put_data_by_id Demo.runtime 9 Demo.alice_sets_status Demo.world = (Val r, w')
    ∧ ∃ o d d',
        @castObjectId Demo.runtime (JStr (req_params_id Demo.alice_sets_status))
        = Some o
        ∧ datas Demo.world !! o = Some d
        ∧ datas w' = <[o := d']> (datas Demo.world)
        ∧ data_title d' = data_title d ∧ data_value d' = data_value d
        ∧ data_tags d' = data_tags d ∧ data_status d' = "inactive".
Proof.
  eexists _, _. split; [vm_compute; reflexivity|].
  edestruct (@partial_update_keeps_omitted_fields Demo.runtime 9
               Demo.alice_sets_status Demo.world)
    as (o & d & d' & Hc & Hd & Hw & _ & _ & _ & _ & _ & _ & _ & _ & _ & _ & _ & _ & _ & Hs).
  - vm_compute. reflexivity.
  - reflexivity.
  - exists o, d, d'. destruct (Hs "inactive" eq_refl) as (? & ? & ? & ?).
    repeat split; assumption.
Defined.

(* ================================================================== *)
(** * Further properties of the routes *)

(** ** The [Authorization] header *)

Section HeaderTheorems.
Context `{RT : Runtime}.

(** Two requests with the same token are treated alike. *)
Lemma authenticateToken_token_only (r1 r2 : Request) (w : World) :
  header_token r1 = header_token r2 →
  (∃ x w', authenticateToken r1 w = (Val (Responded x), w')
           ∧ authenticateToken r2 w = (Val (Responded x), w'))
  ∨ (∃ u w', authenticateToken r1 w = (Val (Next (set_user u r1)), w')
             ∧ authenticateToken r2 w = (Val (Next (set_user u r2)), w')).
Proof.
  intros Ht.
  destruct (token_given (header_token r1)) eqn:Hg.
  - apply token_given_Some in Hg as (t & Ht1 & Hne).
    assert (header_token r2 = Some t) as Ht2 by congruence.
    destruct (jwt_verify t) as [decoded|e] eqn:Hv.
    + rewrite (authenticateToken_verified _ _ _ _ Ht1 Hne Hv),
        (authenticateToken_verified _ _ _ _ Ht2 Hne Hv).
      destruct (decoded_user decoded w) as [[[u|]|e] w1];
        repeat case_match; eauto.
    + rewrite (authenticateToken_unverified _ _ _ _ Ht1 Hne Hv),
        (authenticateToken_unverified _ _ _ _ Ht2 Hne Hv).
      repeat case_match; eauto.
  - rewrite (authenticateToken_no_token r1) by done.
    rewrite (authenticateToken_no_token r2) by congruence. eauto.
Qed.

(** X1: the token is cut out of the header by position alone.  A header
    [<word> <token>] of two words yields [<token>] whatever the first word
    is, and [authenticateToken] then does what it does for
    [Bearer <token>]; a header of one word, such as a bare token, yields no
    token and is answered 401. *)
Theorem header_scheme_is_not_checked (req : Request) (w : World)
    (word token : string) :
  has_space word = false → has_space token = false → token ≠ "" →
  header_token (with_authorization (word ++ " " ++ token) req) = Some token
  ∧ (∀ r w', authenticateToken (with_authorization ("Bearer " ++ token) req) w
             = (Val (Responded r), w') →
             authenticateToken (with_authorization (word ++ " " ++ token) req) w
             = (Val (Responded r), w'))
  ∧ (∀ u w', authenticateToken (with_authorization ("Bearer " ++ token) req) w
             = (Val (Next (set_user u (with_authorization ("Bearer " ++ token) req))),
                w') →
             authenticateToken (with_authorization (word ++ " " ++ token) req) w
             = (Val (Next (set_user u (with_authorization (word ++ " " ++ token) req))),
                w'))
  ∧ authenticateToken (with_authorization token req) w
    = (Val (Responded (rejected 401 "Access denied. No token provided.")), w).
Proof.
  intros Hw Ht Hne.
  assert (∀ wd, has_space wd = false →
            header_token (with_authorization (wd ++ " " ++ token) req) = Some token)
    as Hcut.
  { intros wd Hwd. unfold header_token. simpl.
    destruct (String.eqb_spec (wd ++ " " ++ token) ""); [by destruct wd|].
    by rewrite (split_word _ _ Hwd), (split_spaceless _ Ht). }
  split; [by apply Hcut|].
  pose proof (Hcut "Bearer" eq_refl) as Hb. specialize (Hcut word Hw).
  destruct (authenticateToken_token_only
              (with_authorization ("Bearer " ++ token) req)
              (with_authorization (word ++ " " ++ token) req) w
              ltac:(transitivity (Some token); [exact Hb|symmetry; exact Hcut]))
    as [(x & w1 & H1 & H2)|(u1 & w1 & H1 & H2)].
  - split; [|split].
    + intros r w' H. rewrite H1 in H. by injection H as <- <-.
    + intros u w' H. rewrite H1 in H. discriminate.
    + apply authenticateToken_no_token. unfold header_token. simpl.
      destruct (String.eqb_spec token ""); [done|].
      by rewrite (split_spaceless _ Ht).
  - split; [|split].
    + intros r w' H. rewrite H1 in H. discriminate.
    + intros u w' H. rewrite H1 in H. unfold set_user in H.
      simplify_eq. exact H2.
    + apply authenticateToken_no_token. unfold header_token. simpl.
      destruct (String.eqb_spec token ""); [done|].
      by rewrite (split_spaceless _ Ht).
Qed.

End HeaderTheorems.

Lemma header_scheme_is_not_checked_witness :
  header_token
     (with_authorization ("Token" ++ " " ++ "id:64b7f0a1c2d3e4f5a6b7c8d9")
                         Demo.anonymous)
  = Some "id:64b7f0a1c2d3e4f5a6b7c8d9".
Proof.
  apply (@header_scheme_is_not_checked Demo.runtime Demo.anonymous Demo.world
           "Token" "id:64b7f0a1c2d3e4f5a6b7c8d9"); [reflexivity|reflexivity|discriminate].
Defined.

(** ** What the middlewares and the read routes never do *)

Lemma try_catch_answers {A} (c : M A) (h : exn → M A) (w : World) :
  (∀ e w1, ∃ a w2, h e w1 = (Val a, w2)) →
  ∃ a w', try_catch c h w = (Val a, w').
Proof.
  intros Hh. unfold try_catch. destruct (c w) as [[a|e] w1]; eauto.
Qed.

Section NeverTheorems.
Context `{RT : Runtime}.

(** X2: [authenticateToken], [optionalAuth], [GET /api/data],
    [GET /api/data/:id] and [GET /api/user/search] write nothing: both
    collections are the same after as before, whatever the request and
    whatever the database does. *)
Theorem reads_write_nothing (req : Request) (w w' : World) :
  (∃ o, authenticateToken req w = (o, w'))
  ∨ (∃ o, optionalAuth req w = (o, w'))
  ∨ (∃ r, get_data req w = (r, w'))
  ∨ (∃ r, get_data_by_id req w = (r, w'))
  ∨ (∃ r, get_user_search req w = (r, w')) →
  users w' = users w ∧ datas w' = datas w.
Proof.
  pose proof frame_same_stores as HP.
  intros [[o H]|[[o H]|[[r H]|[[r H]|[r H]]]]]; revert H.
  - apply (keeps_authenticateToken _ HP).
  - apply (keeps_optionalAuth _ HP).
  - apply (keeps_get_data _ HP).
  - apply (keeps_get_data_by_id _ HP).
  - apply (keeps_get_user_search _ HP).
Qed.

Lemma behind_authenticateToken_answers {A} (h : Request → M A) (req : Request)
    (w : World) :
  (∀ req0 w0, ∃ a w', h req0 w0 = (Val a, w')) →
  ∃ a w', behind_authenticateToken h req w = (Val a, w').
Proof.
  intros Hh. unfold behind_authenticateToken. run.
  assert (∃ o w1, authenticateToken req w = (Val o, w1)) as (o & w1 & ->).
  { unfold authenticateToken. apply try_catch_answers.
    intros e w1. repeat case_match; unfold ret; eauto. }
  destruct o as [r|req']; [eauto|].
  destruct (Hh req' w1) as (a & w' & ->). eauto.
Qed.

(** X3: no route lets an exception out.  Whatever the request, the body,
    the token, the user model and the faults of the database, each of the
    eleven handlers of the data router and of the user router ends in a
    response, alone and behind [authenticateToken]. *)
Theorem routes_always_answer `{UM : UserModel} (now : Z) (c : ApiCall)
    (req : Request) (w : World) :
  (∃ r w', handler now c req w = (Val r, w'))
  ∧ (∃ r w', route now c req w = (Val r, w'))
  ∧ (∃ r w', get_stats_summary req w = (Val r, w'))
  ∧ (∃ r w', get_user_stats req w = (Val r, w'))
  ∧ (∃ r w', get_user_profile req w = (Val r, w'))
  ∧ (∃ r w', put_user_profile req w = (Val r, w'))
  ∧ (∃ a w', behind_authenticateToken get_stats_summary req w = (Val a, w'))
  ∧ (∃ a w', behind_authenticateToken get_user_stats req w = (Val a, w'))
  ∧ (∃ a w', behind_authenticateToken get_user_profile req w = (Val a, w'))
  ∧ (∃ a w', behind_authenticateToken put_user_profile req w = (Val a, w')).
Proof.
  assert (∀ req0 w0, ∃ r w', handler now c req0 w0 = (Val r, w')) as Hh.
  { intros req0 w0.
    destruct c; simpl;
      [ unfold post_data | unfold get_data | unfold get_data_by_id
      | unfold put_data_by_id | unfold delete_data_by_id
      | unfold delete_user_account | unfold get_user_search ];
      apply try_catch_answers; intros e w1; repeat case_match;
      unfold ret; eauto. }
  assert (∀ req0 w0, ∃ r w', get_stats_summary req0 w0 = (Val r, w')) as H1.
  { intros req0 w0. unfold get_stats_summary. apply try_catch_answers.
    intros e w1. unfold ret. eauto. }
  assert (∀ req0 w0, ∃ r w', get_user_stats req0 w0 = (Val r, w')) as H2.
  { intros req0 w0. unfold get_user_stats. apply try_catch_answers.
    intros e w1. unfold ret. eauto. }
  assert (∀ req0 w0, ∃ r w', get_user_profile req0 w0 = (Val r, w')) as H3.
  { intros req0 w0. unfold get_user_profile. apply try_catch_answers.
    intros e w1. unfold ret. eauto. }
  assert (∀ req0 w0, ∃ r w', put_user_profile req0 w0 = (Val r, w')) as H4.
  { intros req0 w0. unfold put_user_profile. apply try_catch_answers.
    intros e w1. repeat case_match; unfold ret; eauto. }
  split; [apply Hh|]. split.
  { unfold route. run.
    assert (∃ o w1, authenticateToken req w = (Val o, w1)) as (o & w1 & ->).
    { unfold authenticateToken. apply try_catch_answers.
      intros e w1. repeat case_match; unfold ret; eauto. }
    destruct o as [r|req']; [eauto|apply Hh]. }
  split; [apply H1|]. split; [apply H2|]. split; [apply H3|]. split; [apply H4|].
  split; [by apply behind_authenticateToken_answers|].
  split; [by apply behind_authenticateToken_answers|].
  split; by apply behind_authenticateToken_answers.
Qed.

End NeverTheorems.

(** ** The authorization checks, and the two authentications side by side *)

(** X4: with an identity attached, [requireAdmin] lets the request through
    exactly for the role [admin], and [requireOwnership(id)] exactly for
    the owner or an administrator, the request going on unchanged; built on
    an [undefined] or [null] owner, [requireOwnership] throws [TypeError]
    for every identity, administrators included, since the identifiers are
    compared before the role is looked at. *)
Theorem authorization_lets_through (req : Request) (u : User) (rid : string) :
  req_user req = Some u →
  (requireAdmin req = Next req ↔ user_role u = "admin")
  ∧ (requireOwnership (Some rid) req = Val (Next req) ↔
     user_id u = rid ∨ user_role u = "admin")
  ∧ (∀ o, requireAdmin req = Next o → o = req)
  ∧ (∀ o, requireOwnership (Some rid) req = Val (Next o) → o = req)
  ∧ requireOwnership None req = Throw TypeError.
Proof.
  intros Hu. unfold requireAdmin, requireOwnership, toString. rewrite Hu.
  destruct (String.eqb_spec (user_role u) "admin") as [Hr|Hr];
    destruct (String.eqb_spec (user_id u) rid) as [Hi|Hi]; simpl;
    repeat split; try done; try tauto; try (intros; simplify_eq; done);
    intros [?|?]; done.
Qed.

Lemma authorization_lets_through_witness :
  requireOwnership (Some Demo.bob_id) Demo.root_on_bob = Val (Next Demo.root_on_bob)
  ↔ user_id Demo.root = Demo.bob_id ∨ user_role Demo.root = "admin".
Proof.
  apply (authorization_lets_through Demo.root_on_bob Demo.root Demo.bob_id).
  reflexivity.
Defined.

Section SideBySide.
Context `{RT : Runtime}.

(** X5: the optional middleware follows the required one.  When
    [authenticateToken] lets a request through with a user, [optionalAuth]
    lets it through with the same user; when [authenticateToken] answers
    (401 or 500), [optionalAuth] lets the request through as it came.  Both
    leave the same world. *)
Theorem optional_follows_required (req : Request) (w : World) :
  (∀ req' w', authenticateToken req w = (Val (Next req'), w') →
              optionalAuth req w = (Val (Next req'), w'))
  ∧ (∀ r w', authenticateToken req w = (Val (Responded r), w') →
             optionalAuth req w = (Val (Next req), w')).
Proof.
  destruct (token_given (header_token req)) eqn:Hg.
  - apply token_given_Some in Hg as (t & Ht & Hne).
    destruct (jwt_verify t) as [decoded|e] eqn:Hv.
    + rewrite (authenticateToken_verified _ _ _ _ Ht Hne Hv),
        (optionalAuth_verified _ _ _ _ Ht Hne Hv).
      destruct (decoded_user decoded w) as [[[u|]|e] w1];
        split; intros; repeat case_match; by simplify_eq.
    + rewrite (authenticateToken_unverified _ _ _ _ Ht Hne Hv),
        (optionalAuth_unverified _ _ _ _ Ht Hne Hv).
      split; intros; repeat case_match; by simplify_eq.
  - rewrite (authenticateToken_no_token _ _ Hg), (optionalAuth_no_token _ _ Hg).
    split; intros; by simplify_eq.
Qed.

End SideBySide.

Lemma optional_follows_required_witness :
  @optionalAuth Demo.runtime Demo.carol_token Demo.world
  = (Val (Next Demo.carol_token), Demo.world).
Proof.
  apply (proj2 (@optional_follows_required Demo.runtime Demo.carol_token Demo.world)
           (rejected 401 "Account is deactivated.")).
  vm_compute. reflexivity.
Defined.

Lemma reads_write_nothing_witness :
  users (@get_data Demo.runtime (Demo.alice_lists "1") Demo.world).2
  = users Demo.world
  ∧ datas (@get_data Demo.runtime (Demo.alice_lists "1") Demo.world).2
    = datas Demo.world.
Proof.
  apply (@reads_write_nothing Demo.runtime (Demo.alice_lists "1")).
  right. right. left.
  exists (@get_data Demo.runtime (Demo.alice_lists "1") Demo.world).1.
  apply surjective_pairing.
Defined.

(** ** The routes on one record: identifiers and owners *)

Section ByIdTheorems.
Context `{RT : Runtime}.

(** X6: an [:id] that cannot be cast to an [ObjectId] is answered 400
    "Invalid data ID" by [GET], [PUT] and [DELETE /api/data/:id] before the
    database is asked: the world, fault schedule included, is as it was.
    ([PUT] reads the body first and answers 500 when there is none.) *)
Theorem malformed_id_is_400 (now : Z) (req : Request) (w : World) :
  castObjectId (JStr (req_params_id req)) = None →
  get_data_by_id req w = (Val (rejected 400 "Invalid data ID"), w)
  ∧ delete_data_by_id req w = (Val (rejected 400 "Invalid data ID"), w)
  ∧ put_data_by_id now req w
    = (Val (if nullish (req_body req)
            then rejected 500 "Internal server error"
            else rejected 400 "Invalid data ID"), w).
Proof.
  intros Hc.
  unfold get_data_by_id, delete_data_by_id, put_data_by_id, destructure,
    Data_findById, castId.
  simpl. rewrite Hc. run. split; [done|]. split; [done|].
  by destruct (nullish (req_body req)).
Qed.

(** X7: on a healthy database an [:id] that names no record is answered
    404 "Data record not found" by the three routes, to any caller, and
    nothing changes. *)
Theorem unknown_id_is_404 (now : Z) (req : Request) (w : World) (o : string) :
  castObjectId (JStr (req_params_id req)) = Some o →
  datas w !! o = None →
  faults w = [] →
  get_data_by_id req w = (Val (rejected 404 "Data record not found"), w)
  ∧ delete_data_by_id req w = (Val (rejected 404 "Data record not found"), w)
  ∧ (nullish (req_body req) = false →
     put_data_by_id now req w = (Val (rejected 404 "Data record not found"), w)).
Proof.
  intros Hc Hd Hf.
  unfold get_data_by_id, delete_data_by_id, put_data_by_id, destructure. run.
  rewrite (Data_findById_healthy _ _ _ Hf Hc), Hd.
  split; [done|]. split; [done|]. intros ->. simpl.
  by rewrite (Data_findById_healthy _ _ _ Hf Hc), Hd.
Qed.

(** X8: the owner and the record.  On a healthy database, where documents
    are stored under their [_id] and the owner's document exists, the owner
    reads the stored record with the owner's name and email filled in; the
    owner's [DELETE] removes that record and no other and leaves the users
    alone; after it the same [:id] is answered 404 to everyone. *)
Theorem owner_reads_then_deletes (req : Request) (w : World) (u owner : User)
    (o : string) (d : Data) :
  req_user req = Some u →
  faults w = [] →
  keyed w →
  castObjectId (JStr (req_params_id req)) = Some o →
  datas w !! o = Some d →
  data_user d = user_id u →
  users w !! data_user d = Some owner →
  get_data_by_id req w
  = (Val (mkResponse 200
            (SuccessData None (Some (mkPopulated d (Some (user_ref owner)))))), w)
  ∧ ∃ w',
      delete_data_by_id req w
      = (Val (mkResponse 200 (Success "Data record deleted successfully")), w')
      ∧ datas w' = delete o (datas w)
      ∧ users w' = users w
      ∧ faults w' = []
      ∧ ∀ req2, req_params_id req2 = req_params_id req →
                get_data_by_id req2 w'
                = (Val (rejected 404 "Data record not found"), w').
Proof.
  intros Hu Hf [Hku _] Hc Hd Hown Ho.
  assert (String.eqb (data_user d) (user_id u) = true) as Hcmp
    by (by apply String.eqb_eq).
  split.
  - unfold get_data_by_id. run.
    rewrite (Data_findById_healthy _ _ _ Hf Hc), Hd.
    rewrite (populate_healthy _ _ Hf), Ho. simpl.
    unfold current_user. rewrite Hu. simpl.
    rewrite (Hku _ _ Ho). unfold toString. by rewrite Hcmp.
  - unfold delete_data_by_id. run.
    rewrite (Data_findById_healthy _ _ _ Hf Hc), Hd.
    unfold current_user. rewrite Hu. simpl. unfold toString. rewrite Hcmp. simpl.
    unfold Data_findByIdAndDelete, castId. simpl. rewrite Hc. run.
    rewrite (roundtrip_healthy _ Hf). simpl.
    eexists. split; [reflexivity|]. simpl. repeat split; try done.
    intros req2 Hid. unfold get_data_by_id. run.
    rewrite (Data_findById_healthy (req_params_id req2) o); simpl;
      [|done|by rewrite Hid].
    by rewrite lookup_delete_eq.
Qed.

End ByIdTheorems.

Lemma malformed_id_is_400_witness :
  @get_data_by_id Demo.runtime (with_params_id "not-an-id" Demo.root_on_bob)
     Demo.world
  = (Val (rejected 400 "Invalid data ID"), Demo.world).
Proof.
  apply (@malformed_id_is_400 Demo.runtime 9
           (with_params_id "not-an-id" Demo.root_on_bob) Demo.world).
  reflexivity.
Defined.

Lemma unknown_id_is_404_witness :
  @delete_data_by_id Demo.runtime (with_params_id Demo.rec3_id Demo.root_on_bob)
     Demo.world
  = (Val (rejected 404 "Data record not found"), Demo.world).
Proof.
  apply (@unknown_id_is_404 Demo.runtime 9
           (with_params_id Demo.rec3_id Demo.root_on_bob) Demo.world Demo.rec3_id);
    reflexivity.
Defined.

Lemma owner_reads_then_deletes_witness :
  @get_data_by_id Demo.runtime Demo.alice_sets_status Demo.world
  = (Val (mkResponse 200
            (SuccessData None
               (Some (mkPopulated (Demo.record Demo.rec1_id Demo.alice_id "CPU")
                                  (Some (user_ref Demo.alice)))))), Demo.world).
Proof.
  apply (@owner_reads_then_deletes Demo.runtime Demo.alice_sets_status Demo.world
           Demo.alice Demo.alice Demo.rec1_id
           (Demo.record Demo.rec1_id Demo.alice_id "CPU"));
    try reflexivity.
  exact demo_world_keyed.
Defined.

(** ** Trimming *)

Lemma trim_start_clean (s : string) :
  match trim_start s with
  | String c _ => is_space c = false
  | EmptyString => True
  end.
Proof.
  induction s as [|c s IH]; simpl; [done|].
  destruct (is_space c) eqn:E; [done|]. simpl. done.
Qed.

Lemma trim_start_id (s : string) :
  match s with
  | String c _ => is_space c = false
  | EmptyString => True
  end →
  trim_start s = s.
Proof. destruct s as [|c s]; simpl; [done|]. by intros ->. Qed.

Lemma trim_end_head (s : string) :
  match s with
  | String c _ => is_space c = false
  | EmptyString => True
  end →
  match trim_end s with
  | String c _ => is_space c = false
  | EmptyString => True
  end.
Proof.
  destruct s as [|c s]; simpl; [done|]. intros Hc.
  destruct (trim_end s); simpl; [by rewrite Hc|done].
Qed.

Lemma trim_end_idem (s : string) : trim_end (trim_end s) = trim_end s.
Proof.
  induction s as [|c s IH]; simpl; [done|].
  destruct (trim_end s) as [|c' t] eqn:E.
  - destruct (is_space c) eqn:Hc; simpl; [done|]. by rewrite Hc.
  - simpl in *. by rewrite IH.
Qed.

(** [trim] is idempotent: a trimmed string is left as it is. *)
Lemma trim_idem (s : string) : trim (trim s) = trim s.
Proof.
  unfold trim.
  rewrite (trim_start_id (trim_end (trim_start s))).
  - apply trim_end_idem.
  - apply trim_end_head, trim_start_clean.
Qed.

(** ** Creation *)

Lemma filter_tags_inv (tags : list jsval) (w : World) (kept : list string)
    (w' : World) :
  filter_tags tags w = (Val kept, w') →
  w' = w ∧ Forall (fun s => trim s ≠ "") kept.
Proof.
  revert kept w'. induction tags as [|tag rest IH]; intros kept w'; simpl.
  - intros [= <- <-]. by split.
  - destruct tag; try done. run.
    destruct (filter_tags rest w) as [[kept0|e] w1] eqn:E; [|done].
    destruct (IH _ _ eq_refl) as [-> Hall].
    destruct (String.eqb_spec (trim s) ""); intros [= <- <-];
      (split; [done|]); [done|]. by constructor.
Qed.

Section CreationTheorems.
Context `{RT : Runtime}.

Lemma Data_save_inv newId now title description category value unit_ tags
    isPublic source owner (w : World) (d : Data) (w' : World) :
  Data_save newId now title description category value unit_ tags isPublic
            source owner w = (Val d, w') →
  d = mkData newId (trim title) (trim description) category value (trim unit_)
             "active" (map trim tags)
             (mkMetadata (castString source) (Some (clock_after now)) "1.0.0")
             owner (default None (castBoolean isPublic)) now now
  ∧ valid_data d
  ∧ datas w !! newId = None
  ∧ datas w' = <[newId := d]> (datas w)
  ∧ users w' = users w
  ∧ faults w' = tail (faults w).
Proof.
  unfold Data_save.
  match goal with
  | |- context [match ?errs with [] => _ | _ :: _ => _ end] =>
      destruct errs eqn:Herr
  end; [|done].
  apply app_eq_nil in Herr as [_ Herr].
  apply app_eq_nil in Herr as [Ht Herr].
  apply app_eq_nil in Herr as [Hd Herr].
  apply app_eq_nil in Herr as [Hc Hv].
  run. unfold roundtrip.
  destruct (faults w) as [|[e|] fs] eqn:Hf; simpl; try done;
    (destruct (datas w !! newId) eqn:Hnew; [done|]);
    intros [= <- <-]; simpl; rewrite ?Hf; repeat split; done.
Qed.

(** What a 201 of [POST /api/data] tells. *)
Lemma post_data_201_inv (newId : string) (now : Z) (req : Request) (u : User)
    (w : World) (r : Response) (w' : World) :
  req_user req = Some u →
  post_data newId now req w = (Val r, w') →
  status r = 201%nat →
  ∃ t cat v tags d,
    field (req_body req) "title" = JStr t
    ∧ field (req_body req) "category" = JStr cat
    ∧ field (req_body req) "value" = JNum v
    ∧ d = mkData newId (trim t) (data_description d) cat v (data_unit d)
               "active" (map trim tags)
               (mkMetadata (meta_source (data_metadata d))
                           (Some (clock_after now)) "1.0.0")
               (user_id u) (data_isPublic d) now now
    ∧ Forall (fun s => trim s ≠ "") tags
    ∧ ((∀ l, field (req_body req) "tags" ≠ JArr l) → tags = [])
    ∧ valid_data d
    ∧ datas w !! newId = None
    ∧ datas w' = <[newId := d]> (datas w)
    ∧ users w' = users w
    ∧ payload r
      = SuccessData (Some "Data record created successfully")
          (Some (mkPopulated d (user_ref <$> users w !! user_id u))).
Proof.
  intros Hu Hrun Hs. unfold post_data in Hrun.
  apply try_catch_success with (code := 201%nat) in Hrun; [| |done].
  2:{ intros e w1 r1 w2. repeat case_match; by intros [= <- _]. }
  cbv zeta in Hrun.
  apply bind_Val_inv in Hrun as ([] & w1 & Hdes & Hrun).
  pose proof (keeps_destructure _ frame_same_stores _ _ _ _ Hdes) as [Su1 Sd1].
  destruct (negb _ || _ || _)%bool;
    [apply ret_Val_inv in Hrun as [-> _]; done|].
  destruct (included validCategories _) as [cat|] eqn:Hcat;
    [|apply ret_Val_inv in Hrun as [-> _]; done].
  destruct (as_number _) as [v|] eqn:Hv;
    [|apply ret_Val_inv in Hrun as [-> _]; done].
  destruct (num_negative v); [apply ret_Val_inv in Hrun as [-> _]; done|].
  apply bind_Val_inv in Hrun as (title' & w2 & Ht & Hrun).
  apply bind_Val_inv in Hrun as (description' & w3 & Hde & Hrun).
  apply bind_Val_inv in Hrun as (unit' & w4 & Hun & Hrun).
  apply bind_Val_inv in Hrun as (tags' & w5 & Htg & Hrun).
  apply bind_Val_inv in Hrun as (u' & w6 & Hcur & Hrun).
  apply bind_Val_inv in Hrun as (newData & w7 & Hsave & Hrun).
  apply bind_Val_inv in Hrun as (populated & w8 & Hpop & Hrun).
  apply ret_Val_inv in Hrun as [-> ->].
  unfold current_user in Hcur. rewrite Hu in Hcur.
  apply ret_Val_inv in Hcur as [-> ->].
  pose proof (keeps_js_trim _ frame_same_stores _ _ _ _ Ht) as [Su2 Sd2].
  assert (same_stores w2 w3) as [Su3 Sd3].
  { destruct (truthy _);
      [exact (keeps_js_trim _ frame_same_stores _ _ _ _ Hde)|].
    apply ret_Val_inv in Hde as [_ ->]. apply frame_same_stores. }
  assert (same_stores w3 w4) as [Su4 Sd4].
  { destruct (truthy (field (req_body req) "unit"));
      [exact (keeps_js_trim _ frame_same_stores _ _ _ _ Hun)|].
    apply ret_Val_inv in Hun as [_ ->]. apply frame_same_stores. }
  assert (w5 = w4 ∧ Forall (fun s => trim s ≠ "") tags'
          ∧ ((∀ l, field (req_body req) "tags" ≠ JArr l) → tags' = []))
    as (-> & Htags & Hnoarr).
  { destruct (field (req_body req) "tags") eqn:E;
      try (apply ret_Val_inv in Htg as [-> ->]; by repeat split).
    apply filter_tags_inv in Htg as [-> ?]. repeat split; [done|].
    intros Hl. by destruct (Hl l). }
  apply Data_save_inv in Hsave as (Hd & Hvalid & Hnew & Hins & Husers & _).
  unfold populate in Hpop.
  apply bind_Val_inv in Hpop as ([] & w9 & Hrt & Hpop).
  pose proof (keeps_roundtrip _ frame_same_stores _ _ _ Hrt) as [Su9 Sd9].
  apply bind_Val_inv in Hpop as (w10 & w11 & Hget & Hpop).
  apply ret_Val_inv in Hget as [-> ->].
  apply ret_Val_inv in Hpop as [-> ->].
  destruct (field (req_body req) "title") eqn:Etitle; try done.
  simpl in Ht. apply ret_Val_inv in Ht as [-> ->].
  exists s, cat, v, tags', newData.
  assert (field (req_body req) "category" = JStr cat) as Ecat.
  { unfold included in Hcat. destruct (field (req_body req) "category"); try done.
    destruct (existsb _ _); by simplify_eq. }
  assert (field (req_body req) "value" = JNum v) as Eval.
  { destruct (field (req_body req) "value"); by simplify_eq/=. }
  assert (datas w4 = datas w ∧ users w4 = users w) as [Hd4 Hu4]
    by (split; congruence).
  split; [done|]. split; [done|]. split; [done|].
  split; [rewrite Hd at 1; simpl; by rewrite Hd, trim_idem|].
  split; [done|]. split; [done|]. split; [done|].
  split; [congruence|]. split; [congruence|]. split; [congruence|].
  rewrite Su9, Husers, Hu4.
  replace (data_user newData) with (user_id u); [done|]. by rewrite Hd.
Qed.

End CreationTheorems.

Section CreatedTheorems.
Context `{RT : Runtime}.

(** X9: what a 201 of [POST /api/data] has stored.  The record is new
    under the generated [_id] and is the only change; it belongs to the
    caller and is [active]; its title is the trimmed title of the body, its
    category and value those of the body; every tag is a non-blank tag of
    the body, trimmed; [createdAt] and [updatedAt] are the time at which
    the time stamps were made, [metadata.lastUpdated] the time that the
    [pre('save')] hook read after it; and the validators of the schema
    accept it. *)
Theorem created_record_is_as_sent (newId : string) (now : Z) (req : Request)
    (u : User) (w : World) (r : Response) (w' : World) :
  req_user req = Some u →
  post_data newId now req w = (Val r, w') →
  status r = 201%nat →
  ∃ t cat v d,
    field (req_body req) "title" = JStr t
    ∧ field (req_body req) "category" = JStr cat
    ∧ field (req_body req) "value" = JNum v
    ∧ datas w !! newId = None
    ∧ datas w' = <[newId := d]> (datas w)
    ∧ users w' = users w
    ∧ data_id d = newId ∧ data_user d = user_id u
    ∧ data_title d = trim t ∧ data_category d = cat ∧ data_value d = v
    ∧ data_status d = "active"
    ∧ data_createdAt d = now ∧ data_updatedAt d = now
    ∧ meta_lastUpdated (data_metadata d) = Some (clock_after now)
    ∧ meta_version (data_metadata d) = "1.0.0"
    ∧ Forall (fun tag => tag ≠ "" ∧ trim tag = tag) (data_tags d)
    ∧ ((∀ l, field (req_body req) "tags" ≠ JArr l) → data_tags d = [])
    ∧ valid_data d.
Proof.
  intros Hu Hrun Hs.
  destruct (post_data_201_inv _ _ _ _ _ _ _ Hu Hrun Hs)
    as (t & cat & v & tags & d & Ht & Hc & Hv & Hd & Htags & Hnoarr & Hvalid
        & Hnew & Hins & Husers & _).
  exists t, cat, v, d.
  do 6 (split; [done|]).
  split; [exact (f_equal data_id Hd)|].
  split; [exact (f_equal data_user Hd)|].
  split; [exact (f_equal data_title Hd)|].
  split; [exact (f_equal data_category Hd)|].
  split; [exact (f_equal data_value Hd)|].
  split; [exact (f_equal data_status Hd)|].
  split; [exact (f_equal data_createdAt Hd)|].
  split; [exact (f_equal data_updatedAt Hd)|].
  split; [exact (f_equal (fun x => meta_lastUpdated (data_metadata x)) Hd)|].
  split; [exact (f_equal (fun x => meta_version (data_metadata x)) Hd)|].
  pose proof (f_equal data_tags Hd) as Htg. simpl in Htg.
  split; [|split; [|done]].
  - rewrite Htg. apply Forall_forall. intros tag Hin.
    apply list_elem_of_In in Hin.
    apply in_map_iff in Hin as (s & <- & Hin).
    rewrite Forall_forall in Htags.
    split; [apply Htags; by apply list_elem_of_In|apply trim_idem].
  - intros Hno. by rewrite Htg, (Hnoarr Hno).
Qed.

(** X10: what has been created can be read back.  After a 201, on a
    healthy database where the caller's document is stored under the
    caller's [_id] and the new [_id] casts to itself, [GET /api/data/:id]
    on the new [_id] by the same caller answers 200 with the very [data] of
    the 201. *)
Theorem created_record_reads_back (newId : string) (now : Z) (req : Request)
    (u : User) (w : World) (r : Response) (w' : World) :
  req_user req = Some u →
  post_data newId now req w = (Val r, w') →
  status r = 201%nat →
  users w !! user_id u = Some u →
  castObjectId (JStr newId) = Some newId →
  faults w' = [] →
  ∃ p,
    payload r = SuccessData (Some "Data record created successfully") (Some p)
    ∧ data_id (pop_data p) = newId
    ∧ get_data_by_id (with_params_id newId req) w'
      = (Val (mkResponse 200 (SuccessData None (Some p))), w').
Proof.
  intros Hu Hrun Hs Hself Hcast Hf.
  destruct (post_data_201_inv _ _ _ _ _ _ _ Hu Hrun Hs)
    as (t & cat & v & tags & d & _ & _ & _ & Hd & _ & _ & _ & _ & Hins & Husers
        & Hpay).
  rewrite Hself in Hpay. simpl in Hpay.
  eexists. split; [exact Hpay|]. simpl.
  assert (data_user d = user_id u ∧ data_id d = newId) as [Hown Hid]
    by (split; [exact (f_equal data_user Hd)|exact (f_equal data_id Hd)]).
  split; [done|].
  unfold get_data_by_id. run.
  rewrite (Data_findById_healthy newId newId) by done.
  rewrite Hins, lookup_insert_eq.
  rewrite (populate_healthy _ _ Hf), Husers, Hown, Hself. simpl.
  unfold current_user. simpl. rewrite Hu. simpl.
  unfold toString. by rewrite String.eqb_refl.
Qed.

(** X11: an [_id] in use is never overwritten.  When the generated [_id]
    already names a record, [POST /api/data] leaves both collections as
    they were and does not answer 201. *)
Theorem post_data_never_overwrites (newId : string) (now : Z) (req : Request)
    (u : User) (w : World) (r : result Response) (w' : World) (d0 : Data) :
  req_user req = Some u →
  datas w !! newId = Some d0 →
  post_data newId now req w = (r, w') →
  datas w' = datas w ∧ users w' = users w
  ∧ ∀ resp, r = Val resp → status resp ≠ 201%nat.
Proof.
  intros Hu Hold Hrun.
  destruct (grows_post_data newId now req u Hu _ _ _ Hrun) as (Husers & Hinc & Hnew).
  split; [|split; [done|]].
  - apply map_eq. intros k.
    destruct (datas w' !! k) as [d'|] eqn:Hk.
    + destruct (Hnew _ _ Hk) as [H|[-> _]]; [done|].
      pose proof (Hinc _ _ Hold). congruence.
    + destruct (datas w !! k) as [d|] eqn:Hk0; [|done].
      pose proof (Hinc _ _ Hk0). congruence.
  - intros resp -> Hs.
    destruct (post_data_201_inv _ _ _ _ _ _ _ Hu Hrun Hs)
      as (? & ? & ? & ? & ? & _ & _ & _ & _ & _ & _ & _ & Hnone & _).
    congruence.
Qed.

End CreatedTheorems.

Lemma created_record_is_as_sent_witness :
  ∃ d,
    datas (@post_data Demo.runtime Demo.rec3_id 9 Demo.alice_creates Demo.world).2
    = <[Demo.rec3_id := d]> (datas Demo.world)
    ∧ data_user d = Demo.alice_id ∧ data_status d = "active" ∧ valid_data d.
Proof.
  destruct (@created_record_is_as_sent Demo.runtime Demo.rec3_id 9
              Demo.alice_creates Demo.alice Demo.world
              (mkResponse 201
                 (SuccessData (Some "Data record created successfully")
                    (Some (mkPopulated
                             (mkData Demo.rec3_id "CPU" "" "metrics" (42 # 1) "%"
                                     "active" []
                                     (mkMetadata (Some "manual") (Some 10) "1.0.0")
                                     Demo.alice_id (Some false) 9 9)
                             (Some (user_ref Demo.alice))))))
              (@post_data Demo.runtime Demo.rec3_id 9 Demo.alice_creates
                 Demo.world).2)
    as (t & cat & v & d & _ & _ & _ & _ & Hins & _ & _ & Hu & _ & _ & _ & Hs & _
        & _ & _ & _ & _ & _ & Hv).
  - reflexivity.
  - vm_compute. reflexivity.
  - reflexivity.
  - exists d. split; [exact Hins|]. split; [exact Hu|]. split; [exact Hs|exact Hv].
Defined.

Lemma created_record_reads_back_witness :
  ∃ r p,
    (@post_data Demo.runtime Demo.rec3_id 9 Demo.alice_creates Demo.world).1
    = Val r
    ∧ payload r = SuccessData (Some "Data record created successfully") (Some p)
    ∧ data_id (pop_data p) = Demo.rec3_id
    ∧ @get_data_by_id Demo.runtime
        (with_params_id Demo.rec3_id Demo.alice_creates)
        (@post_data Demo.runtime Demo.rec3_id 9 Demo.alice_creates Demo.world).2
      = (Val (mkResponse 200 (SuccessData None (Some p))),
         (@post_data Demo.runtime Demo.rec3_id 9 Demo.alice_creates Demo.world).2).
Proof.
  eexists. 
  edestruct (@created_record_reads_back Demo.runtime Demo.rec3_id 9
               Demo.alice_creates Demo.alice Demo.world)
    as (p & Hp & Hid & Hget).
  - reflexivity.
  - vm_compute. reflexivity.
  - reflexivity.
  - reflexivity.
  - reflexivity.
  - reflexivity.
  - exists p. split; [vm_compute; reflexivity|]. split; [exact Hp|].
    split; [exact Hid|exact Hget].
Defined.

Lemma post_data_never_overwrites_witness :
  datas (@post_data Demo.runtime Demo.rec1_id 9 Demo.alice_creates Demo.world).2
  = datas Demo.world
  ∧ users (@post_data Demo.runtime Demo.rec1_id 9 Demo.alice_creates Demo.world).2
    = users Demo.world
  ∧ ∀ resp,
      (@post_data Demo.runtime Demo.rec1_id 9 Demo.alice_creates Demo.world).1
      = Val resp → status resp ≠ 201%nat.
Proof.
  apply (@post_data_never_overwrites Demo.runtime Demo.rec1_id 9 Demo.alice_creates
           Demo.alice Demo.world _ _
           (Demo.record Demo.rec1_id Demo.alice_id "CPU")).
  - reflexivity.
  - reflexivity.
  - apply surjective_pairing.
Defined.

(** ** The schema as an invariant of the collection *)

Lemma frame_validity_kept : frame validity_kept.
Proof.
  unfold frame, validity_kept. split; [done|]. split; [eauto|]. done.
Qed.

Lemma same_stores_validity_kept (w w' : World) :
  same_stores w w' → validity_kept w w'.
Proof. intros [_ Hd] Hv k d Hk. rewrite Hd in Hk. eauto. Qed.

Lemma valid_apply_set (upd : UpdateFields) (isPublic : option (option bool))
    (now : Z) (d : Data) :
  update_errors upd = [] → valid_data d → valid_data (apply_set upd isPublic now d).
Proof.
  unfold update_errors. intros Herr (Ht & Hde & Hc & Hv & Hs).
  apply app_eq_nil in Herr as [Et Herr].
  apply app_eq_nil in Herr as [Ede Herr].
  apply app_eq_nil in Herr as [Ec Herr].
  apply app_eq_nil in Herr as [Ev Es].
  unfold valid_data, apply_set. simpl.
  destruct (upd_title upd), (upd_description upd), (upd_category upd),
    (upd_value upd), (upd_status upd); simpl in *; done.
Qed.

Section ValidityTheorems.
Context `{RT : Runtime}.

Lemma validity_kept_Data_save newId now title description category value unit_
    tags isPublic source owner :
  preserves validity_kept
    (Data_save newId now title description category value unit_ tags isPublic
               source owner).
Proof.
  intros w [d|e] w' Hrun.
  - apply Data_save_inv in Hrun as (_ & Hvalid & _ & Hins & _).
    intros Hall k d' Hk. rewrite Hins in Hk.
    apply lookup_insert_Some in Hk as [[_ <-]|[_ Hk]]; eauto.
  - apply same_stores_validity_kept. revert Hrun. unfold Data_save.
    case_match; [|by intros [= <- <-]].
    run. unfold roundtrip.
    destruct (faults w) as [|[e0|] fs]; simpl;
      try (by intros [= <- <-]);
      destruct (datas w !! newId); by intros [= <- <-].
Qed.

Lemma validity_kept_findByIdAndUpdate id upd now :
  preserves validity_kept (Data_findByIdAndUpdate id upd now).
Proof.
  pose proof frame_validity_kept as HP.
  intros w r w'. unfold Data_findByIdAndUpdate, castId. run. unfold roundtrip.
  destruct (update_errors upd) eqn:Herr.
  2:{ repeat (case_match; simplify_eq; simpl in *;
              try (intros [= <- <-]; apply HP)). }
  repeat (case_match; simplify_eq; simpl in *; try (intros [= <- <-]; apply HP));
    intros [= <- <-] Hall k d' Hk; simpl in Hk;
    (apply lookup_insert_Some in Hk as [[_ <-]|[_ Hk]];
     [apply valid_apply_set; eauto | eauto]).
Qed.

Lemma validity_kept_delete (o : string) :
  preserves validity_kept (modify (set_datas (delete o))).
Proof.
  intros w r w' [= <- <-] Hall k d Hk. simpl in Hk.
  apply lookup_delete_Some in Hk as [_ Hk]. eauto.
Qed.

Lemma validity_kept_filter (P : string * Data → Prop) `{!∀ x, Decision (P x)} :
  preserves validity_kept (modify (set_datas (filter P))).
Proof.
  intros w r w' [= <- <-] Hall k d Hk. simpl in Hk.
  apply map_lookup_filter_Some in Hk as [Hk _]. eauto.
Qed.

Lemma validity_kept_set_users (f : gmap string User → gmap string User) :
  preserves validity_kept (modify (set_users f)).
Proof. intros w r w' [= <- <-] Hall k d Hk. simpl in Hk. eauto. Qed.

(** X12: the schema is an invariant of the collection.  If every stored
    record passes the validators of [models/Data.js] (title present and at
    most 100 characters, description at most 500, category and status in
    their lists, value not negative), then so does every stored record
    after any call of any route, whatever the request and whatever the
    database does. *)
Theorem every_route_keeps_the_schema (now : Z) (c : ApiCall) (req : Request)
    (w : World) (r : result Response) (w' : World) :
  all_valid w →
  handler now c req w = (r, w') →
  all_valid w'.
Proof.
  intros Hall Hrun. revert Hall. fold (validity_kept w w'). revert Hrun.
  pose proof frame_validity_kept as HP.
  destruct c; simpl.
  - unfold post_data.
    keeps_with HP ltac:(first [ reads HP | apply validity_kept_Data_save ]).
  - by apply keeps_get_data.
  - by apply keeps_get_data_by_id.
  - unfold put_data_by_id.
    keeps_with HP ltac:(first [ reads HP | by apply keeps_build_updateFields
                              | apply validity_kept_findByIdAndUpdate ]).
  - unfold delete_data_by_id, Data_findByIdAndDelete.
    keeps_with HP ltac:(first [ reads HP | apply validity_kept_delete ]).
  - unfold delete_user_account, Data_deleteMany, User_findByIdAndDelete.
    keeps_with HP ltac:(first [ reads HP | apply validity_kept_filter
                              | apply validity_kept_set_users ]).
  - by apply keeps_get_user_search.
Qed.

End ValidityTheorems.

Lemma demo_world_valid : all_valid Demo.world.
Proof.
  intros k x Hk. unfold Demo.world in Hk. simpl in Hk.
  repeat (apply lookup_insert_Some in Hk as [[<- <-]|[_ Hk]];
          [by repeat split|]).
  by rewrite lookup_empty in Hk.
Qed.

Lemma every_route_keeps_the_schema_witness :
  all_valid (@handler Demo.runtime 9 PutDataById Demo.alice_sets_status
               Demo.world).2.
Proof.
  apply (@every_route_keeps_the_schema Demo.runtime 9 PutDataById
           Demo.alice_sets_status Demo.world
           (@handler Demo.runtime 9 PutDataById Demo.alice_sets_status
              Demo.world).1).
  - exact demo_world_valid.
  - apply surjective_pairing.
Defined.

(** ** What the schema and the update checks refuse *)

Section RefusalTheorems.
Context `{RT : Runtime}.

(** X13: a title that the schema refuses.  A body that passes the checks
    of [POST /api/data] (title given, category valid, value a number that
    is not negative) but whose title is blank once trimmed, or longer than
    100 characters, is answered 400 "Validation error" with the message of
    the validator among the details; nothing is stored and the database is
    not asked. *)
Theorem schema_refuses_title (newId : string) (now : Z) (req : Request) (u : User)
    (w : World) (t cat : string) (v : Q) :
  req_user req = Some u →
  field (req_body req) "title" = JStr t → t ≠ "" →
  field (req_body req) "category" = JStr cat → cat ∈ validCategories →
  field (req_body req) "value" = JNum v → ¬ (v < 0)%Q →
  absent_or_string (field (req_body req) "description") →
  absent_or_string (field (req_body req) "unit") →
  (∀ l, field (req_body req) "tags" ≠ JArr l) →
  validate_title (trim t) ≠ [] →
  ∃ details,
    post_data newId now req w
    = (Val (mkResponse 400 (ErrorDetails "Validation error" details)), w)
    ∧ (∀ m, m ∈ validate_title (trim t) → m ∈ details)
    ∧ (trim t = "" → "Title is required" ∈ details).
Proof.
  intros Hu Ht Hne Hc Hcat Hv Hpos Hde Hun Htg Hbad.
  assert (nullish (req_body req) = false) as Hb.
  { destruct (req_body req); try done; simpl in Ht; done. }
  assert (included validCategories (JStr cat) = Some cat) as Hinc.
  { unfold included. apply schema_category_enum in Hcat.
    unfold validate_category in Hcat. by destruct (existsb _ _). }
  assert (cat ≠ "") as Hcne.
  { intros ->. repeat (apply elem_of_cons in Hcat as [Hcat|Hcat]; [done|]).
    by apply elem_of_nil in Hcat. }
  assert (num_negative v = false) as Hnn.
  { destruct (num_negative v) eqn:E; [|done]. by apply num_negative_lt in E. }
  assert (∀ x, absent_or_string x →
            ∃ s, (if truthy x then js_trim x else ret "") = ret s) as Hopt.
  { intros x [->|[s ->]]; simpl; [by exists ""|].
    destruct (negb _); eauto. }
  destruct (Hopt _ Hde) as [de Ede]. destruct (Hopt _ Hun) as [un Eun].
  assert (∃ details,
            Data_save newId now (trim t) de cat v un []
              (if truthy (field (req_body req) "isPublic")
               then field (req_body req) "isPublic" else JBool false)
              (if truthy (field (field (req_body req) "metadata") "source")
               then field (field (req_body req) "metadata") "source"
               else JStr "manual")
              (user_id u) w
            = (Throw (ValidationError details), w)
            ∧ ∀ m, m ∈ validate_title (trim t) → m ∈ details)
    as (details & Hsave & Hsub).
  { unfold Data_save. rewrite trim_idem.
    match goal with
    | |- context [match ?errs with [] => _ | _ :: _ => _ end] =>
        destruct errs eqn:Herr
    end.
    - apply app_eq_nil in Herr as [_ Herr].
      apply app_eq_nil in Herr as [Herr _]. done.
    - eexists. split; [reflexivity|].
      intros m Hm. rewrite <- Herr. rewrite !elem_of_app. eauto. }
  exists details. split; [|split; [done|]].
  2:{ intros E. apply Hsub. rewrite E. simpl. apply list_elem_of_In. by left. }
  apply String.eqb_neq in Hne, Hcne.
  unfold post_data, destructure, current_user. rewrite Hb, Hu. cbv zeta.
  rewrite Ht, Hc, Hv, Hinc, Ede, Eun. simpl. rewrite Hne, Hcne, Hnn. simpl.
  destruct (field (req_body req) "tags") eqn:Etags;
    try (by destruct (Htg l));
    run; rewrite Hsave; done.
Qed.

End RefusalTheorems.

Lemma schema_refuses_title_witness :
  ∃ details,
    @post_data Demo.runtime Demo.rec3_id 9
       (Demo.request None "" []
          (JObj [("title", JStr "   "); ("category", JStr "metrics");
                 ("value", JNum (1 # 1))])
          (Some Demo.alice))
       Demo.world
    = (Val (mkResponse 400 (ErrorDetails "Validation error" details)), Demo.world)
    ∧ "Title is required" ∈ details.
Proof.
  destruct (@schema_refuses_title Demo.runtime Demo.rec3_id 9
              (Demo.request None "" []
                 (JObj [("title", JStr "   "); ("category", JStr "metrics");
                        ("value", JNum (1 # 1))])
                 (Some Demo.alice))
              Demo.alice Demo.world "   " "metrics" (1 # 1))
    as (details & Hrun & _ & Hreq); try reflexivity; try discriminate.
  - apply list_elem_of_In. simpl. tauto.
  - by left.
  - by left.
  - exists details. split; [exact Hrun|]. by apply Hreq.
Defined.

Lemma bad_enum_None (valid : list string) (v : jsval) :
  bad_enum valid v → enum_if_defined valid v = None.
Proof.
  intros [Hdef Hbad]. unfold enum_if_defined.
  destruct v; try done. cbn [is_undefined].
  by rewrite (proj2 (included_None valid (JStr s)) Hbad).
Qed.

Lemma bad_value_None (v : jsval) : bad_value v → value_if_defined v = None.
Proof.
  intros [Hdef Hbad]. unfold value_if_defined.
  destruct v; try done. cbn [is_undefined as_number].
  by rewrite (proj2 (num_negative_lt q) (Hbad q eq_refl)).
Qed.

Lemma keeps_bind_val (P : World → World → Prop) (HP : frame P) {A B}
    (c : M A) (k : A → M B) (Q : A → Prop) :
  (∀ w a w', c w = (Val a, w') → Q a) →
  preserves P c → (∀ a, Q a → preserves P (k a)) → preserves P (bind c k).
Proof.
  intros HQ Hc Hk w r w'. unfold bind.
  destruct (c w) as [[a|e] w1] eqn:E.
  - intros H. destruct HP as (_ & Ht & _).
    exact (Ht _ _ _ (Hc _ _ _ E) (Hk _ (HQ _ _ _ E) _ _ _ H)).
  - intros [= <- <-]. exact (Hc _ _ _ E).
Qed.

Section UpdateRefusals.
Context `{RT : Runtime}.

Lemma build_updateFields_refuses (body : jsval) (w : World)
    (built : Response + UpdateFields) (w' : World) :
  bad_enum validCategories (field body "category")
  ∨ bad_value (field body "value")
  ∨ bad_enum validStatuses (field body "status") →
  build_updateFields body w = (Val built, w') →
  ∃ msg, built = inl (rejected 400 msg)
         ∧ msg ∈ ["Invalid category"; "Value must be a positive number";
                  "Invalid status"].
Proof.
  intros Hbad H. unfold build_updateFields in H.
  apply bind_Val_inv in H as (title & w1 & _ & H).
  apply bind_Val_inv in H as (description & w2 & _ & H).
  destruct (enum_if_defined validCategories (field body "category"))
    as [category|] eqn:Hc.
  2:{ apply ret_Val_inv in H as [-> ->]. eexists. split; [done|].
      apply list_elem_of_In. simpl. tauto. }
  destruct (value_if_defined (field body "value")) as [value|] eqn:Hv.
  2:{ apply ret_Val_inv in H as [-> ->]. eexists. split; [done|].
      apply list_elem_of_In. simpl. tauto. }
  apply bind_Val_inv in H as (unit_ & w3 & _ & H).
  apply bind_Val_inv in H as (tags & w4 & _ & H).
  destruct (enum_if_defined validStatuses (field body "status"))
    as [status_|] eqn:Hst.
  2:{ apply ret_Val_inv in H as [-> ->]. eexists. split; [done|].
      apply list_elem_of_In. simpl. tauto. }
  destruct Hbad as [Hb|[Hb|Hb]].
  - apply bad_enum_None in Hb. congruence.
  - apply bad_value_None in Hb. congruence.
  - apply bad_enum_None in Hb. congruence.
Qed.

(** X14: an update refused by its checks changes nothing.  When the body
    of [PUT /api/data/:id] gives a category or a status outside its list,
    or a value that is not a number or is negative, the request never
    changes either collection and is never answered 200, whoever sends it
    and whatever else the body holds; sent by the owner to a healthy
    database with no other field that throws, it is answered 400 with the
    message of the first failing check. *)
Theorem bad_update_changes_nothing (now : Z) (req : Request) (w : World) :
  bad_enum validCategories (field (req_body req) "category")
  ∨ bad_value (field (req_body req) "value")
  ∨ bad_enum validStatuses (field (req_body req) "status") →
  (∀ r w', put_data_by_id now req w = (r, w') →
           users w' = users w ∧ datas w' = datas w
           ∧ ∀ resp, r = Val resp → status resp ≠ 200%nat)
  ∧ (∀ u o d,
       req_user req = Some u → faults w = [] →
       castObjectId (JStr (req_params_id req)) = Some o →
       datas w !! o = Some d → data_user d = user_id u →
       absent_or_string (field (req_body req) "title") →
       absent_or_string (field (req_body req) "description") →
       absent_or_string (field (req_body req) "unit") →
       (∀ l, field (req_body req) "tags" ≠ JArr l) →
       ∃ msg, put_data_by_id now req w = (Val (rejected 400 msg), w)
              ∧ msg ∈ ["Invalid category"; "Value must be a positive number";
                       "Invalid status"]).
Proof.
  intros Hbad. split.
  - intros r w' Hrun.
    assert (same_stores w w') as [Hsu Hsd]; [|split; [done|split; [done|]]].
    + pose proof frame_same_stores as HP. revert Hrun.
      unfold put_data_by_id. cbv zeta.
      apply (keeps_try_catch _ HP); [|intros e; keeps_with HP fail].
      apply (keeps_bind _ HP); [reads HP|intros []].
      apply (keeps_bind _ HP); [reads HP|intros [d|]];
        [|apply (keeps_ret _ HP)].
      apply (keeps_bind _ HP); [reads HP|intros u].
      destruct (negb _); [apply (keeps_ret _ HP)|].
      apply (keeps_bind_val _ HP _ _
               (fun built => ∃ msg, built = inl (rejected 400 msg)
                  ∧ msg ∈ ["Invalid category"; "Value must be a positive number";
                           "Invalid status"])).
      * intros w0 built w0'. by apply build_updateFields_refuses.
      * by apply keeps_build_updateFields.
      * intros built (msg & -> & _). apply (keeps_ret _ HP).
    + intros resp -> Hs. unfold put_data_by_id in Hrun.
      apply try_catch_success with (code := 200%nat) in Hrun; [| |done].
      2:{ intros e w1 r1 w2. repeat case_match; by intros [= <- _]. }
      cbv zeta in Hrun.
      apply bind_Val_inv in Hrun as ([] & w1 & _ & Hrun).
      apply bind_Val_inv in Hrun as (found & w2 & _ & Hrun).
      destruct found as [d|]; [|apply ret_Val_inv in Hrun as [-> _]; done].
      apply bind_Val_inv in Hrun as (u & w3 & _ & Hrun).
      destruct (negb _); [apply ret_Val_inv in Hrun as [-> _]; done|].
      apply bind_Val_inv in Hrun as (built & w4 & Hbuilt & Hrun).
      apply (build_updateFields_refuses _ _ _ _ Hbad) in Hbuilt as (msg & -> & _).
      apply ret_Val_inv in Hrun as [-> _]. done.
  - intros u o d Hu Hf Hc Hd Hown Ht Hde Hun Htg.
    assert (nullish (req_body req) = false) as Hb.
    { destruct (req_body req) eqn:E; try done;
        destruct Hbad as [[H _]|[[H _]|[H _]]]; by destruct H. }
    assert (String.eqb (data_user d) (user_id u) = true) as Hcmp
      by (by apply String.eqb_eq).
    assert (∀ x, absent_or_string x → ∃ s, trimmed_if_defined x = ret s) as Hopt.
    { intros x [->|[s ->]]; simpl; eauto. }
    destruct (Hopt _ Ht) as [t' Et]. destruct (Hopt _ Hde) as [de' Ede].
    destruct (Hopt _ Hun) as [un' Eun].
    assert (∃ tg, tags_if_defined (field (req_body req) "tags") = ret tg)
      as [tg Etg].
    { destruct (field (req_body req) "tags") eqn:E; simpl; eauto.
      by destruct (Htg l). }
    assert (∃ msg, build_updateFields (req_body req) w
                   = (Val (inl (rejected 400 msg)), w)
                   ∧ msg ∈ ["Invalid category"; "Value must be a positive number";
                            "Invalid status"]) as (msg & Hbuild & Hmsg).
    { destruct (build_updateFields (req_body req) w) as [[built|e] w1] eqn:E.
      - destruct (build_updateFields_inv _ _ _ _ E) as [-> _].
        destruct (build_updateFields_refuses _ _ _ _ Hbad E) as (msg & -> & ?).
        eauto.
      - exfalso. revert E. unfold build_updateFields.
        rewrite Et, Ede, Eun, Etg. run. by repeat case_match. }
    exists msg. split; [|done].
    unfold put_data_by_id, destructure. rewrite Hb. run.
    rewrite (Data_findById_healthy _ _ _ Hf Hc), Hd.
    unfold current_user. rewrite Hu. simpl. unfold toString. rewrite Hcmp. simpl.
    by rewrite Hbuild.
Qed.

End UpdateRefusals.

Lemma bad_update_changes_nothing_witness :
  ∃ msg,
    @put_data_by_id Demo.runtime 9
       (Demo.request None Demo.rec1_id [] (JObj [("status", JStr "archived")])
                     (Some Demo.alice))
       Demo.world
    = (Val (rejected 400 msg), Demo.world)
    ∧ msg ∈ ["Invalid category"; "Value must be a positive number";
             "Invalid status"].
Proof.
  apply (proj2 (@bad_update_changes_nothing Demo.runtime 9
                  (Demo.request None Demo.rec1_id []
                     (JObj [("status", JStr "archived")]) (Some Demo.alice))
                  Demo.world
                  ltac:(right; right; split;
                        [discriminate
                        |intros s [= <-] Hin;
                         repeat (apply elem_of_cons in Hin as [Hin|Hin];
                                 [discriminate|]);
                         by apply elem_of_nil in Hin]))
           Demo.alice Demo.rec1_id (Demo.record Demo.rec1_id Demo.alice_id "CPU"));
    try reflexivity; try (by left); discriminate.
Defined.

Section UpdateCast.
Context `{RT : Runtime}.

(** X15: a visibility flag that cannot be cast.  When the owner sends
    [PUT /api/data/:id] with nothing but an [isPublic] that the boolean
    cast of the schema refuses, the failed cast of the update is reported
    by the branch meant for a bad [:id]: the answer is 400 "Invalid data
    ID", and the record is not changed. *)
Theorem uncastable_isPublic_is_invalid_id (now : Z) (req : Request) (w : World)
    (u : User) (o : string) (d : Data) (v : jsval) :
  req_user req = Some u → faults w = [] →
  castObjectId (JStr (req_params_id req)) = Some o →
  datas w !! o = Some d → data_user d = user_id u →
  req_body req = JObj [("isPublic", v)] →
  v ≠ JUndefined → castBoolean v = None →
  put_data_by_id now req w = (Val (rejected 400 "Invalid data ID"), w).
Proof.
  intros Hu Hf Hc Hd Hown Hbody Hdef Hcast.
  assert (String.eqb (data_user d) (user_id u) = true) as Hcmp
    by (by apply String.eqb_eq).
  assert (is_undefined v = false) as Hv by (by destruct v).
  unfold put_data_by_id. rewrite Hbody. unfold destructure. simpl. run.
  rewrite (Data_findById_healthy _ _ _ Hf Hc), Hd.
  unfold current_user. rewrite Hu. simpl.
  unfold toString. rewrite Hcmp. simpl.
  unfold build_updateFields, trimmed_if_defined, tags_if_defined,
    enum_if_defined, value_if_defined. simpl. rewrite Hv. simpl.
  unfold Data_findByIdAndUpdate, castId. simpl. rewrite Hc, Hcast. done.
Qed.

End UpdateCast.

Lemma uncastable_isPublic_is_invalid_id_witness :
  @put_data_by_id Demo.runtime 9
     (Demo.request None Demo.rec1_id [] (JObj [("isPublic", JStr "maybe")])
                   (Some Demo.alice))
     Demo.world
  = (Val (rejected 400 "Invalid data ID"), Demo.world).
Proof.
  apply (@uncastable_isPublic_is_invalid_id Demo.runtime 9 _ Demo.world Demo.alice
           Demo.rec1_id (Demo.record Demo.rec1_id Demo.alice_id "CPU")
           (JStr "maybe"));
    try reflexivity; discriminate.
Defined.

(** ** After the account is gone; lists and search *)

Section AfterDeletion.
Context `{RT : Runtime}.

Lemma delete_user_account_healthy (req : Request) (w : World) (u : User) :
  req_user req = Some u → nullish (req_body req) = false → faults w = [] →
  delete_user_account req w
  = (Val (mkResponse 200 (Success "Account deleted successfully")),
     set_users (delete (user_id u))
       (set_datas (filter (fun kv => data_user kv.2 ≠ user_id u)) w)).
Proof.
  intros Hu Hb Hf.
  unfold delete_user_account, destructure, current_user, Data_deleteMany,
    User_findByIdAndDelete.
  rewrite Hb, Hu. run. rewrite (roundtrip_healthy _ Hf). simpl.
  by rewrite roundtrip_healthy.
Qed.

(** X16: a deleted account cannot come back with its token.  After
    [DELETE /api/user/account] has gone through on a healthy database, a
    request whose token still verifies and names the deleted user is
    answered 401 "Invalid token. User not found." on every route, and
    nothing more changes. *)
Theorem deleted_account_cannot_authenticate (now : Z) (req : Request) (w : World)
    (u : User) (c : ApiCall) (req2 : Request) (t : string) (decoded : jsval) :
  req_user req = Some u → nullish (req_body req) = false → faults w = [] →
  header_token req2 = Some t → t ≠ "" →
  jwt_verify t = Val decoded → nullish decoded = false →
  castObjectId (field decoded "id") = Some (user_id u) →
  ∃ w',
    delete_user_account req w
    = (Val (mkResponse 200 (Success "Account deleted successfully")), w')
    ∧ route now c req2 w'
      = (Val (rejected 401 "Invalid token. User not found."), w').
Proof.
  intros Hu Hb Hf Ht Hne Hv Hdec Hc.
  eexists. split; [by apply delete_user_account_healthy|].
  unfold route. run.
  rewrite (authenticateToken_verified _ _ _ _ Ht Hne Hv).
  unfold decoded_user, prop, User_findById, castId. run.
  rewrite Hdec, Hc. unfold roundtrip.
  destruct (nullish (field decoded "id")); simpl; rewrite Hf; simpl; [done|].
  by rewrite lookup_delete_eq.
Qed.

End AfterDeletion.

Lemma deleted_account_cannot_authenticate_witness :
  ∃ w',
    delete_user_account (Demo.alice_sends (JObj [])) Demo.world
    = (Val (mkResponse 200 (Success "Account deleted successfully")), w')
    ∧ @route Demo.runtime 9 GetData (Demo.alice_lists_token "5") w'
      = (Val (rejected 401 "Invalid token. User not found."), w').
Proof.
  apply (@deleted_account_cannot_authenticate Demo.runtime 9
           (Demo.alice_sends (JObj [])) Demo.world Demo.alice GetData
           (Demo.alice_lists_token "5") "id:64b7f0a1c2d3e4f5a6b7c8d9"
           (JObj [("id", JStr Demo.alice_id)]));
    try reflexivity; discriminate.
Defined.

Lemma cursor_subset {A} (limit skip : option Z) (docs found : list A)
    (w w' : World) :
  cursor limit skip docs w = (Val found, w') → w' = w ∧ ∀ x, x ∈ found → x ∈ docs.
Proof.
  unfold cursor. destruct limit as [l|], skip as [k|]; try done.
  destruct (k <? 0); [done|]. intros [= <- <-]. split; [done|].
  intros x Hx. destruct (l =? 0).
  - by apply subseteq_drop in Hx.
  - by apply subseteq_take, subseteq_drop in Hx.
Qed.

Lemma data_matches_inv uid category status search d :
  data_matches uid category status search d = true →
  data_user d = uid
  ∧ (∀ c, category = Some c → data_category d = c)
  ∧ (∀ s, status = Some s → data_status d = s).
Proof.
  unfold data_matches. rewrite !andb_true_iff.
  intros [[[Hu Hc] Hs] _]. apply String.eqb_eq in Hu.
  split; [done|]. split.
  - intros c ->. by apply String.eqb_eq.
  - intros s ->. by apply String.eqb_eq.
Qed.

Lemma try_catch_cases {A} (c : M A) (h : exn → M A) (w : World)
    (r : result A) (w' : World) :
  try_catch c h w = (r, w') →
  (∃ a, r = Val a ∧ c w = (Val a, w'))
  ∨ ∃ e w1, c w = (Throw e, w1) ∧ h e w1 = (r, w').
Proof.
  unfold try_catch. destruct (c w) as [[a|e] w1]; [|eauto].
  intros [= <- <-]. eauto.
Qed.

Section ListTheorems.
Context `{RT : Runtime}.

(** X17: the list is the caller's.  Provided the sort of the query engine
    returns documents of its input, every item of a page of
    [GET /api/data] is a stored record owned by the caller, an
    administrator's page included, and it has the category and the status
    that the query asks for. *)
Theorem list_holds_own_records (req : Request) (u : User) (w : World)
    (r : Response) (w' : World) (data : list Populated) (pg : Pagination) :
  (∀ key desc l x, x ∈ sortData key desc l → x ∈ l) →
  req_user req = Some u →
  get_data req w = (Val r, w') →
  payload r = SuccessList data pg →
  ∀ p, p ∈ data →
    data_user (pop_data p) = user_id u
    ∧ (∃ k, datas w !! k = Some (pop_data p))
    ∧ (∀ c, given (req_query req !! "category") = Some c →
            data_category (pop_data p) = c)
    ∧ (∀ s, given (req_query req !! "status") = Some s →
            data_status (pop_data p) = s).
Proof.
  intros Hsort Hu Hrun Hpay p Hp.
  unfold get_data in Hrun.
  apply try_catch_cases in Hrun as [(a & [= <-] & Hrun)|(e & w0 & _ & Hh)].
  2:{ apply ret_Val_inv in Hh as [-> _]. done. }
  cbv zeta in Hrun.
  apply bind_Val_inv in Hrun as (u' & w1 & Hcur & Hrun).
  unfold current_user in Hcur. rewrite Hu in Hcur.
  apply ret_Val_inv in Hcur as [-> ->].
  apply bind_Val_inv in Hrun as (search & w2 & Hre & Hrun).
  assert (w2 = w) as ->.
  { destruct (given (req_query req !! "search")).
    - apply bind_Val_inv in Hre as (re & wx & Hl & Hre).
      apply ret_Val_inv in Hre as [_ ->]. unfold lift in Hl. by injection Hl.
    - by apply ret_Val_inv in Hre as [_ ->]. }
  apply bind_Val_inv in Hrun as ([] & w3 & Hrt & Hrun).
  pose proof (keeps_roundtrip _ frame_same_stores _ _ _ Hrt) as [_ Hd3].
  apply bind_Val_inv in Hrun as (w4 & w5 & Hget & Hrun).
  apply ret_Val_inv in Hget as [-> ->].
  apply bind_Val_inv in Hrun as (found & w6 & Hcursor & Hrun).
  apply cursor_subset in Hcursor as [-> Hsub].
  apply bind_Val_inv in Hrun as (data' & w7 & Hpop & Hrun).
  apply bind_Val_inv in Hrun as ([] & w8 & _ & Hrun).
  apply bind_Val_inv in Hrun as (w9 & w10 & _ & Hrun).
  apply ret_Val_inv in Hrun as [-> ->]. simpl in Hpay.
  injection Hpay as <- _.
  assert (pop_data p ∈ found) as Hin.
  { unfold populate_all in Hpop. destruct found as [|d0 ds].
    - apply ret_Val_inv in Hpop as [-> _]. by apply elem_of_nil in Hp.
    - apply bind_Val_inv in Hpop as ([] & wa & _ & Hpop).
      apply bind_Val_inv in Hpop as (wb & wc & _ & Hpop).
      apply ret_Val_inv in Hpop as [-> _].
      apply list_elem_of_In, in_map_iff in Hp as (d1 & <- & Hd1).
      simpl. by apply list_elem_of_In. }
  apply Hsub, Hsort, list_elem_of_In, filter_In in Hin as [Hin Hmatch].
  apply data_matches_inv in Hmatch as (Hown & Hcat & Hst).
  split; [done|]. split; [|by split].
  apply in_map_iff in Hin as ([k d1] & Heq & Hin). simpl in Heq. subst d1.
  exists k. apply list_elem_of_In, elem_of_map_to_list in Hin. congruence.
Qed.

End ListTheorems.

Lemma list_holds_own_records_witness :
  ∃ r data pg,
    (@get_data Demo.runtime (Demo.alice_lists "5") Demo.world).1 = Val r
    ∧ payload r = SuccessList data pg
    ∧ data ≠ []
    ∧ ∀ p, p ∈ data →
        data_user (pop_data p) = user_id Demo.alice
        ∧ (∃ k, datas Demo.world !! k = Some (pop_data p))
        ∧ (∀ c, given (req_query (Demo.alice_lists "5") !! "category") = Some c →
                data_category (pop_data p) = c)
        ∧ (∀ s, given (req_query (Demo.alice_lists "5") !! "status") = Some s →
                data_status (pop_data p) = s).
Proof.
  eexists _, _, _. split; [vm_compute; reflexivity|].
  split; [reflexivity|]. split; [discriminate|].
  eapply (@list_holds_own_records Demo.runtime (Demo.alice_lists "5") Demo.alice
            Demo.world _ Demo.world).
  - intros key desc l x Hx. exact Hx.
  - reflexivity.
  - vm_compute. reflexivity.
  - reflexivity.
Defined.

Section SearchTheorems.
Context `{RT : Runtime}.

Lemma authenticateToken_Next_world (req req' : Request) (w w' : World) :
  authenticateToken req w = (Val (Next req'), w') →
  w' = after_roundtrip w ∧ ∃ u, req' = set_user u req.
Proof.
  intros H.
  destruct (token_given (header_token req)) eqn:Hg.
  - apply token_given_Some in Hg as (t & Ht & Hne).
    destruct (jwt_verify t) as [decoded|e] eqn:Hv.
    + rewrite (authenticateToken_verified _ _ _ _ Ht Hne Hv) in H.
      unfold decoded_user, prop, User_findById in H. run.
      destruct (nullish decoded); [by repeat case_match|].
      destruct (castId (field decoded "id") w) as [[oid|e] w1] eqn:Hc;
        [|by repeat case_match].
      assert (w1 = w) as ->.
      { unfold castId in Hc. run. repeat case_match; by simplify_eq. }
      destruct (roundtrip w) as [[[]|e] w2] eqn:Hrt; [|by repeat case_match].
      apply roundtrip_Val in Hrt as ->.
      repeat case_match; simplify_eq; eauto.
    + rewrite (authenticateToken_unverified _ _ _ _ Ht Hne Hv) in H.
      by repeat case_match.
  - by rewrite (authenticateToken_no_token _ _ Hg) in H.
Qed.

(** X18: the search does not look at who asks.  [GET /api/user/search] is
    mounted behind [authenticateToken] alone: two callers who both pass
    authentication, an administrator and anybody else, get the same answer
    to the same query, and the answer of the handler does not depend on the
    identity attached to the request. *)
Theorem search_ignores_the_caller (now : Z) (r1 r2 : Request) (w : World) :
  req_query r1 = req_query r2 →
  get_user_search r1 w = get_user_search r2 w
  ∧ (∀ q1 w1 q2 w2,
       authenticateToken r1 w = (Val (Next q1), w1) →
       authenticateToken r2 w = (Val (Next q2), w2) →
       route now GetUserSearch r1 w = route now GetUserSearch r2 w).
Proof.
  intros Hq.
  assert (∀ a b w0, req_query a = req_query b →
            get_user_search a w0 = get_user_search b w0) as Hsame.
  { intros a b w0 E. unfold get_user_search. by rewrite E. }
  split; [by apply Hsame|].
  intros q1 w1 q2 w2 H1 H2. unfold route. run. rewrite H1, H2.
  apply authenticateToken_Next_world in H1 as [-> [u1 ->]].
  apply authenticateToken_Next_world in H2 as [-> [u2 ->]].
  simpl. by apply Hsame.
Qed.

(** X19: a search needs two characters.  Without a [query], or with one
    that is shorter than two characters once trimmed, the search is
    answered 400 before any pattern is compiled and before the database is
    asked; the world is as it was. *)
Theorem short_query_is_400 (req : Request) (w : World) :
  (∀ q, req_query req !! "query" = Some q → (String.length (trim q) < 2)%nat) →
  get_user_search req w
  = (Val (rejected 400 "Search query must be at least 2 characters long"), w).
Proof.
  intros Hshort. unfold get_user_search. cbv zeta. run.
  unfold given. destruct (req_query req !! "query") as [q|]; [|done].
  destruct (String.eqb q ""); [done|].
  specialize (Hshort q eq_refl). apply Nat.ltb_lt in Hshort. by rewrite Hshort.
Qed.

End SearchTheorems.

Lemma search_ignores_the_caller_witness :
  @get_user_search Demo.runtime
     (Demo.request None "" [("query", "ali")] JUndefined (Some Demo.root))
     Demo.world
  = @get_user_search Demo.runtime
      (Demo.request None "" [("query", "ali")] JUndefined (Some Demo.bob))
      Demo.world.
Proof.
  apply (@search_ignores_the_caller Demo.runtime 9
           (Demo.request None "" [("query", "ali")] JUndefined (Some Demo.root))
           (Demo.request None "" [("query", "ali")] JUndefined (Some Demo.bob))
           Demo.world).
  reflexivity.
Defined.

Lemma short_query_is_400_witness :
  @get_user_search Demo.runtime
     (Demo.request None "" [("query", "  a ")] JUndefined (Some Demo.root))
     Demo.world
  = (Val (rejected 400 "Search query must be at least 2 characters long"),
     Demo.world).
Proof.
  apply (@short_query_is_400 Demo.runtime).
  intros q Hq. vm_compute in Hq. injection Hq as <-. vm_compute. lia.
Defined.

(** ** Statistics *)

Lemma group_add_counts (d : Data) (gs : list Group) :
  sum_list (map g_count (group_add d gs)) = S (sum_list (map g_count gs)).
Proof.
  induction gs as [|g gs IH]; simpl; [done|].
  destruct (String.eqb (g_id g) (data_category d)); simpl; [done|].
  rewrite IH. lia.
Qed.

Lemma group_add_ids (d : Data) (gs : list Group) :
  map g_id (group_add d gs) = addToSet (map g_id gs) (data_category d).
Proof.
  unfold addToSet. induction gs as [|g gs IH]; simpl; [done|].
  rewrite (String.eqb_sym (data_category d)).
  destruct (String.eqb (g_id g) (data_category d)); simpl; [done|].
  rewrite IH. by destruct (existsb _ _).
Qed.

Lemma existsb_eqb_elem_of (x : string) (l : list string) :
  existsb (String.eqb x) l = true ↔ x ∈ l.
Proof.
  rewrite existsb_exists. split.
  - intros (y & Hy & E). apply String.eqb_eq in E as ->. by apply list_elem_of_In.
  - intros H. exists x. split; [by apply list_elem_of_In|apply String.eqb_refl].
Qed.

Lemma addToSet_NoDup (l : list string) (x : string) :
  NoDup l → NoDup (addToSet l x).
Proof.
  intros Hl. unfold addToSet. destruct (existsb _ _) eqn:E; [done|].
  apply NoDup_app. split; [done|]. split; [|apply NoDup_singleton].
  intros y Hy ->%list_elem_of_singleton.
  apply existsb_eqb_elem_of in Hy. congruence.
Qed.

Lemma elem_of_addToSet (l : list string) (x y : string) :
  y ∈ addToSet l x ↔ y ∈ l ∨ y = x.
Proof.
  unfold addToSet. destruct (existsb _ _) eqn:E.
  - apply existsb_eqb_elem_of in E. split; [auto|]. by intros [?| ->].
  - rewrite elem_of_app, list_elem_of_singleton. done.
Qed.

Lemma foldl_addToSet_NoDup (xs acc : list string) :
  NoDup acc → NoDup (foldl addToSet acc xs).
Proof.
  revert acc. induction xs as [|x xs IH]; intros acc H; simpl; [done|].
  by apply IH, addToSet_NoDup.
Qed.

Lemma elem_of_foldl_addToSet (xs acc : list string) (y : string) :
  y ∈ foldl addToSet acc xs ↔ y ∈ acc ∨ y ∈ xs.
Proof.
  revert acc. induction xs as [|x xs IH]; intros acc; simpl.
  - rewrite elem_of_nil. tauto.
  - rewrite IH, elem_of_addToSet, elem_of_cons. tauto.
Qed.

(** What [$group] by category has gathered once the documents [ds] have
    gone through, from the groups [gs]. *)
Lemma group_fold_counts (ds : list Data) (gs : list Group) :
  sum_list (map g_count (foldl (fun gs d => group_add d gs) gs ds))
  = (sum_list (map g_count gs) + List.length ds)%nat.
Proof.
  revert gs. induction ds as [|d ds IH]; intros gs; simpl; [lia|].
  rewrite IH, group_add_counts. lia.
Qed.

Lemma group_fold_ids (ds : list Data) (gs : list Group) :
  map g_id (foldl (fun gs d => group_add d gs) gs ds)
  = foldl addToSet (map g_id gs) (map data_category ds).
Proof.
  revert gs. induction ds as [|d ds IH]; intros gs; simpl; [done|].
  by rewrite IH, group_add_ids.
Qed.

Lemma groups_of_NoDup (ds : list Data) : NoDup (map g_id (groups_of ds)).
Proof.
  unfold groups_of. rewrite group_fold_ids.
  apply foldl_addToSet_NoDup, NoDup_nil_2.
Qed.

(** Groups of distinct keys that hold the values of the documents of their
    keys, in their order and counted, still do when a document arrives. *)
Lemma group_add_values (seen : list Data) (d : Data) (gs : list Group) :
  NoDup (map g_id gs) →
  (∀ g, g ∈ gs →
        g_values g = map data_value (in_category (g_id g) seen)
        ∧ g_count g = List.length (g_values g)) →
  (data_category d ∉ map g_id gs → in_category (data_category d) seen = []) →
  ∀ g, g ∈ group_add d gs →
       g_values g = map data_value (in_category (g_id g) (seen ++ [d]))
       ∧ g_count g = List.length (g_values g).
Proof.
  unfold in_category.
  induction gs as [|g0 gs IH]; simpl; intros Hnd Hall Hnew g Hg.
  - apply list_elem_of_singleton in Hg as ->. simpl.
    rewrite List.filter_app, Hnew by apply not_elem_of_nil. simpl.
    by rewrite String.eqb_refl.
  - apply NoDup_cons in Hnd as [Hfresh Hnd].
    destruct (String.eqb (g_id g0) (data_category d)) eqn:E.
    + apply String.eqb_eq in E.
      apply elem_of_cons in Hg as [->|Hg]; simpl.
      * destruct (Hall g0 ltac:(left)) as [Hv Hc].
        rewrite List.filter_app, map_app, <- Hv. simpl.
        rewrite <- E, String.eqb_refl. simpl.
        split; [done|]. rewrite List.length_app, <- Hc. simpl. lia.
      * destruct (Hall g ltac:(by right)) as [Hv Hc].
        split; [|done]. rewrite List.filter_app, map_app, <- Hv. simpl.
        assert (g_id g ≠ data_category d) as Hne.
        { intros Heq. apply Hfresh. rewrite E, <- Heq.
          by apply list_elem_of_fmap_2. }
        destruct (String.eqb_spec (data_category d) (g_id g)); [congruence|].
        simpl. by rewrite app_nil_r.
    + apply String.eqb_neq in E.
      apply elem_of_cons in Hg as [->|Hg].
      * destruct (Hall g0 ltac:(left)) as [Hv Hc].
        split; [|done]. rewrite List.filter_app, map_app, <- Hv. simpl.
        destruct (String.eqb_spec (data_category d) (g_id g0)); [congruence|].
        simpl. by rewrite app_nil_r.
      * apply IH; [done| | |done].
        -- intros g' Hg'. apply Hall. by right.
        -- intros Hnone. apply Hnew. intros [Heq|Hin]%elem_of_cons; [congruence|].
           by apply Hnone.
Qed.

Lemma group_fold_values (ds seen : list Data) (gs : list Group) :
  NoDup (map g_id gs) →
  (∀ g, g ∈ gs →
        g_values g = map data_value (in_category (g_id g) seen)
        ∧ g_count g = List.length (g_values g)) →
  (∀ c, c ∉ map g_id gs → in_category c seen = []) →
  ∀ g, g ∈ foldl (fun gs d => group_add d gs) gs ds →
       g_values g = map data_value (in_category (g_id g) (seen ++ ds))
       ∧ g_count g = List.length (g_values g).
Proof.
  revert seen gs. induction ds as [|d ds IH]; intros seen gs Hnd Hall Hnew g Hg;
    simpl in Hg.
  - rewrite app_nil_r. by apply Hall.
  - replace (seen ++ d :: ds)%list with ((seen ++ [d]) ++ ds)%list
      by (by rewrite <- app_assoc).
    apply (IH (seen ++ [d])%list (group_add d gs)); [| | |done].
    + rewrite group_add_ids. by apply addToSet_NoDup.
    + apply group_add_values; [done|done|]. apply Hnew.
    + intros c Hc. rewrite group_add_ids, elem_of_addToSet in Hc.
      unfold in_category in *. rewrite List.filter_app, Hnew by tauto. simpl.
      destruct (String.eqb_spec (data_category d) c); [|done].
      exfalso. apply Hc. by right.
Qed.

(** A group counts the documents of its category and holds their values. *)
Lemma groups_of_spec (ds : list Data) (g : Group) :
  g ∈ groups_of ds →
  g_values g = map data_value (in_category (g_id g) ds)
  ∧ g_count g = List.length (in_category (g_id g) ds)
  ∧ (1 ≤ g_count g)%nat.
Proof.
  intros Hg.
  destruct (group_fold_values ds [] [] (NoDup_nil_2)
              ltac:(by intros ? ?%elem_of_nil) ltac:(done) g Hg) as [Hv Hc].
  simpl in Hv. split; [done|].
  assert (g_count g = List.length (in_category (g_id g) ds)) as Hn
    by (by rewrite Hc, Hv, List.length_map).
  split; [done|].
  assert (g_id g ∈ foldl addToSet [] (map data_category ds)) as Hid.
  { pose proof (group_fold_ids ds []) as E. simpl in E. rewrite <- E.
    by apply list_elem_of_fmap_2. }
  apply elem_of_foldl_addToSet in Hid as [Hid|Hid]; [by apply elem_of_nil in Hid|].
  apply list_elem_of_fmap in Hid as (d & Hd & Hin).
  rewrite Hn. unfold in_category.
  assert (d ∈ List.filter (fun d => String.eqb (data_category d) (g_id g)) ds) as Hm.
  { apply list_elem_of_In, filter_In. split; [by apply list_elem_of_In|].
    rewrite Hd. apply String.eqb_refl. }
  destruct (List.filter _ ds); [by apply elem_of_nil in Hm|simpl; lia].
Qed.

Lemma count_desc_total : Total count_desc.
Proof. intros a b. unfold count_desc. lia. Qed.

Lemma count_desc_trans : Transitive count_desc.
Proof. intros a b c. unfold count_desc. lia. Qed.

Lemma sort_by_count_Permutation (gs : list CategoryStat) :
  sort_by_count gs ≡ₚ gs.
Proof. apply sorting.merge_sort_Permutation. Qed.

Lemma sort_by_count_sorted (gs : list CategoryStat) :
  Sorted.StronglySorted count_desc (sort_by_count gs).
Proof.
  apply (@sorting.StronglySorted_merge_sort _ count_desc _
           count_desc_trans count_desc_total).
Qed.

(** The documents that [{ user: uid }] selects are the records that [uid]
    owns. *)
Lemma elem_of_records_of (uid : string) (w : World) (d : Data) :
  d ∈ records_of uid w ↔ ∃ k, owned_by uid w !! k = Some d.
Proof.
  unfold records_of, owned_by.
  rewrite list_elem_of_In, filter_In, <- list_elem_of_In, String.eqb_eq.
  rewrite list_elem_of_fmap. split.
  - intros [([k d'] & -> & Hin) Hu]. exists k.
    apply map_lookup_filter_Some. split; [|done].
    by apply elem_of_map_to_list in Hin.
  - intros [k [Hk Hu]%map_lookup_filter_Some]. simpl in Hu. split; [|done].
    exists (k, d). split; [done|]. by apply elem_of_map_to_list.
Qed.

Lemma length_filter_values (P : Data → bool) (m : gmap string Data) :
  List.length (List.filter P (map snd (map_to_list m)))
  = size (filter (fun kv => P kv.2 = true) m).
Proof.
  induction m as [|k d m Hk IH] using map_ind.
  - by rewrite map_to_list_empty, map_filter_empty, map_size_empty.
  - assert (List.length (List.filter P (map snd (map_to_list (<[k:=d]> m))))
            = List.length (List.filter P (d :: map snd (map_to_list m)))) as ->.
    { apply Permutation_length.
      assert (map snd (map_to_list (<[k:=d]> m)) ≡ₚ d :: map snd (map_to_list m)) as HP.
      { rewrite (map_to_list_insert m k d Hk). done. }
      clear -HP. revert HP.
      generalize (map snd (map_to_list (<[k:=d]> m))) (d :: map snd (map_to_list m)).
      intros l1 l2 HP. induction HP; simpl; repeat case_match; eauto;
        try (by constructor); try (by etrans). }
    simpl. destruct (P d) eqn:E.
    + rewrite map_filter_insert_True by done.
      rewrite map_size_insert_None; [simpl; by rewrite IH|].
      apply map_lookup_filter_None. by left.
    + rewrite map_filter_insert_False by (simpl; congruence).
      by rewrite delete_id.
Qed.

Lemma length_records_of (uid : string) (w : World) :
  List.length (records_of uid w) = size (owned_by uid w).
Proof.
  unfold records_of, owned_by. rewrite length_filter_values.
  f_equal. apply map_filter_ext. intros k d _. simpl. apply String.eqb_eq.
Qed.

Lemma records_of_after_roundtrip (uid : string) (w : World) :
  records_of uid (after_roundtrip w) = records_of uid w.
Proof. unfold records_of, after_roundtrip. by destruct (faults w). Qed.

Lemma datas_after_roundtrip (w : World) : datas (after_roundtrip w) = datas w.
Proof. unfold after_roundtrip. by destruct (faults w). Qed.

Lemma Data_match_user_inv (uid : string) (w : World) (l : list Data) (w' : World) :
  Data_match_user uid w = (Val l, w') →
  w' = after_roundtrip w ∧ l = records_of uid w.
Proof.
  unfold Data_match_user. intros H.
  apply bind_Val_inv in H as ([] & w1 & Hrt & H). apply roundtrip_Val in Hrt as ->.
  run. injection H as <- <-. by rewrite records_of_after_roundtrip.
Qed.

Lemma Data_countDocuments_inv (P : Data → bool) (w : World) (n : nat) (w' : World) :
  Data_countDocuments P w = (Val n, w') →
  w' = after_roundtrip w
  ∧ n = List.length (List.filter P (map snd (map_to_list (datas w)))).
Proof.
  unfold Data_countDocuments. intros H.
  apply bind_Val_inv in H as ([] & w1 & Hrt & H). apply roundtrip_Val in Hrt as ->.
  run. injection H as <- <-. by rewrite datas_after_roundtrip.
Qed.

Section StatisticsTheorems.
Context `{RT : Runtime}.

Lemma get_stats_summary_inv (req : Request) (w : World) (r : StatsResponse)
    (w' : World) (s : Summary) (bd : list CategoryStat) :
  get_stats_summary req w = (Val r, w') →
  stats_payload r = SummaryOk s bd →
  ∃ u, req_user req = Some u
       ∧ s = default (mkSummary false 0 0 0 [] [])
                     (head (group_all (records_of (user_id u) w)))
       ∧ bd = sort_by_count (group_by_category (records_of (user_id u) w)).
Proof.
  intros H Hp. unfold get_stats_summary in H.
  apply try_catch_cases in H as [(a & [= <-] & H)|(e & w1 & _ & H)];
    [|apply ret_Val_inv in H as [-> _]; done].
  unfold current_user in H. destruct (req_user req) as [u|]; [|done].
  exists u. split; [done|].
  apply bind_Val_inv in H as (u' & w1 & [-> ->]%ret_Val_inv & H).
  apply bind_Val_inv in H as (l1 & w2 & [-> ->]%Data_match_user_inv & H).
  apply bind_Val_inv in H as (l2 & w3 & [-> ->]%Data_match_user_inv & H).
  apply ret_Val_inv in H as [-> _]. simpl in Hp. injection Hp as <- <-.
  by rewrite records_of_after_roundtrip.
Qed.

Lemma get_user_stats_inv (req : Request) (w : World) (r : StatsResponse)
    (w' : World) (total active : nat) (bd : list CategoryStat)
    (lastLogin : option Z) :
  get_user_stats req w = (Val r, w') →
  stats_payload r = UserStatsOk total active bd lastLogin →
  ∃ u, req_user req = Some u
       ∧ total = List.length (records_of (user_id u) w)
       ∧ active = List.length
                    (List.filter (fun d => String.eqb (data_status d) "active")
                                 (records_of (user_id u) w))
       ∧ bd = sort_by_count (group_by_category (records_of (user_id u) w))
       ∧ lastLogin = user_lastLogin u.
Proof.
  intros H Hp. unfold get_user_stats in H.
  apply try_catch_cases in H as [(a & [= <-] & H)|(e & w1 & _ & H)];
    [|apply ret_Val_inv in H as [-> _]; done].
  unfold current_user in H. destruct (req_user req) as [u|]; [|done].
  exists u. split; [done|].
  apply bind_Val_inv in H as (u' & w1 & [-> ->]%ret_Val_inv & H).
  apply bind_Val_inv in H as (l1 & w2 & [-> ->]%Data_match_user_inv & H).
  apply bind_Val_inv in H as (n1 & w3 & [-> ->]%Data_countDocuments_inv & H).
  apply bind_Val_inv in H as (n2 & w4 & [-> ->]%Data_countDocuments_inv & H).
  apply ret_Val_inv in H as [-> _]. simpl in Hp. injection Hp as <- <- <- <-.
  rewrite !datas_after_roundtrip. unfold records_of.
  split; [done|]. split; [|done].
  generalize (map snd (map_to_list (datas w))). intros l.
  induction l as [|d l IH]; simpl; [done|].
  destruct (String.eqb (data_user d) (user_id u)); simpl;
    destruct (String.eqb (data_status d) "active"); simpl; by rewrite ?IH.
Qed.

Lemma breakdown_totals (ds : list Data) :
  sum_list (map cs_count (sort_by_count (group_by_category ds))) = List.length ds
  ∧ map cs_id (sort_by_count (group_by_category ds))
    ≡ₚ foldl addToSet [] (map data_category ds).
Proof.
  pose proof (sort_by_count_Permutation (group_by_category ds)) as HP.
  unfold group_by_category in *. split.
  - rewrite HP, <- list_fmap_compose.
    change (cs_count ∘ group_stat) with g_count.
    unfold groups_of. by rewrite group_fold_counts.
  - rewrite HP, <- list_fmap_compose.
    change (cs_id ∘ group_stat) with g_id.
    unfold groups_of. by rewrite group_fold_ids.
Qed.

Lemma breakdown_groups (ds : list Data) (g : CategoryStat) :
  g ∈ sort_by_count (group_by_category ds) →
  cs_count g = List.length (in_category (cs_id g) ds)
  ∧ cs_totalValue g = engine_sum (map data_value (in_category (cs_id g) ds))
  ∧ (1 ≤ cs_count g)%nat.
Proof.
  intros Hg. rewrite sort_by_count_Permutation in Hg.
  apply list_elem_of_fmap in Hg as (g0 & -> & Hg0).
  destruct (groups_of_spec ds g0 Hg0) as (Hv & Hc & H1).
  simpl. by rewrite Hv.
Qed.

Lemma elem_of_foldl_addToSet_records (f : Data → string) (uid : string)
    (w : World) (x : string) :
  x ∈ foldl addToSet [] (map f (records_of uid w))
  ↔ ∃ k d, owned_by uid w !! k = Some d ∧ f d = x.
Proof.
  rewrite elem_of_foldl_addToSet, elem_of_nil, list_elem_of_fmap. split.
  - intros [[]|(d & -> & [k Hk]%elem_of_records_of)]. eauto.
  - intros (k & d & Hk & <-). right. exists d. split; [done|].
    apply elem_of_records_of. eauto.
Qed.

(** X20: the summary and its breakdown agree on what they count.  In a 200
    answer of [GET /api/data/stats/summary], [totalRecords] is the number
    of records that the caller owns, the [count]s of the breakdown add up
    to it, the categories of the summary are those of the breakdown, each
    once, and they and the statuses of the summary are exactly the
    categories and the statuses of the records that the caller owns. *)
Theorem summary_agrees_with_breakdown (req : Request) (w : World)
    (r : StatsResponse) (w' : World) (s : Summary) (bd : list CategoryStat) :
  get_stats_summary req w = (Val r, w') →
  stats_payload r = SummaryOk s bd →
  ∃ u, req_user req = Some u
       ∧ sm_totalRecords s = size (owned_by (user_id u) w)
       ∧ sum_list (map cs_count bd) = sm_totalRecords s
       ∧ map cs_id bd ≡ₚ sm_categories s
       ∧ NoDup (sm_categories s)
       ∧ (∀ c, c ∈ sm_categories s
               ↔ ∃ k d, owned_by (user_id u) w !! k = Some d ∧ data_category d = c)
       ∧ (∀ st, st ∈ sm_statuses s
                ↔ ∃ k d, owned_by (user_id u) w !! k = Some d ∧ data_status d = st).
Proof.
  intros H Hp.
  destruct (get_stats_summary_inv _ _ _ _ _ _ H Hp) as (u & Hu & -> & ->).
  exists u. split; [done|]. rewrite <- length_records_of.
  destruct (breakdown_totals (records_of (user_id u) w)) as (Hc & Hids).
  rewrite Hc, Hids.
  pose proof (elem_of_foldl_addToSet_records data_category (user_id u) w) as Hcat.
  pose proof (elem_of_foldl_addToSet_records data_status (user_id u) w) as Hst.
  unfold group_all.
  destruct (records_of (user_id u) w) as [|d ds] eqn:E; simpl head; simpl default;
    cbn [sm_totalRecords sm_categories sm_statuses].
  - split; [done|]. split; [done|]. split; [done|].
    split; [apply NoDup_nil_2|]. split; [apply Hcat|apply Hst].
  - split; [done|]. split; [done|]. split; [done|].
    split; [apply (foldl_addToSet_NoDup (map data_category (d :: ds)) []),
              NoDup_nil_2|].
    split; [apply Hcat|apply Hst].
Qed.

(** X21: a group of the breakdown is a category of the caller.  In a 200
    answer of [GET /api/data/stats/summary] or of [GET /api/user/stats],
    the groups are in descending order of [count], no category comes
    twice, and each group counts the caller's records of its category, at
    least one, and its [totalValue] is the sum that the engine makes of
    the values of those records and of no other. *)
Theorem breakdown_counts_the_callers_records (req : Request) (w : World)
    (r : StatsResponse) (w' : World) (bd : list CategoryStat) :
  (get_stats_summary req w = (Val r, w')
   ∧ ∃ s, stats_payload r = SummaryOk s bd)
  ∨ (get_user_stats req w = (Val r, w')
     ∧ ∃ total active lastLogin,
         stats_payload r = UserStatsOk total active bd lastLogin) →
  ∃ u, req_user req = Some u
       ∧ Sorted.StronglySorted count_desc bd
       ∧ NoDup (map cs_id bd)
       ∧ ∀ g, g ∈ bd →
           cs_count g = List.length (in_category (cs_id g) (records_of (user_id u) w))
           ∧ cs_totalValue g
             = engine_sum (map data_value
                             (in_category (cs_id g) (records_of (user_id u) w)))
           ∧ (1 ≤ cs_count g)%nat.
Proof.
  intros H.
  assert (∃ u, req_user req = Some u
               ∧ bd = sort_by_count (group_by_category (records_of (user_id u) w)))
    as (u & Hu & ->).
  { destruct H as [[H [s Hp]]|[H (t & a & l & Hp)]].
    - destruct (get_stats_summary_inv _ _ _ _ _ _ H Hp) as (u & ? & _ & ?); eauto.
    - destruct (get_user_stats_inv _ _ _ _ _ _ _ _ H Hp) as (u & ? & _ & _ & ? & _);
        eauto. }
  exists u. split; [done|]. split; [apply sort_by_count_sorted|]. split.
  - rewrite sort_by_count_Permutation. unfold group_by_category.
    rewrite <- list_fmap_compose. change (cs_id ∘ group_stat) with g_id.
    apply groups_of_NoDup.
  - intros g Hg. by apply breakdown_groups.
Qed.

(** X22: the counts of [GET /api/user/stats].  In a 200 answer,
    [totalData] is the number of records that the caller owns, [activeData]
    is at most [totalData], the [count]s by category add up to [totalData],
    and [lastLogin] is the one of the identity that the request carries. *)
Theorem user_stats_counts (req : Request) (w : World) (r : StatsResponse)
    (w' : World) (total active : nat) (bd : list CategoryStat)
    (lastLogin : option Z) :
  get_user_stats req w = (Val r, w') →
  stats_payload r = UserStatsOk total active bd lastLogin →
  ∃ u, req_user req = Some u
       ∧ total = size (owned_by (user_id u) w)
       ∧ (active ≤ total)%nat
       ∧ sum_list (map cs_count bd) = total
       ∧ lastLogin = user_lastLogin u.
Proof.
  intros H Hp.
  destruct (get_user_stats_inv _ _ _ _ _ _ _ _ H Hp) as (u & Hu & -> & -> & -> & ->).
  exists u. split; [done|]. split; [apply length_records_of|].
  split; [apply List.filter_length_le|]. split; [|done].
  apply breakdown_totals.
Qed.

Lemma get_stats_summary_empty (req : Request) (w : World) (u : User) :
  req_user req = Some u → faults w = [] → records_of (user_id u) w = [] →
  get_stats_summary req w
  = (Val (mkStatsResponse 200 (SummaryOk (mkSummary false 0 0 0 [] []) [])), w).
Proof.
  intros Hu Hf Hr.
  unfold get_stats_summary, current_user, Data_match_user. rewrite Hu. run.
  rewrite (roundtrip_healthy _ Hf). simpl. rewrite (roundtrip_healthy _ Hf).
  simpl. by rewrite Hr.
Qed.

(** X23: no record, no division.  With a healthy database, a caller who
    owns no record gets the 200 answer of [GET /api/data/stats/summary]
    with the default summary, all zeros and no category, and an empty
    breakdown. *)
Theorem no_records_zero_summary (req : Request) (w : World) (u : User) :
  req_user req = Some u → faults w = [] → owned_by (user_id u) w = ∅ →
  get_stats_summary req w
  = (Val (mkStatsResponse 200 (SummaryOk (mkSummary false 0 0 0 [] []) [])), w).
Proof.
  intros Hu Hf Hnone. apply (get_stats_summary_empty req w u Hu Hf).
  apply length_zero_iff_nil. rewrite length_records_of, Hnone.
  apply map_size_empty.
Qed.

(** X24: the statistics only read.  [GET /api/data/stats/summary] and
    [GET /api/user/stats] always answer, with 200 or with 500, and leave
    both collections as they were, whatever the request and whatever the
    database does; without an identity on the request the answer is 500. *)
Theorem statistics_only_read (req : Request) (w : World) :
  (∃ r w', get_stats_summary req w = (Val r, w')
           ∧ same_stores w w'
           ∧ (stats_status r = 200%nat ∨ stats_status r = 500%nat)
           ∧ (req_user req = None → stats_status r = 500%nat))
  ∧ (∃ r w', get_user_stats req w = (Val r, w')
             ∧ same_stores w w'
             ∧ (stats_status r = 200%nat ∨ stats_status r = 500%nat)
             ∧ (req_user req = None → stats_status r = 500%nat)).
Proof.
  assert (∀ w0 r0 w1, roundtrip w0 = (r0, w1) → same_stores w0 w1) as Hrt.
  { intros w0 r0 w1. apply (keeps_roundtrip _ frame_same_stores). }
  destruct frame_same_stores as (Hrefl & Htrans & _).
  split.
  - unfold get_stats_summary, current_user, Data_match_user.
    destruct (req_user req) as [u|]; run;
      [|eexists _, _; split; [reflexivity|]; simpl; auto].
    destruct (roundtrip w) as [[[]|e] w1] eqn:E1;
      [|eexists _, _; split; [reflexivity|]; simpl; split; [eauto|by split; [right|]]].
    destruct (roundtrip w1) as [[[]|e] w2] eqn:E2;
      eexists _, _; (split; [reflexivity|]); simpl;
      (split; [eauto|split; [auto|done]]).
  - unfold get_user_stats, current_user, Data_match_user, Data_countDocuments.
    destruct (req_user req) as [u|]; run;
      [|eexists _, _; split; [reflexivity|]; simpl; auto].
    destruct (roundtrip w) as [[[]|e] w1] eqn:E1;
      [|eexists _, _; split; [reflexivity|]; simpl; split; [eauto|by split; [right|]]].
    destruct (roundtrip w1) as [[[]|e] w2] eqn:E2;
      [|eexists _, _; split; [reflexivity|]; simpl; split; [eauto|by split; [right|]]].
    destruct (roundtrip w2) as [[[]|e] w3] eqn:E3;
      eexists _, _; (split; [reflexivity|]); simpl;
      (split; [eauto 6|split; [auto|done]]).
Qed.

End StatisticsTheorems.

Lemma summary_agrees_with_breakdown_witness :
  ∃ r w' s bd,
    @get_stats_summary Demo.runtime Demo.alice_creates stats_world = (Val r, w')
    ∧ stats_payload r = SummaryOk s bd
    ∧ sm_totalRecords s = 3%nat
    ∧ ∃ u, req_user Demo.alice_creates = Some u
           ∧ sm_totalRecords s = size (owned_by (user_id u) stats_world)
           ∧ sum_list (map cs_count bd) = sm_totalRecords s
           ∧ map cs_id bd ≡ₚ sm_categories s
           ∧ NoDup (sm_categories s)
           ∧ (∀ c, c ∈ sm_categories s
                   ↔ ∃ k d, owned_by (user_id u) stats_world !! k = Some d
                            ∧ data_category d = c)
           ∧ (∀ st, st ∈ sm_statuses s
                    ↔ ∃ k d, owned_by (user_id u) stats_world !! k = Some d
                             ∧ data_status d = st).
Proof.
  eexists _, _, _, _. split; [vm_compute; reflexivity|].
  split; [reflexivity|]. split; [reflexivity|].
  eapply (@summary_agrees_with_breakdown Demo.runtime Demo.alice_creates stats_world);
    [vm_compute; reflexivity|reflexivity].
Defined.

Lemma breakdown_counts_the_callers_records_witness :
  ∃ r w' bd,
    @get_user_stats Demo.runtime Demo.alice_creates stats_world = (Val r, w')
    ∧ stats_payload r = UserStatsOk 3 2 bd None
    ∧ List.length bd = 2%nat
    ∧ ∃ u, req_user Demo.alice_creates = Some u
           ∧ Sorted.StronglySorted count_desc bd
           ∧ NoDup (map cs_id bd)
           ∧ ∀ g, g ∈ bd →
               cs_count g
               = List.length (in_category (cs_id g) (records_of (user_id u) stats_world))
               ∧ cs_totalValue g
                 = @engine_sum Demo.runtime
                     (map data_value
                        (in_category (cs_id g) (records_of (user_id u) stats_world)))
               ∧ (1 ≤ cs_count g)%nat.
Proof.
  eexists _, _, _. split; [vm_compute; reflexivity|]. split; [reflexivity|].
  split; [reflexivity|].
  eapply (@breakdown_counts_the_callers_records Demo.runtime Demo.alice_creates
            stats_world).
  right. split; [vm_compute; reflexivity|]. eexists _, _, _. reflexivity.
Defined.

Lemma user_stats_counts_witness :
  ∃ r w' bd lastLogin,
    @get_user_stats Demo.runtime Demo.alice_creates stats_world = (Val r, w')
    ∧ stats_payload r = UserStatsOk 3 2 bd lastLogin
    ∧ ∃ u, req_user Demo.alice_creates = Some u
           ∧ 3%nat = size (owned_by (user_id u) stats_world)
           ∧ (2 ≤ 3)%nat
           ∧ sum_list (map cs_count bd) = 3%nat
           ∧ lastLogin = user_lastLogin u.
Proof.
  eexists _, _, _, _. split; [vm_compute; reflexivity|]. split; [reflexivity|].
  eapply (@user_stats_counts Demo.runtime Demo.alice_creates stats_world);
    [vm_compute; reflexivity|reflexivity].
Defined.

Lemma no_records_zero_summary_witness :
  @get_stats_summary Demo.runtime Demo.root_on_bob Demo.world
  = (Val (mkStatsResponse 200 (SummaryOk (mkSummary false 0 0 0 [] []) [])),
     Demo.world).
Proof.
  apply (@no_records_zero_summary Demo.runtime Demo.root_on_bob Demo.world Demo.root);
    [reflexivity|reflexivity|].
  apply map_empty. intros k. apply map_lookup_filter_None. right.
  intros d Hk. unfold Demo.world in Hk. simpl in Hk.
  apply lookup_insert_Some in Hk as [[_ <-]|[_ Hk]]; [by vm_compute|].
  apply lookup_insert_Some in Hk as [[_ <-]|[_ Hk]]; [by vm_compute|].
  by rewrite lookup_empty in Hk.
Defined.

(** ** The statics of [models/Data.js] *)

Lemma elem_of_values_filter (P : Data → bool) (m : gmap string Data) (d : Data) :
  d ∈ List.filter P (map snd (map_to_list m))
  ↔ (∃ k, m !! k = Some d) ∧ P d = true.
Proof.
  rewrite list_elem_of_In, filter_In, <- list_elem_of_In, list_elem_of_fmap.
  split.
  - intros [([k d'] & -> & Hin) HP]. split; [|done]. exists k.
    by apply elem_of_map_to_list in Hin.
  - intros [[k Hk] HP]. split; [|done]. exists (k, d). split; [done|].
    by apply elem_of_map_to_list.
Qed.

Lemma findByCategory_inv (category : string) (w : World) (found : list Data)
    (w' : World) :
  findByCategory category w = (Val found, w') →
  w' = after_roundtrip w
  ∧ found = List.filter
              (fun d => (String.eqb (data_category d) category
                         && String.eqb (data_status d) "active")%bool)
              (map snd (map_to_list (datas w))).
Proof.
  unfold findByCategory. intros H.
  apply bind_Val_inv in H as ([] & w1 & Hrt & H). apply roundtrip_Val in Hrt as ->.
  run. injection H as <- <-. by rewrite datas_after_roundtrip.
Qed.

(** X25: [findByCategory] is not scoped to an owner.  The query gives the
    records of the category whose status is [active], and all of them:
    whoever owns them and whether they are public or not.  It writes
    nothing. *)
Theorem findByCategory_crosses_owners (category : string) (w : World)
    (found : list Data) (w' : World) :
  findByCategory category w = (Val found, w') →
  same_stores w w'
  ∧ (∀ d, d ∈ found →
       data_category d = category ∧ data_status d = "active"
       ∧ ∃ k, datas w !! k = Some d)
  ∧ (∀ k d owner isPublic,
       datas w !! k = Some d →
       data_category d = category → data_status d = "active" →
       data_user d = owner → data_isPublic d = isPublic →
       d ∈ found).
Proof.
  intros [-> ->]%findByCategory_inv.
  split; [|split].
  - unfold same_stores, after_roundtrip. by destruct (faults w).
  - intros d [Hk [Hc Hs]%andb_true_iff]%elem_of_values_filter.
    apply String.eqb_eq in Hc, Hs. done.
  - intros k d owner isPublic Hk Hc Hs _ _. apply elem_of_values_filter.
    split; [eauto|]. apply andb_true_iff. by rewrite !String.eqb_eq.
Qed.

Lemma findByCategory_crosses_owners_witness :
  ∃ found w',
    findByCategory "metrics" stats_world = (Val found, w')
    ∧ same_stores stats_world w'
    ∧ (∀ d, d ∈ found →
         data_category d = "metrics" ∧ data_status d = "active"
         ∧ ∃ k, datas stats_world !! k = Some d)
    ∧ (∀ k d owner isPublic,
         datas stats_world !! k = Some d →
         data_category d = "metrics" → data_status d = "active" →
         data_user d = owner → data_isPublic d = isPublic →
         d ∈ found)
    ∧ (∃ d1 d2, d1 ∈ found ∧ d2 ∈ found ∧ data_user d1 ≠ data_user d2).
Proof.
  eexists _, _. split; [vm_compute; reflexivity|].
  assert (∀ A B C D : Prop, (A ∧ B ∧ C) → D → A ∧ B ∧ C ∧ D) as Hsplit by tauto.
  apply Hsplit.
  - eapply (findByCategory_crosses_owners "metrics" stats_world).
    vm_compute. reflexivity.
  - eexists _, _. split; [apply list_elem_of_here|].
    split; [apply list_elem_of_further, list_elem_of_here|]. by vm_compute.
Defined.

Section AfterDeletionReads.
Context `{RT : Runtime}.

Lemma records_of_after_deleteMany (uid : string) (w : World) (us : gmap string User) :
  records_of uid
    (set_users (fun _ => us) (set_datas (filter (fun kv => data_user kv.2 ≠ uid)) w))
  = [].
Proof.
  apply length_zero_iff_nil. rewrite length_records_of.
  replace (owned_by uid _) with (owned_by uid (set_datas (filter (fun kv => data_user kv.2 ≠ uid)) w))
    by done.
  rewrite owned_by_after_deleteMany. apply map_size_empty.
Qed.

(** X26: a deleted account has left no record to read.  With a parsed
    body and a healthy database, after [DELETE /api/user/account] has
    answered 200, [findByUser] of the deleted user is empty, no
    [findByCategory] gives a record of that user, and the statistics of
    that identity are the default summary of zeros. *)
Theorem deleted_account_has_no_record_left (req : Request) (w : World) (u : User) :
  req_user req = Some u → nullish (req_body req) = false → faults w = [] →
  ∃ w1, delete_user_account req w
        = (Val (mkResponse 200 (Success "Account deleted successfully")), w1)
        ∧ findByUser (user_id u) w1 = (Val [], w1)
        ∧ (∀ category found w2,
             findByCategory category w1 = (Val found, w2) →
             ∀ d, d ∈ found → data_user d ≠ user_id u)
        ∧ get_stats_summary req w1
          = (Val (mkStatsResponse 200
                    (SummaryOk (mkSummary false 0 0 0 [] []) [])), w1).
Proof.
  intros Hu Hb Hf.
  eexists. split; [by apply delete_user_account_healthy|].
  set (w1 := set_users _ _).
  assert (faults w1 = []) as Hf1 by done.
  assert (records_of (user_id u) w1 = []) as Hr.
  { apply (records_of_after_deleteMany (user_id u) w (delete (user_id u) (users w))). }
  split; [|split].
  - unfold findByUser, bind. rewrite (roundtrip_healthy _ Hf1).
    unfold get_world.
    change (List.filter _ (map snd (map_to_list (datas w1))))
      with (records_of (user_id u) w1).
    by rewrite Hr.
  - intros category found w2 H d Hd Hown.
    apply findByCategory_inv in H as [_ ->].
    apply elem_of_values_filter in Hd as [Hk _].
    assert (d ∈ records_of (user_id u) w1) as Hin.
    { apply elem_of_values_filter. split; [done|]. by apply String.eqb_eq. }
    rewrite Hr in Hin. by apply elem_of_nil in Hin.
  - by apply (get_stats_summary_empty req w1 u).
Qed.

End AfterDeletionReads.

Lemma deleted_account_has_no_record_left_witness :
  ∃ w1, delete_user_account Demo.alice_creates Demo.world
        = (Val (mkResponse 200 (Success "Account deleted successfully")), w1)
        ∧ findByUser (user_id Demo.alice) w1 = (Val [], w1)
        ∧ (∀ category found w2,
             findByCategory category w1 = (Val found, w2) →
             ∀ d, d ∈ found → data_user d ≠ user_id Demo.alice)
        ∧ @get_stats_summary Demo.runtime Demo.alice_creates w1
          = (Val (mkStatsResponse 200
                    (SummaryOk (mkSummary false 0 0 0 [] []) [])), w1).
Proof.
  apply (@deleted_account_has_no_record_left Demo.runtime Demo.alice_creates
           Demo.world Demo.alice); reflexivity.
Defined.

(** ** The methods of [models/Data.js] *)

Lemma elem_of_without (tag t : string) (l : list string) :
  t ∈ List.filter (fun x => negb (String.eqb x tag)) l ↔ t ∈ l ∧ t ≠ tag.
Proof.
  rewrite list_elem_of_In, filter_In, <- list_elem_of_In, negb_true_iff,
    String.eqb_neq. done.
Qed.

Lemma without_absent (tag : string) (l : list string) :
  tag ∉ l → List.filter (fun x => negb (String.eqb x tag)) l = l.
Proof.
  induction l as [|x l IH]; simpl; [done|].
  intros Hn. apply not_elem_of_cons in Hn as [Hne Hn].
  destruct (String.eqb x tag) eqn:E.
  - apply String.eqb_eq in E. congruence.
  - simpl. by rewrite IH.
Qed.

Lemma without_pushed (tag : string) (l : list string) :
  tag ∉ l → List.filter (fun x => negb (String.eqb x tag)) (l ++ [tag]) = l.
Proof.
  intros Hn. rewrite List.filter_app, (without_absent _ _ Hn). simpl.
  rewrite String.eqb_refl. simpl. apply app_nil_r.
Qed.

Lemma save_whole_keeps (now : Z) : save_keeps (save_whole now).
Proof.
  intros d w d' w'. unfold save_whole. intros H.
  apply bind_Val_inv in H as ([] & w1 & _ & H). run. by injection H as <- <-.
Qed.

(** X27: a tag added is a tag that can be taken away.  For a [save] that
    gives back the tags it was given and a tag without white space around
    it: after [addTag] the tag is among the tags, tags that were distinct
    still are, and a following [removeTag] leaves no occurrence of the tag,
    keeps every other tag, and gives back the former tags when the tag was
    not among them. *)
Theorem addTag_then_removeTag (save : Data → M Data) (tag : string)
    (d d1 d2 : Data) (w w1 w2 : World) :
  save_keeps save → trim tag = tag →
  addTag save tag d w = (Val d1, w1) →
  removeTag save tag d1 w1 = (Val d2, w2) →
  tag ∈ data_tags d1
  ∧ (NoDup (data_tags d) → NoDup (data_tags d1))
  ∧ (tag ∉ data_tags d2)
  ∧ (∀ t, t ≠ tag → (t ∈ data_tags d2 ↔ t ∈ data_tags d))
  ∧ (tag ∉ data_tags d → data_tags d2 = data_tags d).
Proof.
  intros Hsave Htrim Hadd Hrem. unfold addTag, removeTag in *.
  apply Hsave in Hadd as [_ H1]. apply Hsave in Hrem as [_ H2].
  simpl in H2. rewrite H2, H1. clear H2 H1. rewrite Htrim.
  destruct (existsb (String.eqb tag) (data_tags d)) eqn:E; simpl.
  - apply existsb_eqb_elem_of in E.
    split; [done|]. split; [done|]. split; [|split].
    + rewrite elem_of_without. tauto.
    + intros t Hne. rewrite elem_of_without. tauto.
    + done.
  - assert (tag ∉ data_tags d) as Hn.
    { intros Hin%existsb_eqb_elem_of. congruence. }
    rewrite (without_pushed _ _ Hn).
    split; [apply elem_of_app; right; apply list_elem_of_here|].
    split; [|done].
    intros Hnd. apply NoDup_app. split; [done|]. split; [|apply NoDup_singleton].
    by intros x Hx ->%list_elem_of_singleton.
Qed.

Lemma addTag_then_removeTag_witness :
  ∃ d1 w1 d2 w2,
    addTag (save_whole 9) "disk" (Demo.record Demo.rec1_id Demo.alice_id "CPU")
           Demo.world = (Val d1, w1)
    ∧ removeTag (save_whole 9) "disk" d1 w1 = (Val d2, w2)
    ∧ data_tags d1 = ["cpu"; "disk"]
    ∧ "disk" ∈ data_tags d1
    ∧ (NoDup (data_tags (Demo.record Demo.rec1_id Demo.alice_id "CPU"))
       → NoDup (data_tags d1))
    ∧ ("disk" ∉ data_tags d2)
    ∧ (∀ t, t ≠ "disk" →
         (t ∈ data_tags d2
          ↔ t ∈ data_tags (Demo.record Demo.rec1_id Demo.alice_id "CPU")))
    ∧ ("disk" ∉ data_tags (Demo.record Demo.rec1_id Demo.alice_id "CPU")
       → data_tags d2 = data_tags (Demo.record Demo.rec1_id Demo.alice_id "CPU")).
Proof.
  eexists _, _, _, _. split; [vm_compute; reflexivity|].
  split; [vm_compute; reflexivity|]. split; [reflexivity|].
  eapply (addTag_then_removeTag (save_whole 9) "disk"
            (Demo.record Demo.rec1_id Demo.alice_id "CPU") _ _ Demo.world);
    [apply save_whole_keeps|reflexivity|vm_compute; reflexivity
    |vm_compute; reflexivity].
Defined.

(** X28: a toggled record is never pending again.  For a [save] that
    gives back the status it was given: [toggleStatus] leaves the record
    [active] or [inactive]; a [pending] record becomes [active], and a
    second toggle makes it [inactive], not [pending]; a record that was
    [active] or [inactive] has its status back after two toggles. *)
Theorem toggleStatus_leaves_pending (save : Data → M Data)
    (d d1 d2 : Data) (w w1 w2 : World) :
  save_keeps save →
  toggleStatus save d w = (Val d1, w1) →
  toggleStatus save d1 w1 = (Val d2, w2) →
  data_status d1 ∈ ["active"; "inactive"]
  ∧ data_status d2 ∈ ["active"; "inactive"]
  ∧ data_status d2 ≠ data_status d1
  ∧ (data_status d = "pending" →
       data_status d1 = "active" ∧ data_status d2 = "inactive")
  ∧ (data_status d ∈ ["active"; "inactive"] → data_status d2 = data_status d).
Proof.
  intros Hsave H1 H2. unfold toggleStatus in *.
  apply Hsave in H1 as [H1 _]. apply Hsave in H2 as [H2 _].
  simpl in H1, H2. rewrite H2, H1. clear H2 H1.
  destruct (String.eqb (data_status d) "active") eqn:E; simpl.
  - apply String.eqb_eq in E. rewrite E.
    split; [apply list_elem_of_further, list_elem_of_here|].
    split; [apply list_elem_of_here|]. split; [done|]. split; [done|]. done.
  - apply String.eqb_neq in E.
    split; [apply list_elem_of_here|].
    split; [apply list_elem_of_further, list_elem_of_here|].
    split; [done|]. split; [done|].
    intros [?|[?|[]%elem_of_nil]%elem_of_cons]%elem_of_cons; congruence.
Qed.

Lemma toggleStatus_leaves_pending_witness :
  ∃ d1 w1 d2 w2,
    toggleStatus (save_whole 9)
      (with_status "pending" (Demo.record Demo.rec1_id Demo.alice_id "CPU"))
      Demo.world = (Val d1, w1)
    ∧ toggleStatus (save_whole 9) d1 w1 = (Val d2, w2)
    ∧ data_status d1 = "active" ∧ data_status d2 = "inactive"
    ∧ data_status d1 ∈ ["active"; "inactive"]
    ∧ data_status d2 ∈ ["active"; "inactive"]
    ∧ data_status d2 ≠ data_status d1
    ∧ (data_status
         (with_status "pending" (Demo.record Demo.rec1_id Demo.alice_id "CPU"))
       = "pending" →
         data_status d1 = "active" ∧ data_status d2 = "inactive")
    ∧ (data_status
         (with_status "pending" (Demo.record Demo.rec1_id Demo.alice_id "CPU"))
       ∈ ["active"; "inactive"] →
       data_status d2
       = data_status
           (with_status "pending" (Demo.record Demo.rec1_id Demo.alice_id "CPU"))).
Proof.
  eexists _, _, _, _. split; [vm_compute; reflexivity|].
  split; [vm_compute; reflexivity|]. split; [reflexivity|]. split; [reflexivity|].
  eapply (toggleStatus_leaves_pending (save_whole 9)
            (with_status "pending" (Demo.record Demo.rec1_id Demo.alice_id "CPU"))
            _ _ Demo.world);
    [apply save_whole_keeps|vm_compute; reflexivity|vm_compute; reflexivity].
Defined.

(** ** [PUT /api/user/profile] *)

Section ProfileTheorems.
Context `{UM : UserModel}.

(** X29: a theme other than [light] and [dark] is refused before the
    update.  When [preferences.theme] of the body is truthy and is not one
    of the two strings, [PUT /api/user/profile] answers 400 and the user
    model is not called: the world is as it was, whatever the model and
    the database would have done. *)
Theorem invalid_theme_is_400 (req : Request) (w : World) :
  truthy (field (field (req_body req) "preferences") "theme") = true →
  (∀ s, field (field (req_body req) "preferences") "theme" = JStr s →
        s ≠ "light" ∧ s ≠ "dark") →
  put_user_profile req w
  = (Val (mkProfileResponse 400 (ProfileError "Invalid theme preference")), w).
Proof.
  intros Ht Hs. unfold put_user_profile, destructure, theme_refused.
  destruct (req_body req) as [| | | | | |kv] eqn:Eb; try done.
  cbn [nullish]. run.
  destruct (field (JObj kv) "preferences") as [| | | | | |pv] eqn:Ep; try done.
  cbn [truthy]. rewrite Ht. cbn [andb].
  destruct (included _ _) as [s|] eqn:Ei; [|done].
  unfold included in Ei.
  destruct (field (JObj pv) "theme") as [| | | |s'| |]; try done.
  destruct (Hs s' eq_refl) as [Hl Hd]. simpl in Ei.
  apply String.eqb_neq in Hl, Hd. by rewrite Hl, Hd in Ei.
Qed.

(** X30: the profile update reads three fields.  Two requests of the same
    identity whose bodies agree on [firstName], [lastName] and
    [preferences] run alike: whatever else the body holds, a [role], an
    [email] or a [password], does not reach the user model and does not
    change the answer. *)
Theorem profile_update_reads_three_fields (r1 r2 : Request) (w : World) :
  req_user r1 = req_user r2 →
  nullish (req_body r1) = false → nullish (req_body r2) = false →
  (∀ k, k ∈ ["firstName"; "lastName"; "preferences"] →
        field (req_body r1) k = field (req_body r2) k) →
  put_user_profile r1 w = put_user_profile r2 w.
Proof.
  intros Hu Hn1 Hn2 Hf.
  assert (field (req_body r1) "firstName" = field (req_body r2) "firstName") as E1
    by (apply Hf, list_elem_of_here).
  assert (field (req_body r1) "lastName" = field (req_body r2) "lastName") as E2
    by (apply Hf, list_elem_of_further, list_elem_of_here).
  assert (field (req_body r1) "preferences" = field (req_body r2) "preferences") as E3
    by (apply Hf; do 2 apply list_elem_of_further; apply list_elem_of_here).
  unfold put_user_profile, destructure, current_user, profile_updateFields.
  by rewrite Hn1, Hn2, Hu, E1, E2, E3.
Qed.

End ProfileTheorems.

Lemma invalid_theme_is_400_witness :
  @put_user_profile demo_user_model
    (Demo.alice_sends (JObj [("preferences", JObj [("theme", JStr "solarized")])]))
    Demo.world
  = (Val (mkProfileResponse 400 (ProfileError "Invalid theme preference")),
     Demo.world).
Proof.
  apply (@invalid_theme_is_400 demo_user_model); [reflexivity|].
  intros s Hs. vm_compute in Hs. injection Hs as <-. split; discriminate.
Defined.

Lemma profile_update_reads_three_fields_witness :
  @put_user_profile demo_user_model
    (Demo.alice_sends (JObj [("firstName", JStr "Al"); ("role", JStr "admin")]))
    Demo.world
  = @put_user_profile demo_user_model
      (Demo.alice_sends (JObj [("firstName", JStr "Al")])) Demo.world.
Proof.
  apply (@profile_update_reads_three_fields demo_user_model);
    [reflexivity|reflexivity|reflexivity|].
  intros k Hk. repeat (apply elem_of_cons in Hk as [->|Hk]; [reflexivity|]).
  by apply elem_of_nil in Hk.
Defined.
